(** * A model of [src/data_cleaning.py] and the properties of its cleaning stages

    The script cleans a sales table with pandas in three stages,
    [clean_column_names], [handle_missing_values] (which calls
    [_to_numeric_clean]) and [remove_invalid_rows].  This file gives
    the pandas objects the script touches a small executable model and
    states, stage by stage, what the code guarantees.

    Conventions of the model.
    - Text is a [string] of ASCII characters; a character above 127 is
      kept as it is and counts neither as whitespace nor as a letter.
    - A float is a binary64, kept as the decimal [mant * 10 ^ expo] of
      its value, or an infinity.  What the code computes in floating
      point is rounded to the nearest binary64, ties to even; text is
      read as the parser of pandas before 3.0 reads it, which is not
      always the nearest binary64, and a literal beyond the range of
      float64 is a parse error there, not an infinity.  The sign of a
      zero is not kept.
    - An integer column is an [int64] or a [uint64] column of unbounded
      integers; the code puts only integers of the range in one.  The
      cast of a float beyond the range of [int64] gives the smallest
      [int64], as it does on x86-64.
    - A missing cell (the NaN that [read_csv] leaves for an empty field,
      and the [pd.NA] the script assigns) is one marker, whose text form
      is the one of NaN.
    - A [DataFrame] is an object in a store: [df[col] = v] updates the
      object in place, while [rename], boolean indexing, [copy] and
      [reset_index] build a new object.
    - The guarantees are stated for well-formed tables ([wf]): no label
      twice, every column as long as the index.  A label that two
      columns carry selects a table and not a Series; the model gives
      it the [AttributeError] of the attribute access that follows in
      [clean_column_names] and [_to_numeric_clean]. *)

From Stdlib Require Import ZArith Ascii String List Bool Lia.
From Stdlib Require Import Sorting.Sorted Sorting.Permutation.
From Stdlib Require Import Numbers.DecimalString.
From Stdlib Require Numbers.DecimalN.
From stdpp Require Import base option list strings.

Local Open Scope string_scope.
Local Open Scope Z_scope.

(** ** Characters and text *)

Module Text.

Definition code (c : ascii) : N := N_of_ascii c.

(** Python's [str.isspace] on one ASCII character, which is also what
    [\s] matches: TAB, LF, VT, FF, CR, FS, GS, RS, US and the space. *)
Definition py_isspace (c : ascii) : bool :=
  let n := code c in
  ((9 <=? n) && (n <=? 13) || (28 <=? n) && (n <=? 32))%N.

(** C's [isspace] as the number parser of pandas uses it. *)
Definition c_isspace (c : ascii) : bool :=
  let n := code c in
  ((9 <=? n) && (n <=? 13) || (n =? 32))%N.

Definition is_digit (c : ascii) : bool :=
  let n := code c in ((48 <=? n) && (n <=? 57))%N.

Definition digit_val (c : ascii) : Z := Z.of_N (code c) - 48.

(** [str.lower] on one character. *)
Definition lower_char (c : ascii) : ascii :=
  let n := code c in
  if ((65 <=? n) && (n <=? 90))%N then ascii_of_N (n + 32) else c.

Fixpoint lower (s : string) : string :=
  match s with
  | EmptyString => EmptyString
  | String c t => String (lower_char c) (lower t)
  end.

Fixpoint lstrip (s : string) : string :=
  match s with
  | EmptyString => EmptyString
  | String c t => if py_isspace c then lstrip t else s
  end.

Fixpoint rstrip (s : string) : string :=
  match s with
  | EmptyString => EmptyString
  | String c t =>
      match rstrip t with
      | EmptyString => if py_isspace c then EmptyString else String c EmptyString
      | t' => String c t'
      end
  end.

(** [str.strip()] with no argument. *)
Definition strip (s : string) : string := rstrip (lstrip s).

(** [re.sub(r"\s+", "_", s)]: every maximal run of whitespace becomes
    one underscore.  [in_run] tells that the previous character was
    whitespace, so that the run has its underscore already. *)
Fixpoint sub_ws_from (in_run : bool) (s : string) : string :=
  match s with
  | EmptyString => EmptyString
  | String c t =>
      if py_isspace c
      then (if in_run then sub_ws_from true t
            else String "_" (sub_ws_from true t))
      else String c (sub_ws_from false t)
  end.

Definition sub_ws (s : string) : string := sub_ws_from false s.

(** [re.sub(r"[^0-9.\-]", "", s)]: only digits, dots and minus signs
    are kept. *)
Definition numeric_char (c : ascii) : bool :=
  is_digit c || Ascii.eqb c "." || Ascii.eqb c "-".

Fixpoint keep_numeric (s : string) : string :=
  match s with
  | EmptyString => EmptyString
  | String c t =>
      if numeric_char c then String c (keep_numeric t) else keep_numeric t
  end.

Fixpoint no_space (s : string) : bool :=
  match s with
  | EmptyString => true
  | String c t => negb (py_isspace c) && no_space t
  end.

End Text.

(** ** Numbers *)

Module Num.

(** A finite number [mant * 10 ^ expo], kept in normal form: zero is
    [Dec 0 0] and a mantissa other than zero has no trailing decimal
    zero. *)
Record dec : Type := Dec { mant : Z; expo : Z }.

Fixpoint strip10 (fuel : nat) (m e : Z) : dec :=
  match fuel with
  | O => Dec m e
  | S k => if m mod 10 =? 0 then strip10 k (m / 10) (e + 1) else Dec m e
  end.

Definition dnorm (m e : Z) : dec :=
  if m =? 0 then Dec 0 0 else strip10 (Z.to_nat (Z.log2 (Z.abs m))) m e.

Definition dec_of_Z (z : Z) : dec := dnorm z 0.

(** The two mantissas over the smaller of the two exponents. *)
Definition align (a b : dec) : Z * Z :=
  let e := Z.min (expo a) (expo b) in
  (mant a * 10 ^ (expo a - e), mant b * 10 ^ (expo b - e)).

Definition dadd (a b : dec) : dec :=
  let '(x, y) := align a b in dnorm (x + y) (Z.min (expo a) (expo b)).

Definition dhalf (a : dec) : dec := dnorm (5 * mant a) (expo a - 1).

Definition dleb (a b : dec) : bool :=
  let '(x, y) := align a b in x <=? y.

Definition dpos (a : dec) : bool := 0 <? mant a.

(** Truncation towards zero, as a cast of a float to an integer. *)
Definition dtrunc (a : dec) : Z :=
  if 0 <=? expo a then mant a * 10 ^ expo a
  else Z.quot (mant a) (10 ^ (- expo a)).

(** A float that is not NaN; NaN is the missing value and is kept
    apart, as [None] or as the missing cell. *)
Inductive float : Type :=
| Fin (d : dec)
| PInf
| NInf.

(** *** binary64

    A finite float is kept as the exact decimal of its value, which
    every binary64 has.  What the script computes in floating point is
    rounded as the processor rounds it: to the nearest binary64, ties
    to even, with the subnormal numbers below [2 ^ -1022] and an
    infinity beyond the range. *)

(** [n / (d * 2 ^ e)] as a fraction of two integers. *)
Definition scaled (n d e : Z) : Z * Z :=
  if 0 <=? e then (n, d * 2 ^ e) else (n * 2 ^ (- e), d).

Definition round_half_even (num den : Z) : Z :=
  let q := num / den in
  match 2 * (num mod den) ?= den with
  | Lt => q
  | Eq => if Z.even q then q else q + 1
  | Gt => q + 1
  end.

(** The exponent of the binary64 that holds [n / d], for [n] and [d]
    positive: the significand has 53 bits, and no exponent is below the
    one of the subnormal numbers. *)
Definition bexp (n d : Z) : Z :=
  let e1 := Z.log2 n - Z.log2 d - 53 in
  let '(num, den) := scaled n d e1 in
  Z.max (if 2 ^ 53 <=? num / den then e1 + 1 else e1) (-1074).

(** [m * 2 ^ e] as a decimal. *)
Definition dec_of_bin (m e : Z) : dec :=
  if 0 <=? e then dnorm (m * 2 ^ e) 0
  else
    let g := Z.gcd m (2 ^ (- e)) in
    let k := - e - Z.log2 g in
    dnorm (m / g * 5 ^ k) (- k).

(** The binary64 nearest to [n / d], for [n] and [d] positive; none
    when it is beyond the largest one. *)
Definition round_pos (n d : Z) : option dec :=
  let e := bexp n d in
  let '(num, den) := scaled n d e in
  let m := round_half_even num den in
  if (971 <? e) || ((e =? 971) && (2 ^ 53 <=? m)) then None
  else Some (dec_of_bin m e).

(** The binary64 nearest to [n / d], for [d] positive. *)
Definition round64 (n d : Z) : float :=
  if n =? 0 then Fin (Dec 0 0)
  else if 0 <? n then
    match round_pos n d with
    | Some x => Fin x
    | None => PInf
    end
  else
    match round_pos (- n) d with
    | Some x => Fin (Dec (- mant x) (expo x))
    | None => NInf
    end.

(** The binary64 nearest to a decimal. *)
Definition round_dec (a : dec) : float :=
  if 0 <=? expo a then round64 (mant a * 10 ^ expo a) 1
  else round64 (mant a) (10 ^ (- expo a)).

(** An integer as a float, [float(z)]: the integers below [2 ^ 53] are
    floats as they are, the others are rounded. *)
Definition of_Z (z : Z) : float :=
  if Z.abs z <? 2 ^ 53 then Fin (dec_of_Z z) else round64 z 1.

(** The range of [int64]. *)
Definition in_int64 (z : Z) : bool := (- 2 ^ 63 <=? z) && (z <? 2 ^ 63).

(** The cast of the integer part of a float64 to [int64], as the
    x86-64 processor makes it: out of the range the result is the
    smallest [int64]. *)
Definition cast_int64 (z : Z) : Z := if in_int64 z then z else - 2 ^ 63.

(** The range of [uint64]. *)
Definition in_uint64 (z : Z) : bool := (0 <=? z) && (z <? 2 ^ 64).

(** The [int64] with the 64 bits of an integer. *)
Definition wrap_int64 (z : Z) : Z := (z + 2 ^ 63) mod 2 ^ 64 - 2 ^ 63.

Definition fleb (a b : float) : bool :=
  match a, b with
  | NInf, _ => true
  | _, PInf => true
  | Fin x, Fin y => dleb x y
  | _, _ => false
  end.

(** [x > 0]. *)
Definition gt0 (a : float) : bool :=
  match a with
  | Fin d => dpos d
  | PInf => true
  | NInf => false
  end.

(** The mean of two floats as [numpy] takes it, in floating point: the
    sum, rounded, and then the half of it, rounded; the sum of two
    large floats is an infinity, [inf] and [-inf] have no sum (NaN). *)
Definition fmean (a b : float) : option float :=
  match a, b with
  | Fin x, Fin y =>
      Some (match round_dec (dadd x y) with
            | Fin t => round_dec (dhalf t)
            | PInf => PInf
            | NInf => NInf
            end)
  | PInf, NInf | NInf, PInf => None
  | PInf, _ | _, PInf => Some PInf
  | NInf, _ | _, NInf => Some NInf
  end.

(** The cast of a float to an integer: [astype(int)] refuses a value
    that is not finite. *)
Definition ftrunc (a : float) : option Z :=
  match a with
  | Fin d => Some (dtrunc d)
  | _ => None
  end.

(** *** Sorting and the median *)

Fixpoint insert (x : float) (l : list float) : list float :=
  match l with
  | [] => [x]
  | y :: t => if fleb x y then x :: l else y :: insert x t
  end.

Fixpoint sort (l : list float) : list float :=
  match l with
  | [] => []
  | x :: t => insert x (sort t)
  end.

(** The median of the values that are present: the middle one of the
    sorted values, or the mean of the two middle ones when their
    number is even; NaN ([None]) when there is none. *)
Definition median (l : list float) : option float :=
  let s := sort l in
  let n := length s in
  match n with
  | O => None
  | _ =>
      if Nat.even n
      then match s !! (n / 2 - 1)%nat, s !! (n / 2)%nat with
           | Some a, Some b => fmean a b
           | _, _ => None
           end
      else s !! (n / 2)%nat
  end.

End Num.

(** ** Numbers from text and back *)

Module Conv.
Import Text Num.

(** What the number parser makes of a string: an integer literal in
    the range where pandas keeps integers ([int64] and [uint64]) is
    read as an integer, anything else as a float. *)
Inductive parsed : Type :=
| PInt (z : Z)
| PFloat (x : float).

(** The float of what was parsed.  (Beside a float, pandas keeps for an
    integer literal the float that its parser computed.  For a literal
    of up to 16 digits this is the float of the integer; for a longer
    one it can differ from it by a rounding, which the model leaves
    out.) *)
Definition parsed_float (p : parsed) : float :=
  match p with
  | PInt z => of_Z z
  | PFloat x => x
  end.

Fixpoint skip_c_space (s : string) : string :=
  match s with
  | EmptyString => EmptyString
  | String c t => if c_isspace c then skip_c_space t else s
  end.

(** The leading digits of [s], most significant first, and the rest. *)
Fixpoint span_digits (s : string) : list Z * string :=
  match s with
  | EmptyString => ([], EmptyString)
  | String c t =>
      if is_digit c
      then let '(ds, r) := span_digits t in (digit_val c :: ds, r)
      else ([], s)
  end.

Definition digits_value (ds : list Z) : Z :=
  fold_left (fun a d => 10 * a + d) ds 0.

Definition read_sign (s : string) : bool * string :=
  match s with
  | String "-" t => (true, t)
  | String "+" t => (false, t)
  | _ => (false, s)
  end.

Definition signed (neg : bool) (z : Z) : Z := if neg then - z else z.

Definition at_end (s : string) : bool :=
  match skip_c_space s with
  | EmptyString => true
  | _ => false
  end.

(** The text as the parser, which is written in C, sees it: up to the
    first NUL. *)
Fixpoint c_string (s : string) : string :=
  match s with
  | EmptyString => EmptyString
  | String c t => if Ascii.eqb c "000" then EmptyString else String c (c_string t)
  end.

Fixpoint has_nul (s : string) : bool :=
  match s with
  | EmptyString => false
  | String c t => Ascii.eqb c "000" || has_nul t
  end.

(** *** The routine [precise_xstrtod]

    [pd.to_numeric] reads a text with the routine [precise_xstrtod] of
    pandas (before 3.0), which computes in floating point.  It gathers
    the first 17 digits of the text in a float, counts the digits of
    the integer part that are left into the exponent, and multiplies or
    divides the float by a power of ten taken from a table of floats.
    For a number of up to 15 digits and a power of ten up to [1e22]
    the result is the float nearest to the number; otherwise it can be
    a neighbour of that float. *)

(** The float of an integer, as the integer it is: a float from
    [2 ^ 53] on has no fraction. *)
Definition fl_int (z : Z) : Z :=
  match of_Z z with
  | Fin d => dtrunc d
  | _ => z
  end.

(** [number = number * 10. + digit] for every digit, from zero. *)
Definition gather (ds : list Z) : Z :=
  fold_left (fun number d => fl_int (fl_int (number * 10) + d)) ds 0.

(** The table [e]: [pow10 k] is the float written [1ek], for [k] from
    0 to 308. *)
Definition pow10 (k : Z) : Z := fl_int (10 ^ k).

(** [x / y] for a float [x] and a float [y] that is a positive
    integer. *)
Definition fdiv (x : float) (y : Z) : float :=
  match x with
  | Fin d =>
      if 0 <=? expo d then round64 (mant d * 10 ^ expo d) y
      else round64 (mant d) (10 ^ (- expo d) * y)
  | _ => x
  end.

Definition fneg (x : float) : float :=
  match x with
  | Fin d => Fin (Dec (- mant d) (expo d))
  | PInf => NInf
  | NInf => PInf
  end.

Definition fsigned (neg : bool) (x : float) : float :=
  if neg then fneg x else x.

(** An [int] of C, which has 32 bits. *)
Definition wrap_int32 (z : Z) : Z := (z + 2 ^ 31) mod 2 ^ 32 - 2 ^ 31.

Definition max_digits : nat := 17.

(** The float for the digits [ip] before the dot, the digits [fp]
    after it and the written exponent [n]; none when the float is out
    of range, which is an error of the routine and not an infinity. *)
Definition xstrtod (ip fp : list Z) (n : Z) : option float :=
  let ui := take max_digits ip in
  let uf := take (max_digits - length ui) fp in
  let number := gather (ui ++ uf) in
  let exponent :=
    wrap_int32 (Z.of_nat (length ip - length ui) - Z.of_nat (length uf) + n) in
  let x :=
    if 308 <? exponent then PInf
    else if 0 <? exponent then of_Z (number * pow10 exponent)
    else if exponent <? -308 then
      if exponent <? -616 then Fin (Dec 0 0)
      else fdiv (round64 number (pow10 (-308 - exponent))) (pow10 308)
    else round64 number (pow10 (- exponent)) in
  match x with
  | Fin d => Some (Fin d)
  | _ => None
  end.

(** A numeral without an exponent.  One without a dot is an integer
    literal: pandas takes [int(val)] of the whole text, and keeps the
    integer when it is in the range of [int64] or of [uint64]. *)
Definition literal (neg : bool) (ip fp : list Z) (has_dot : bool) (s : string)
  : option parsed :=
  match xstrtod ip fp 0 with
  | Some x =>
      if has_dot then Some (PFloat (fsigned neg x))
      else if has_nul s then None
      else
        let z := signed neg (digits_value ip) in
        if (- 2 ^ 63 <=? z) && (z <? 2 ^ 64) then Some (PInt z)
        else Some (PFloat (fsigned neg x))
  | None => None
  end.

(** The decimal grammar of the parser behind [pd.to_numeric]: blanks,
    a sign, digits with at most one dot and at least one digit, an
    exponent [e] or [E] with its own sign and from one to 17 digits,
    blanks, and nothing else. *)
Definition to_double (s : string) : option parsed :=
  let '(neg, s1) := read_sign (skip_c_space (c_string s)) in
  let '(ip, s2) := span_digits s1 in
  let '(fp, has_dot, s3) :=
    match s2 with
    | String "." t => let '(fp, r) := span_digits t in (fp, true, r)
    | _ => ([], false, s2)
    end in
  match (ip ++ fp)%list with
  | [] => None
  | _ =>
      match s3 with
      | String c t =>
          if Ascii.eqb c "e" || Ascii.eqb c "E" then
            let '(eneg, t1) := read_sign t in
            let '(ed, t2) := span_digits t1 in
            match ed with
            | [] => None
            | _ =>
                if (length ed <=? max_digits)%nat && at_end t2
                then option_map (fun x => PFloat (fsigned neg x))
                       (xstrtod ip fp (signed eneg (digits_value ed)))
                else None
            end
          else if at_end s3 then literal neg ip fp has_dot s
          else None
      | EmptyString => literal neg ip fp has_dot s
      end
  end.

(** The words for the infinities, compared without regard to case. *)
Definition inf_word (s : string) : option float :=
  let w := lower s in
  if String.eqb w "inf" || String.eqb w "+inf"
     || String.eqb w "infinity" || String.eqb w "+infinity"
  then Some PInf
  else if String.eqb w "-inf" || String.eqb w "-infinity"
  then Some NInf
  else None.

(** One string through [pd.to_numeric]: a number, or [None] where the
    text is not one. *)
Definition parse_number (s : string) : option parsed :=
  match to_double s with
  | Some p => Some p
  | None => option_map PFloat (inf_word (c_string s))
  end.

(** *** Text of a number *)

Fixpoint zeros (n : nat) : string :=
  match n with
  | O => EmptyString
  | S k => String "0" (zeros k)
  end.

Fixpoint take_str (n : nat) (s : string) : string :=
  match n, s with
  | S k, String c t => String c (take_str k t)
  | _, _ => EmptyString
  end.

Fixpoint drop_str (n : nat) (s : string) : string :=
  match n, s with
  | S k, String c t => drop_str k t
  | _, _ => s
  end.

Definition nat_digits (z : Z) : string :=
  NilZero.string_of_uint (N.to_uint (Z.to_N (Z.abs z))).

(** [str] of an integer. *)
Definition int_str (z : Z) : string :=
  if z <? 0 then "-" ++ nat_digits z else nat_digits z.

(** [str] of a finite float: positional between [1e-4] and [1e16],
    with an exponent of at least two digits outside. *)
Definition dec_str (d : dec) : string :=
  let m := mant d in
  if m =? 0 then "0.0" else
  let ds := nat_digits m in
  let n := Z.of_nat (String.length ds) in
  let decpt := n + expo d in
  let body :=
    if (decpt <=? -4) || (16 <? decpt) then
      let ex := decpt - 1 in
      let frac := drop_str 1 ds in
      take_str 1 ds
      ++ (match frac with EmptyString => "" | _ => "." ++ frac end)
      ++ "e" ++ (if ex <? 0 then "-" else "+")
      ++ (if Z.abs ex <? 10 then "0" else "") ++ nat_digits ex
    else if decpt <=? 0 then "0." ++ zeros (Z.to_nat (- decpt)) ++ ds
    else if n <=? decpt then ds ++ zeros (Z.to_nat (decpt - n)) ++ ".0"
    else take_str (Z.to_nat decpt) ds ++ "." ++ drop_str (Z.to_nat decpt) ds in
  if m <? 0 then "-" ++ body else body.

(** [a] cut to [p] significant digits: the nearest decimal of [p]
    digits, half to even, and the other neighbour of [a] among them. *)
Definition cut_digits (p : Z) (a : dec) : dec * dec :=
  let n := Z.of_nat (String.length (nat_digits (mant a))) in
  if n <=? p then (a, a)
  else
    let k := n - p in
    let q := Z.abs (mant a) / 10 ^ k in
    let near := round_half_even (Z.abs (mant a)) (10 ^ k) in
    let other := if near =? q then q + 1 else q in
    let sg := if mant a <? 0 then -1 else 1 in
    (dnorm (sg * near) (expo a + k), dnorm (sg * other) (expo a + k)).

Definition dec_eqb (a b : dec) : bool :=
  (mant a =? mant b) && (expo a =? expo b).

Definition reads_as (c a : dec) : bool :=
  match round_dec c with
  | Fin d => dec_eqb d a
  | _ => false
  end.

(** The shortest decimal that reads back as the float [a], and the
    nearest to [a] among the shortest: the digits that [repr] prints. *)
Fixpoint shortest_from (fuel : nat) (p : Z) (a : dec) : dec :=
  match fuel with
  | O => a
  | S k =>
      let '(near, other) := cut_digits p a in
      if reads_as near a then near
      else if reads_as other a then other
      else shortest_from k (p + 1) a
  end.

Definition shortest (a : dec) : dec :=
  if mant a =? 0 then a else shortest_from 17 1 a.

(** [str] of a float. *)
Definition float_str (x : float) : string :=
  match x with
  | Fin d => dec_str (shortest d)
  | PInf => "inf"
  | NInf => "-inf"
  end.

End Conv.

(** ** Series and tables *)

Module Pandas.
Import Text Num Conv.

(** A value held by a column of dtype [object]. *)
Inductive cell : Type :=
| CStr (s : string)
| CNum (x : float)
| CMissing.

(** A column with its dtype: [object], [float64] (where [None] is
    NaN), [int64] or [uint64]. *)
Inductive Series : Type :=
| SObject (l : list cell)
| SFloat (l : list (option float))
| SInt (l : list Z)
| SUInt (l : list Z).

(** A table: the row labels and the columns in order. *)
Record DataFrame : Type := Frame {
  index : list nat;
  columns : list (string * Series)
}.

Inductive exn : Type :=
| KeyError
| TypeError
| AttributeError
| ValueError
| OverflowError
| BadRef.

Inductive result (A : Type) : Type :=
| Ok (a : A)
| Err (e : exn).
Arguments Ok {A} a.
Arguments Err {A} e.

Definition bindR {A B} (r : result A) (k : A -> result B) : result B :=
  match r with
  | Ok a => k a
  | Err e => Err e
  end.

Notation "x <~ c ;; k" := (bindR c (fun x => k))
  (at level 100, c at next level, right associativity).

Fixpoint mapR {A B} (f : A -> result B) (l : list A) : result (list B) :=
  match l with
  | [] => Ok []
  | a :: t => b <~ f a ;; r <~ mapR f t ;; Ok (b :: r)
  end.

(** *** Series *)

Definition float_cell (o : option float) : cell :=
  match o with
  | Some x => CNum x
  | None => CMissing
  end.

(** The values of a column as single objects. *)
Definition cells (s : Series) : list cell :=
  match s with
  | SObject l => l
  | SFloat l => map float_cell l
  | SInt l => map (fun z => CNum (of_Z z)) l
  | SUInt l => map (fun z => CNum (of_Z z)) l
  end.

Definition size (s : Series) : nat :=
  match s with
  | SObject l => length l
  | SFloat l => length l
  | SInt l => length l
  | SUInt l => length l
  end.

(** [s.dtype == object]. *)
Definition is_object (s : Series) : bool :=
  match s with
  | SObject _ => true
  | _ => false
  end.

Definition is_str (c : cell) : bool :=
  match c with CStr _ => true | _ => false end.

Definition is_missing (c : cell) : bool :=
  match c with CMissing => true | _ => false end.

(** [str(x)] of one object. *)
Definition cell_text (c : cell) : string :=
  match c with
  | CStr s => s
  | CNum x => float_str x
  | CMissing => "nan"
  end.

(** [str(x)] of every value of a column. *)
Definition texts (s : Series) : list string :=
  match s with
  | SObject l => map cell_text l
  | SFloat l => map (fun o => cell_text (float_cell o)) l
  | SInt l => map int_str l
  | SUInt l => map int_str l
  end.

(** [s.astype(str)]. *)
Definition astype_str (s : Series) : Series := SObject (map CStr (texts s)).

(** [s.str]: the accessor is there for an [object] column that holds
    some text or nothing but missing values, and raises otherwise. *)
Definition str_accessor (s : Series) : result (list cell) :=
  match s with
  | SObject l =>
      if existsb is_str l || forallb is_missing l then Ok l
      else Err AttributeError
  | _ => Err AttributeError
  end.

(** A string method through [.str]: what is not text becomes NaN. *)
Definition str_map (f : string -> string) (s : Series) : result Series :=
  l <~ str_accessor s ;;
  Ok (SObject (map (fun c => match c with
                             | CStr t => CStr (f t)
                             | _ => CMissing
                             end) l)).

(** [s.str.strip()]. *)
Definition str_strip : Series -> result Series := str_map strip.

(** [s.str.replace(r"[^0-9.\-]", "", regex=True)]. *)
Definition str_replace_noise : Series -> result Series := str_map keep_numeric.

Definition sentinels : list string := [""; "nan"; "None"; "N/A"; "NA"].

Definition is_sentinel (t : string) : bool :=
  existsb (String.eqb t) sentinels.

(** [s.replace({"": None, "nan": None, "None": None, "N/A": None,
    "NA": None})]. *)
Definition replace_sentinels (s : Series) : Series :=
  match s with
  | SObject l =>
      SObject (map (fun c => match c with
                             | CStr t => if is_sentinel t then CMissing else c
                             | _ => c
                             end) l)
  | _ => s
  end.

(** One object through [pd.to_numeric(..., errors="coerce")]. *)
Definition numeric_cell (c : cell) : option parsed :=
  match c with
  | CStr t => parse_number t
  | CNum x => Some (PFloat x)
  | CMissing => None
  end.

Definition as_int (o : option parsed) : option Z :=
  match o with
  | Some (PInt z) => Some z
  | _ => None
  end.

(** [pd.to_numeric(s, errors="coerce")].  When every value is an
    integer literal, the column is [int64] if all of them are in the
    range of [int64], and [uint64] if none is negative and all are
    below [2 ^ 64].  Otherwise it is [float64], with NaN for what is
    not a number: so it is when a value is missing, when an integer is
    out of both ranges, or when one beyond [int64] stands beside a
    negative one.  A numeric column is returned as it is. *)
Definition to_numeric (s : Series) : Series :=
  match s with
  | SObject l =>
      let ps := map numeric_cell l in
      match mapM as_int ps with
      | Some zs =>
          if forallb in_int64 zs then SInt zs
          else if forallb in_uint64 zs then SUInt zs
          else SFloat (map (option_map parsed_float) ps)
      | None => SFloat (map (option_map parsed_float) ps)
      end
  | _ => s
  end.

(** The numbers of a numeric column, [None] where it has NaN. *)
Definition numbers (s : Series) : list (option float) :=
  map (fun c => match c with CNum x => Some x | _ => None end) (cells s).

Definition notna (s : Series) : list bool :=
  map (fun c => negb (is_missing c)) (cells s).

Definition isna (s : Series) : list bool := map is_missing (cells s).

(** [s.fillna(v)] for a number [v]. *)
Definition fillna (v : float) (s : Series) : Series :=
  match s with
  | SObject l => SObject (map (fun c => if is_missing c then CNum v else c) l)
  | SFloat l => SFloat (map (fun o => Some (default v o)) l)
  | SInt l => s
  | SUInt l => s
  end.

(** [int(x)] of a string: a sign and digits between blanks. *)
Definition py_int (t : string) : option Z :=
  let '(neg, t1) := read_sign (strip t) in
  match span_digits t1 with
  | (d :: ds, EmptyString) => Some (signed neg (digits_value (d :: ds)))
  | _ => None
  end.

(** [int(x)] of one object, stored as an [int64]. *)
Definition int_of_cell (c : cell) : result Z :=
  match c with
  | CStr t =>
      match py_int t with
      | Some z => if in_int64 z then Ok z else Err OverflowError
      | None => Err ValueError
      end
  | CNum (Fin d) =>
      if in_int64 (dtrunc d) then Ok (dtrunc d) else Err OverflowError
  | CNum _ => Err OverflowError
  | CMissing => Err ValueError
  end.

(** [s.astype(int)]: a float column is refused when it holds NaN or an
    infinity; otherwise every float is truncated and cast to [int64].
    A [uint64] is cast to the [int64] of the same 64 bits. *)
Definition astype_int (s : Series) : result Series :=
  match s with
  | SObject l => zs <~ mapR int_of_cell l ;; Ok (SInt zs)
  | SFloat l =>
      match mapM (fun o => o ≫= ftrunc) l with
      | Some zs => Ok (SInt (map cast_int64 zs))
      | None => Err ValueError
      end
  | SInt l => Ok s
  | SUInt l => Ok (SInt (map wrap_int64 l))
  end.

(** [s > 0], element by element; text cannot be compared with a
    number, NaN compares false. *)
Definition gt_zero (s : Series) : result (list bool) :=
  mapR (fun c => match c with
                 | CStr _ => Err TypeError
                 | CNum x => Ok (gt0 x)
                 | CMissing => Ok false
                 end) (cells s).

(** [s.median()]: NaN is skipped; text is refused. *)
Definition Series_median (s : Series) : result (option float) :=
  if existsb is_str (cells s) then Err TypeError
  else Ok (median (omap id (numbers s))).

(** [s.fillna(m)] where [m] is a float that may itself be NaN. *)
Definition fillna_float (m : option float) (s : Series) : Series :=
  match m with
  | Some v => fillna v s
  | None => s
  end.

(** The entries of [l] where the mask is true. *)
Fixpoint mask_filter {A} (m : list bool) (l : list A) : list A :=
  match m, l with
  | b :: m', a :: l' => if b then a :: mask_filter m' l' else mask_filter m' l'
  | _, _ => []
  end.

Definition series_filter (m : list bool) (s : Series) : Series :=
  match s with
  | SObject l => SObject (mask_filter m l)
  | SFloat l => SFloat (mask_filter m l)
  | SInt l => SInt (mask_filter m l)
  | SUInt l => SUInt (mask_filter m l)
  end.

(** *** Tables *)

Definition names (f : DataFrame) : list string := map fst (columns f).

Definition nrows (f : DataFrame) : nat := length (index f).

Definition has_column (c : string) (f : DataFrame) : bool :=
  existsb (String.eqb c) (names f).

Definition find_columns (c : string) (f : DataFrame) : list Series :=
  map snd (List.filter (fun p => String.eqb c (fst p)) (columns f)).

(** [f[c]] used as a Series.  A label that no column has is a
    [KeyError]; a label that several columns have selects a table, not
    a Series, and the attributes of a Series are missing from it. *)
Definition getitem (f : DataFrame) (c : string) : result Series :=
  match find_columns c f with
  | [] => Err KeyError
  | [s] => Ok s
  | _ => Err AttributeError
  end.

(** The columns after [f[c] = s]: the column [c] is replaced where it
    is, or added last. *)
Definition set_column (c : string) (s : Series) (f : DataFrame) : DataFrame :=
  Frame (index f)
    (if has_column c f
     then map (fun p => if String.eqb c (fst p) then (fst p, s) else p) (columns f)
     else columns f ++ [(c, s)])%list.

(** [f.rename(columns=g)]. *)
Definition rename (g : string -> string) (f : DataFrame) : DataFrame :=
  Frame (index f) (map (fun p => (g (fst p), snd p)) (columns f)).

(** [f[mask]] for a boolean mask: the rows where it is true, with
    their labels. *)
Definition select (m : list bool) (f : DataFrame) : DataFrame :=
  Frame (mask_filter m (index f))
        (map (fun p => (fst p, series_filter m (snd p))) (columns f)).

(** [f.reset_index(drop=True)]. *)
Definition reset_index (f : DataFrame) : DataFrame :=
  Frame (seq 0 (nrows f)) (columns f).

(** Every label names one column only. *)
Definition unique_labels (f : DataFrame) : bool :=
  forallb (fun c => Nat.eqb (length (find_columns c f)) 1) (names f).

(** A well-formed table: no label twice, and every column as long as
    the index. *)
Definition wf (f : DataFrame) : bool :=
  unique_labels f
  && forallb (fun p => Nat.eqb (size (snd p)) (nrows f)) (columns f).

(** The rows of a table, each as the list of its cells in column
    order. *)
Definition rows (f : DataFrame) : list (list cell) :=
  foldr (fun col acc => zip_with cons col acc)
        (repeat [] (nrows f))
        (map (fun p => cells (snd p)) (columns f)).

(** The cells of the column [c], when [f[c]] is a Series. *)
Definition column_cells (c : string) (f : DataFrame) : option (list cell) :=
  match getitem f c with
  | Ok s => Some (cells s)
  | Err _ => None
  end.

(** *** A table updated in place

    The statements of a function that assign to [df[...]] all act on
    one table object.  A computation on that object takes the table
    and gives a value or an exception together with the table as it
    has become: what was assigned before an exception stays
    assigned. *)

Definition F (A : Type) : Type := DataFrame -> result A * DataFrame.

Definition ret {A} (a : A) : F A := fun f => (Ok a, f).

Definition bind {A B} (c : F A) (k : A -> F B) : F B :=
  fun f =>
    match c f with
    | (Ok a, f') => k a f'
    | (Err e, f') => (Err e, f')
    end.

Notation "x <- c ;; k" := (bind c (fun x => k))
  (at level 100, c at next level, right associativity).
Notation "c ;;; k" := (bind c (fun _ => k))
  (at level 100, right associativity).

(** A pure expression that may raise. *)
Definition lift {A} (r : result A) : F A := fun f => (r, f).

(** [df[c]]. *)
Definition get_column (c : string) : F Series :=
  fun f => (getitem f c, f).

(** [df[c] = s]. *)
Definition setitem (c : string) (s : Series) : F unit :=
  fun f => (Ok tt, set_column c s f).

(** [df[c] = v] for a single value [v], which fills a whole column. *)
Definition setitem_scalar (c : string) (v : cell) : F unit :=
  fun f => (Ok tt, set_column c (SObject (repeat v (nrows f))) f).

(** [c in df.columns]. *)
Definition in_columns (c : string) : F bool :=
  fun f => (Ok (has_column c f), f).

(** [df.columns]. *)
Definition get_names : F (list string) :=
  fun f => (Ok (names f), f).

Fixpoint for_each {A} (l : list A) (body : A -> F unit) : F unit :=
  match l with
  | [] => ret tt
  | a :: t => body a ;;; for_each t body
  end.

(** *** The store of tables

    A Python variable holds a reference to a table object; two
    variables may hold the same reference. *)

Definition loc : Type := nat.
Definition store : Type := list DataFrame.
Definition M (A : Type) : Type := store -> result A * store.

Definition retM {A} (a : A) : M A := fun st => (Ok a, st).

Definition bindM {A B} (c : M A) (k : A -> M B) : M B :=
  fun st =>
    match c st with
    | (Ok a, st') => k a st'
    | (Err e, st') => (Err e, st')
    end.

Notation "x <-- c ;; k" := (bindM c (fun x => k))
  (at level 100, c at next level, right associativity).

(** The table a reference stands for.  [BadRef] is for a reference
    the store does not hold, which no run of the script has. *)
Definition deref (l : loc) : M DataFrame :=
  fun st =>
    match st !! l with
    | Some f => (Ok f, st)
    | None => (Err BadRef, st)
    end.

(** A new object. *)
Definition alloc (f : DataFrame) : M loc :=
  fun st => (Ok (length st), (st ++ [f])%list).

(** The statements [c] run on the object behind [l], which is left
    as they made it. *)
Definition on {A} (l : loc) (c : F A) : M A :=
  fun st =>
    match st !! l with
    | Some f => let '(r, f') := c f in (r, <[l := f']> st)
    | None => (Err BadRef, st)
    end.

(** An expression that only reads tables. *)
Definition liftM {A} (r : result A) : M A := fun st => (r, st).

End Pandas.

(** ** The stages of [data_cleaning.py] *)

Module Cleaning.
Import Text Num Conv Pandas.

(** The renaming function of [clean_column_names]:
    [re.sub(r"\s+", "_", c.strip().lower())]. *)
Definition canon (c : string) : string := sub_ws (lower (strip c)).

(** The body of the loop of [clean_column_names], for the column
    [col]. *)
Definition strip_column (col : string) : F unit :=
  s <- get_column col ;;
  if is_object s then
    s <- get_column col ;;
    t <- lift (str_strip (astype_str s)) ;;
    setitem col t
  else ret tt.

(** The loop over [df.columns]. *)
Definition strip_text_columns : F unit :=
  cols <- get_names ;;
  for_each cols strip_column.

(** [clean_column_names]: [rename] gives a new table, whose [object]
    columns are then stripped in place; the caller's table is only
    read. *)
Definition clean_column_names (df : loc) : M loc :=
  f <-- deref df ;;
  df <-- alloc (rename canon f) ;;
  _ <-- on df strip_text_columns ;;
  retM df.

(** [_to_numeric_clean]. *)
Definition _to_numeric_clean (series : Series) (remove_currency : bool)
  : result Series :=
  s <~ str_strip (astype_str series) ;;
  s <~ (if remove_currency then str_replace_noise s else Ok s) ;;
  let s := replace_sentinels s in
  Ok (to_numeric s).

(** The statements of [handle_missing_values]. *)
Definition fill_missing : F unit :=
  b <- in_columns "price" ;;
  (if b then
     s <- get_column "price" ;;
     t <- lift (_to_numeric_clean s true) ;;
     setitem "price" t
   else setitem_scalar "price" CMissing) ;;;
  b <- in_columns "quantity" ;;
  (if b then
     s <- get_column "quantity" ;;
     t <- lift (_to_numeric_clean s false) ;;
     setitem "quantity" t
   else setitem_scalar "quantity" CMissing) ;;;
  q <- get_column "quantity" ;;
  q <- lift (astype_int (fillna (of_Z 1) q)) ;;
  setitem "quantity" q ;;;
  p <- get_column "price" ;;
  if existsb id (notna p) then
    p <- get_column "price" ;;
    median_price <- lift (Series_median p) ;;
    p <- get_column "price" ;;
    setitem "price" (fillna_float median_price p)
  else
    p <- get_column "price" ;;
    setitem "price" (fillna (Fin (Dec 0 0)) p).

(** [handle_missing_values]: every assignment goes to the table the
    caller passed, and that same table is returned. *)
Definition handle_missing_values (df : loc) : M loc :=
  _ <-- on df fill_missing ;;
  retM df.

(** The three filters of [remove_invalid_rows]; every [df[...]] is a
    new table that only the function holds. *)
Definition valid_rows (f : DataFrame) : result DataFrame :=
  p <~ getitem f "price" ;;
  q <~ getitem f "quantity" ;;
  let f := select (zip_with andb (notna p) (notna q)) f in
  p <~ getitem f "price" ;;
  mp <~ gt_zero p ;;
  q <~ getitem f "quantity" ;;
  mq <~ gt_zero q ;;
  let f := select (zip_with andb mp mq) f in
  f <~ (if has_column "product" f then
          a <~ getitem f "product" ;;
          b <~ getitem f "product" ;;
          t <~ str_strip b ;;
          let ne := map (fun c => negb (match c with
                                        | CStr u => String.eqb u ""
                                        | _ => false
                                        end)) (cells t) in
          Ok (select (zip_with andb (map negb (isna a)) ne) f)
        else Ok f) ;;
  Ok (reset_index f).

(** [remove_invalid_rows]: the caller's table is only read, the
    result is a new object. *)
Definition remove_invalid_rows (df : loc) : M loc :=
  f <-- deref df ;;
  f <-- liftM (valid_rows f) ;;
  alloc f.

(** The script's main sequence, from the loaded table on. *)
Definition pipeline (df : loc) : M loc :=
  df <-- clean_column_names df ;;
  df <-- handle_missing_values df ;;
  remove_invalid_rows df.

End Cleaning.

(** ** What the stages are compared with *)

Module Spec.
Import Text Num Conv Pandas Cleaning.

(** [x > 0] for a cell: true of a positive number only. *)
Definition positive (c : cell) : bool :=
  match c with
  | CNum x => gt0 x
  | _ => false
  end.

(** A product that is present and, when it is text, not empty once
    trimmed. *)
Definition named (c : cell) : bool :=
  match c with
  | CStr u => negb (String.eqb (strip u) EmptyString)
  | CNum _ => true
  | CMissing => false
  end.

(** The condition on one row, from its price, its quantity and its
    product when the table has a product column. *)
Definition row_valid (p q : cell) (r : option cell) : bool :=
  positive p && positive q
  && match r with
     | Some c => named c
     | None => true
     end.

Definition product_cells (f : DataFrame) : list (option cell) :=
  match column_cells "product" f with
  | Some R => map Some R
  | None => repeat None (nrows f)
  end.

(** The rows that satisfy the condition, as a mask over the rows. *)
Definition valid_mask (f : DataFrame) : list bool :=
  match column_cells "price" f, column_cells "quantity" f with
  | Some P, Some Q =>
      map (fun t => row_valid (fst t) (fst (snd t)) (snd (snd t)))
          (zip P (zip Q (product_cells f)))
  | _, _ => []
  end.

(** A column that holds no text, as the numeric columns that
    [handle_missing_values] leaves. *)
Definition no_text (s : Series) : bool := negb (existsb is_str (cells s)).

(** A column of dtype [object] that holds text and missing values
    only. *)
Definition text_only (s : Series) : bool :=
  match s with
  | SObject l => forallb (fun c => is_str c || is_missing c) l
  | _ => false
  end.

(** The coercion of one raw text, step by step: trim, delete the
    currency noise when asked, turn the words for a missing value into
    no value, and parse what is left. *)
Definition clean_text (strip_noise : bool) (raw : string) : string :=
  let t := strip raw in
  if strip_noise then keep_numeric t else t.

Definition coerce_text (strip_noise : bool) (raw : string) : option float :=
  let t := clean_text strip_noise raw in
  if is_sentinel t then None
  else option_map parsed_float (parse_number t).

(** The numbers of the column [c] once coerced; a table without the
    column has no value in any row. *)
Definition coerced (c : string) (strip_noise : bool) (f : DataFrame)
  : list (option float) :=
  match getitem f c with
  | Ok s => map (coerce_text strip_noise) (texts s)
  | Err _ => repeat None (nrows f)
  end.

(** The values that are present. *)
Definition present (l : list (option float)) : list float := omap id l.

(** A text of whitespace only. *)
Fixpoint all_space (s : string) : bool :=
  match s with
  | EmptyString => true
  | String c t => py_isspace c && all_space t
  end.

(** A text that does not begin with whitespace. *)
Definition no_lead (s : string) : bool :=
  match s with
  | EmptyString => true
  | String c _ => negb (py_isspace c)
  end.

(** A text that does not end with whitespace. *)
Fixpoint no_trail (s : string) : bool :=
  match s with
  | EmptyString => true
  | String c EmptyString => negb (py_isspace c)
  | String _ t => no_trail t
  end.

(** [u] is [s] trimmed: [s] is [u] between two runs of whitespace, and
    [u] has no whitespace at either end. *)
Definition trimmed (s u : string) : Prop :=
  exists a b,
    s = String.append a (String.append u b)
    /\ all_space a = true
    /\ all_space b = true
    /\ no_lead u = true
    /\ no_trail u = true.

(** [t] is [x] without its fraction: the integer next to [x] towards
    zero.  For [x = mant * 10 ^ expo] with [expo < 0], the absolute
    value of [t] is the integer part of the absolute value of [x], and
    [t] has the sign of [x]. *)
Definition truncates (x : float) (t : Z) : Prop :=
  match x with
  | Fin d =>
      if 0 <=? expo d then t = mant d * 10 ^ expo d
      else Z.abs t * 10 ^ (- expo d) <= Z.abs (mant d)
                                      < (Z.abs t + 1) * 10 ^ (- expo d)
           /\ 0 <= t * mant d
  | _ => False
  end.

(** The quantity that belongs to a coerced quantity of dtype
    [float64]: [1] for a missing one; for a number, the number without
    its fraction when that is in the range of [int64], and the smallest
    [int64] when it is not. *)
Definition quantity_for (o : option float) (z : Z) : Prop :=
  match o with
  | None => z = 1
  | Some x =>
      exists t,
        truncates x t
        /\ (- 2 ^ 63 <= t < 2 ^ 63 -> z = t)
        /\ (~ - 2 ^ 63 <= t < 2 ^ 63 -> z = - 2 ^ 63)
  end.

(** The quantities that belong to a coerced column, by its dtype: a
    column without a value gives [1] everywhere, an [int64] is kept,
    and a [uint64] from [2 ^ 63] on is the [int64] of the same bits,
    which is [2 ^ 64] less. *)
Definition quantities (qc : Series) (zs : list Z) : Prop :=
  match qc with
  | SObject _ => Forall (fun z => z = 1) zs
  | SFloat xs => Forall2 quantity_for xs zs
  | SInt vs => zs = vs
  | SUInt vs =>
      Forall2 (fun v z => (v < 2 ^ 63 -> z = v) /\ (2 ^ 63 <= v -> z = v - 2 ^ 64))
              vs zs
  end.

(** What [clean_column_names] makes of a column. *)
Definition strip_object (s : Series) : Series :=
  match s with
  | SObject l => SObject (map (fun c => CStr (strip (cell_text c))) l)
  | _ => s
  end.

Definition normalized (f : DataFrame) : DataFrame :=
  Frame (index f)
        (map (fun p => (canon (fst p), strip_object (snd p))) (columns f)).

End Spec.

(** ** Parts of the stages

    Pieces of the stages and tests on single rows that the proofs
    below name. *)

Module Parts.
Import Text Num Conv Pandas Cleaning Spec.

(** The table after the turn for [col]: the columns of that label are
    stripped. *)
Definition strip_labelled (col : string) (f : DataFrame) : DataFrame :=
  Frame (index f)
        (map (fun p => if String.eqb col (fst p)
                       then (fst p, strip_object (snd p)) else p)
             (columns f)).

(** The table after the turns for the labels [todo]. *)
Definition strip_in (todo : list string) (f : DataFrame) : DataFrame :=
  Frame (index f)
        (map (fun p => if existsb (String.eqb (fst p)) todo
                       then (fst p, strip_object (snd p)) else p)
             (columns f)).

(** The tests of the three filters on one row, as the code makes
    them. *)
Definition test_present (t : cell * (cell * option cell)) : bool :=
  negb (is_missing (fst t)) && negb (is_missing (fst (snd t))).

Definition test_positive (t : cell * (cell * option cell)) : bool :=
  positive (fst t) && positive (fst (snd t)).

Definition product_of (t : cell * (cell * option cell)) : cell :=
  match snd (snd t) with
  | Some c => c
  | None => CMissing
  end.

Definition test_row (t : cell * (cell * option cell)) : bool :=
  row_valid (fst t) (fst (snd t)) (snd (snd t)).

Definition is_fin (x : float) : Prop := exists d, x = Fin d.

Fixpoint all_numeric (s : string) : bool :=
  match s with
  | EmptyString => true
  | String c t => numeric_char c && all_numeric t
  end.

(** One of the two blocks that coerce a column or create it. *)
Definition coerce_block (c : string) (remove_currency : bool) : F unit :=
  b <- in_columns c ;;
  if b then
    s <- get_column c ;;
    t <- lift (_to_numeric_clean s remove_currency) ;;
    setitem c t
  else setitem_scalar c CMissing.

(** The column the block assigns. *)
Definition coerce_column (c : string) (remove_currency : bool) (f : DataFrame)
  : Series :=
  match getitem f c with
  | Ok s => match _to_numeric_clean s remove_currency with
            | Ok t => t
            | Err _ => s
            end
  | Err _ => SObject (repeat CMissing (nrows f))
  end.

(** What is left of [handle_missing_values] after the two blocks. *)
Definition fill_rest : F unit :=
  q <- get_column "quantity" ;;
  q <- lift (astype_int (fillna (of_Z 1) q)) ;;
  setitem "quantity" q ;;;
  p <- get_column "price" ;;
  if existsb id (notna p) then
    p <- get_column "price" ;;
    median_price <- lift (Series_median p) ;;
    p <- get_column "price" ;;
    setitem "price" (fillna_float median_price p)
  else
    p <- get_column "price" ;;
    setitem "price" (fillna (Fin (Dec 0 0)) p).

End Parts.

(** ** More parts, for the properties of the stages beyond their results *)

Module MoreParts.
Import Text Num Conv Pandas Cleaning Spec Parts.

(** A table as [load_data] returns it: [read_csv(..., dtype=str)] makes
    every column a column of dtype [object]. *)
Definition all_object (f : DataFrame) : bool :=
  forallb (fun p => is_object (snd p)) (columns f).

(** A coerced value that is an infinity. *)
Definition infinite (o : option float) : bool :=
  match o with
  | Some PInf | Some NInf => true
  | _ => false
  end.

(** The labels that [handle_missing_values] adds to a table: [price]
    and then [quantity], each when the table does not have it. *)
Definition added_labels (f : DataFrame) : list string :=
  ((if has_column "price" f then [] else ["price"])
   ++ (if has_column "quantity" f then [] else ["quantity"]))%list.

(** The digits of a decimal number, most significant first. *)
Fixpoint uint_digits (d : Decimal.uint) : list Z :=
  match d with
  | Decimal.Nil => []
  | Decimal.D0 l => 0 :: uint_digits l
  | Decimal.D1 l => 1 :: uint_digits l
  | Decimal.D2 l => 2 :: uint_digits l
  | Decimal.D3 l => 3 :: uint_digits l
  | Decimal.D4 l => 4 :: uint_digits l
  | Decimal.D5 l => 5 :: uint_digits l
  | Decimal.D6 l => 6 :: uint_digits l
  | Decimal.D7 l => 7 :: uint_digits l
  | Decimal.D8 l => 8 :: uint_digits l
  | Decimal.D9 l => 9 :: uint_digits l
  end.

(** The dtype of a column. *)
Inductive dtype : Type :=
| object_
| float64
| int64
| uint64.

Definition dtype_of (s : Series) : dtype :=
  match s with
  | SObject _ => object_
  | SFloat _ => float64
  | SInt _ => int64
  | SUInt _ => uint64
  end.

(** The price column once filled, from the coerced one. *)
Definition fill_price (pc : Series) : Series :=
  if existsb id (notna pc)
  then fillna_float (median (present (numbers pc))) pc
  else fillna (Fin (Dec 0 0)) pc.

(** The table after the two blocks that coerce or create [price] and
    [quantity]. *)
Definition coerced_table (f : DataFrame) : DataFrame :=
  set_column "quantity" (coerce_column "quantity" false f)
    (set_column "price" (coerce_column "price" true f) f).

(** The table after the last assignment of [handle_missing_values],
    where [q] is the quantity column cast to integers. *)
Definition filled_table (q : Series) (f : DataFrame) : DataFrame :=
  set_column "price" (fill_price (coerce_column "price" true f))
    (set_column "quantity" q (coerced_table f)).

(** Upper-case ASCII letters. *)
Definition is_upper (c : ascii) : bool :=
  let n := code c in ((65 <=? n) && (n <=? 90))%N.

Fixpoint no_upper (s : string) : bool :=
  match s with
  | EmptyString => true
  | String c t => negb (is_upper c) && no_upper t
  end.

End MoreParts.

(** ** The test suite, [tests/test_cleaning.py] *)

Module Tests.
Import Text Num Conv Pandas Cleaning.

(** [pd.DataFrame({...})] of the first test. *)
Definition raw_sales : DataFrame :=
  Frame [0; 1; 2]%nat
    [("Product ", SObject [CStr "Good"; CStr "BadPrice"; CStr "NoQty"]);
     (" Price", SObject [CStr "$10.00"; CStr "-5.00"; CStr "12.00"]);
     ("Quantity ", SObject [CStr "2"; CStr "1"; CStr EmptyString])].

(** [pd.DataFrame({...})] of the second test. *)
Definition one_sale : DataFrame :=
  Frame [0]%nat
    [("Product", SObject [CStr "X"]);
     ("Price", SObject [CStr "5"]);
     ("Quantity", SObject [CStr EmptyString])].

(** [(df[c] > 0).all()]. *)
Definition all_positive (c : string) (f : DataFrame) : result bool :=
  s <~ getitem f c ;;
  m <~ gt_zero s ;;
  Ok (forallb id m).

(** The position of a row label in an index. *)
Fixpoint row_of (label : nat) (idx : list nat) : option nat :=
  match idx with
  | [] => None
  | x :: t => if Nat.eqb label x then Some 0%nat else option_map S (row_of label t)
  end.

(** [df.loc[label, c]] in a table whose row labels are distinct. *)
Definition loc_cell (label : nat) (c : string) (f : DataFrame) : result cell :=
  s <~ getitem f c ;;
  match row_of label (index f) with
  | Some i => match cells s !! i with
              | Some x => Ok x
              | None => Err KeyError
              end
  | None => Err KeyError
  end.

(** The two tests; each gives the value of what it asserts. *)
Definition test_negative_values_removed_and_missing_filled : M bool :=
  df <-- alloc raw_sales ;;
  df <-- clean_column_names df ;;
  df <-- handle_missing_values df ;;
  df <-- remove_invalid_rows df ;;
  f <-- deref df ;;
  a <-- liftM (all_positive "price" f) ;;
  b <-- liftM (all_positive "quantity" f) ;;
  retM (a && b).

Definition test_missing_quantity_defaults_to_one : M bool :=
  df <-- alloc one_sale ;;
  df <-- clean_column_names df ;;
  df <-- handle_missing_values df ;;
  f <-- deref df ;;
  x <-- liftM (loc_cell 0 "quantity" f) ;;
  z <-- liftM (int_of_cell x) ;;
  retM (z =? 1).

End Tests.

(** ** More tables to run the stages on *)

Module MoreScenario.
Import Num Pandas.

(** A table without a price column. *)
Definition unpriced : DataFrame :=
  Frame [0; 1]%nat [("quantity", SObject [CStr "2"; CStr "5"])].

(** A loaded table with a product that is missing and one that is
    blank. *)
Definition unnamed : DataFrame :=
  Frame [0; 1; 2]%nat
    [("Product", SObject [CMissing; CStr "  "; CStr "Pen"]);
     ("Price", SObject [CStr "3"; CStr "4"; CStr "5"]);
     ("Quantity", SObject [CStr "1"; CStr "1"; CStr "2"])].



End MoreScenario.

(** ** Tables to run the stages on *)

Module Scenario.
Import Num Pandas.

(** The three sales of the scenario: a good one, one with a negative
    price and one without a quantity. *)
Definition sales : DataFrame :=
  Frame [0; 1; 2]%nat
    [("Product", SObject [CStr " Good"; CStr "BadPrice"; CStr "NoQty"]);
     ("Price", SObject [CStr "$10.00"; CStr "-5.00"; CStr "12.00"]);
     ("Quantity", SObject [CStr "2"; CStr "1"; CStr EmptyString])].

(** A table as [handle_missing_values] leaves it, with a sale whose
    product is empty and one whose price is negative. *)
Definition filled : DataFrame :=
  Frame [0; 1; 2]%nat
    [("product", SObject [CStr "Pen"; CStr EmptyString; CStr "Ink"]);
     ("price", SFloat [Some (of_Z 10); Some (of_Z 4); Some (of_Z (-5))]);
     ("quantity", SInt [2; 1; 1])].

(** A table whose price was never coerced. *)
Definition raw_price : DataFrame :=
  Frame [0]%nat
    [("price", SObject [CStr "abc"]); ("quantity", SInt [1])].

(** A table with a price and a quantity that are missing. *)
Definition gaps : DataFrame :=
  Frame [0; 1; 2; 3]%nat
    [("price", SObject [CStr "$4.00"; CMissing; CStr "1"; CStr "n/a"]);
     ("quantity", SObject [CStr "2.9"; CStr "N/A"; CStr "x"; CStr "3"])].

End Scenario.

(** ** The model at work *)

Example strip_ex : Text.strip "  Good " = "Good".
Proof. reflexivity. Qed.

Example sub_ws_ex : Text.sub_ws "unit   price" = "unit_price".
Proof. reflexivity. Qed.

Example dnorm_ex : Num.dnorm 1000 (-2) = Num.Dec 1 1.
Proof. reflexivity. Qed.

Example median_odd_ex :
  Num.median [Num.of_Z 12; Num.of_Z (-5); Num.of_Z 10] = Some (Num.of_Z 10).
Proof. reflexivity. Qed.

Example median_even_ex :
  Num.median [Num.of_Z 12; Num.of_Z 3; Num.of_Z 10; Num.of_Z 4]
  = Some (Num.Fin (Num.Dec 7 0)).
Proof. reflexivity. Qed.

Example median_half_ex :
  Num.median [Num.of_Z 2; Num.of_Z 1] = Some (Num.Fin (Num.Dec 15 (-1))).
Proof. reflexivity. Qed.

Example parse_price_ex :
  Conv.parse_number "7.50" = Some (Conv.PFloat (Num.Fin (Num.Dec 75 (-1)))).
Proof. reflexivity. Qed.

Example parse_int_ex : Conv.parse_number "-12" = Some (Conv.PInt (-12)).
Proof. reflexivity. Qed.

Example parse_exp_ex :
  Conv.parse_number "1.5e3" = Some (Conv.PFloat (Num.Fin (Num.Dec 15 2))).
Proof. reflexivity. Qed.

Example parse_inf_ex : Conv.parse_number "-Inf" = Some (Conv.PFloat Num.NInf).
Proof. reflexivity. Qed.

Example parse_fail_ex :
  map Conv.parse_number ["abc"; "."; "-"; "1e"; "1.2.3"; "5-3"; "--5"]
  = [None; None; None; None; None; None; None].
Proof. reflexivity. Qed.

Example float_str_ex :
  map Conv.dec_str
    [Num.Dec 1 1; Num.Dec 75 (-1); Num.Dec (-5) 0; Num.Dec 1 (-4);
     Num.Dec 1 (-5); Num.Dec 1 16; Num.Dec 15 15; Num.Dec 1 15; Num.Dec 125 (-2)]
  = ["10.0"; "7.5"; "-5.0"; "0.0001"; "1e-05"; "1e+16"; "1.5e+16";
     "1000000000000000.0"; "1.25"].
Proof. reflexivity. Qed.

Example int_str_ex : map Conv.int_str [0; 12; -7] = ["0"; "12"; "-7"].
Proof. reflexivity. Qed.

(** A float prints with the fewest digits that read back as it. *)
Example float_repr_ex :
  option_map Conv.float_str (Num.fmean (Num.round_dec (Num.Dec 1 (-1)))
                                       (Num.round_dec (Num.Dec 2 (-1))))
  = Some "0.15000000000000002".
Proof. vm_compute. reflexivity. Qed.

(** The parser gathers 17 digits, a leading zero among them, and drops
    the others: it reads the text of the float above as the float of
    [0.15]. *)
Example parse_long_ex :
  Conv.parse_number "0.15000000000000002" = Conv.parse_number "0.15"
  /\ Conv.parse_number ".15000000000000002"
     = Some (Conv.PFloat
               (Num.Fin (Num.Dec 15000000000000002220446049250313080847263336181640625
                                 (-53)))).
Proof. split; vm_compute; reflexivity. Qed.

(** Beyond the range of float64 the parser fails; below it, it reads
    zero. *)
Example parse_range_ex :
  map Conv.parse_number ["1e400"; "1e-400"; "1e308"]
  = [None; Some (Conv.PFloat (Num.Fin (Num.Dec 0 0)));
     Some (Conv.PFloat (Num.round_dec (Num.Dec 1 308)))].
Proof. vm_compute. reflexivity. Qed.

(** The dtype that [pd.to_numeric] chooses for integer literals. *)
Example to_numeric_dtype_ex :
  map (fun l => Pandas.to_numeric (Pandas.SObject (map Pandas.CStr l)))
      [["1"; "-2"]; ["1"; "9223372036854775808"]; ["-1"; "9223372036854775808"]]
  = [Pandas.SInt [1; -2];
     Pandas.SUInt [1; 9223372036854775808];
     Pandas.SFloat [Some (Num.of_Z (-1));
                    Some (Num.Fin (Num.Dec 9223372036854775808 0))]].
Proof. vm_compute. reflexivity. Qed.

Example hyphen_name_ex : Cleaning.canon " Unit  Price " = "unit_price".
Proof. reflexivity. Qed.

(** Two labels with one canonical name: the loop of
    [clean_column_names] meets a label that selects two columns. *)
Example name_collision_ex :
  fst (Cleaning.clean_column_names 0%nat
         [Pandas.Frame [0%nat]
            [(" A", Pandas.SObject [Pandas.CStr "x"]);
             ("a", Pandas.SObject [Pandas.CStr "y"])]])
  = Pandas.Err Pandas.AttributeError.
Proof. reflexivity. Qed.

(** A quantity that reads as an infinity cannot be cast to an
    integer. *)
Example infinite_quantity_ex :
  fst (Cleaning.handle_missing_values 0%nat
         [Pandas.Frame [0%nat]
            [("price", Pandas.SObject [Pandas.CStr "3"]);
             ("quantity", Pandas.SObject [Pandas.CStr "inf"])]])
  = Pandas.Err Pandas.ValueError.
Proof. reflexivity. Qed.

(** A table without a price gets the price [0.0] in every row, and no
    row passes the filter. *)
Example no_price_ex :
  Cleaning.pipeline 0%nat
    [Pandas.Frame [0; 1]%nat [("Quantity", Pandas.SObject [Pandas.CStr "2"; Pandas.CStr "5"])]]
  = (Pandas.Ok 2%nat,
     [Pandas.Frame [0; 1]%nat
        [("Quantity", Pandas.SObject [Pandas.CStr "2"; Pandas.CStr "5"])];
      Pandas.Frame [0; 1]%nat
        [("quantity", Pandas.SInt [2; 5]);
         ("price", Pandas.SObject [Pandas.CNum (Num.of_Z 0); Pandas.CNum (Num.of_Z 0)])];
      Pandas.Frame []
        [("quantity", Pandas.SInt []); ("price", Pandas.SObject [])]]).
Proof. reflexivity. Qed.

(** ** Facts about text *)

Module TextFacts.
Import Text.

Ltac each_char c := destruct c as [[] [] [] [] [] [] [] []]; vm_compute; reflexivity.

Lemma lower_char_idem (c : ascii) : lower_char (lower_char c) = lower_char c.
Proof. each_char c. Qed.

Lemma lower_char_space (c : ascii) : py_isspace (lower_char c) = py_isspace c.
Proof. each_char c. Qed.

Lemma lower_idem (s : string) : lower (lower s) = lower s.
Proof.
  induction s as [|c t IH]; simpl; [reflexivity|].
  now rewrite lower_char_idem, IH.
Qed.

Lemma no_space_sub_ws (b : bool) (s : string) : no_space (sub_ws_from b s) = true.
Proof.
  revert b; induction s as [|c t IH]; intros b; simpl; [reflexivity|].
  destruct (py_isspace c) eqn:Hc.
  - destruct b; simpl; auto.
  - simpl. now rewrite Hc, IH.
Qed.

Lemma no_space_lower (s : string) : no_space (lower s) = no_space s.
Proof.
  induction s as [|c t IH]; simpl; [reflexivity|].
  now rewrite lower_char_space, IH.
Qed.

Lemma lstrip_no_space (s : string) : no_space s = true -> lstrip s = s.
Proof.
  destruct s as [|c t]; simpl; [reflexivity|].
  intros H. apply andb_true_iff in H as [Hc _].
  apply negb_true_iff in Hc. now rewrite Hc.
Qed.

Lemma rstrip_no_space (s : string) : no_space s = true -> rstrip s = s.
Proof.
  induction s as [|c t IH]; simpl; [reflexivity|].
  intros H. apply andb_true_iff in H as [Hc Ht].
  apply negb_true_iff in Hc. rewrite (IH Ht), Hc.
  now destruct t.
Qed.

Lemma strip_no_space (s : string) : no_space s = true -> strip s = s.
Proof.
  intros H. unfold strip. rewrite (lstrip_no_space s H). now apply rstrip_no_space.
Qed.

Lemma sub_ws_no_space (b : bool) (s : string) :
  no_space s = true -> sub_ws_from b s = s.
Proof.
  revert b; induction s as [|c t IH]; intros b; simpl; [reflexivity|].
  intros H. apply andb_true_iff in H as [Hc Ht].
  apply negb_true_iff in Hc. now rewrite Hc, (IH false Ht).
Qed.

Lemma lower_sub_ws (b : bool) (s : string) :
  lower (sub_ws_from b s) = sub_ws_from b (lower s).
Proof.
  revert b; induction s as [|c t IH]; intros b; simpl; [reflexivity|].
  rewrite lower_char_space.
  destruct (py_isspace c); [destruct b|]; simpl; now rewrite IH.
Qed.

End TextFacts.

Module CleaningText.
Import Text TextFacts Cleaning.

(** A canonical name has no whitespace and no capital letter left, so
    that canonicalising it again gives it back. *)
Lemma canon_no_space (c : string) : no_space (canon c) = true.
Proof. apply no_space_sub_ws. Qed.

Lemma canon_lower (c : string) : lower (canon c) = canon c.
Proof. unfold canon, sub_ws. now rewrite lower_sub_ws, lower_idem. Qed.

Lemma canon_idem (c : string) : canon (canon c) = canon c.
Proof.
  unfold canon at 1.
  rewrite (strip_no_space _ (canon_no_space c)), canon_lower.
  apply sub_ws_no_space, canon_no_space.
Qed.

End CleaningText.

(** ** Facts about masks, columns and tables *)

Module PandasFacts.
Import Text Num Conv Pandas.

Section Masks.
Context {A B : Type}.

Lemma mask_filter_nil_r (m : list bool) : mask_filter m (@nil A) = [].
Proof. now destruct m. Qed.

Lemma mask_filter_map (h : A -> B) (m : list bool) (l : list A) :
  mask_filter m (map h l) = map h (mask_filter m l).
Proof.
  revert l; induction m as [|b m IH]; intros [|a l]; simpl; try reflexivity.
  destruct b; simpl; now rewrite IH.
Qed.

Lemma mask_filter_length (m : list bool) (l : list A) :
  (length (mask_filter m l) <= length l)%nat.
Proof.
  revert l; induction m as [|b m IH]; intros [|a l]; simpl; try lia.
  specialize (IH l). destruct b; simpl; lia.
Qed.

Lemma mask_filter_sublist (m : list bool) (l : list A) :
  sublist (mask_filter m l) l.
Proof.
  revert l; induction m as [|b m IH]; intros [|a l]; simpl;
    try apply sublist_nil_l.
  destruct b; [apply sublist_skip | apply sublist_cons]; apply IH.
Qed.

Lemma mask_filter_Forall (P : A -> Prop) (m : list bool) (l : list A) :
  Forall P l -> Forall P (mask_filter m l).
Proof.
  revert l; induction m as [|b m IH]; intros [|a l] H; simpl; try constructor.
  inversion H; subst. destruct b; [constructor|]; auto.
Qed.

(** Two filters in a row are one filter: the second mask, computed from
    the rows the first one kept, is read back on all rows. *)
Lemma mask_filter_twice (g : B -> bool) (m : list bool) (X : list B) (l : list A) :
  mask_filter (map g (mask_filter m X)) (mask_filter m l)
  = mask_filter (zip_with andb m (map g X)) l.
Proof.
  revert X l; induction m as [|b m IH]; intros X l; simpl; [reflexivity|].
  destruct X as [|x X]; simpl.
  - now destruct l.
  - destruct l as [|a l]; simpl.
    + destruct b; simpl; [reflexivity | apply mask_filter_nil_r].
    + destruct b; simpl; [destruct (g x)|]; now rewrite IH.
Qed.

(** A mask computed from the entries keeps entries that satisfy it. *)
Lemma mask_filter_holds (g : A -> bool) (m : list bool) (l : list A) :
  Forall (fun a => g a = true) (mask_filter (zip_with andb (map g l) m) l).
Proof.
  revert m; induction l as [|a l IH]; intros m; simpl; [constructor|].
  destruct m as [|b m]; simpl; [constructor|].
  destruct (g a) eqn:Ha; simpl; [destruct b; simpl|]; auto.
Qed.

Lemma mask_filter_holds_r (g : A -> bool) (m : list bool) (l : list A) :
  Forall (fun a => g a = true) (mask_filter (zip_with andb m (map g l)) l).
Proof.
  revert m; induction l as [|a l IH]; intros m; simpl.
  - rewrite mask_filter_nil_r. constructor.
  - destruct m as [|b m]; simpl; [constructor|].
    destruct b; simpl; [destruct (g a) eqn:Ha|]; auto.
Qed.

End Masks.

Lemma zip_with_map_same {A B C D} (h : B -> C -> D) (a : A -> B) (b : A -> C)
    (l : list A) :
  zip_with h (map a l) (map b l) = map (fun x => h (a x) (b x)) l.
Proof. induction l as [|x l IH]; simpl; [reflexivity | now rewrite IH]. Qed.

Lemma mask_filter_zip_with {A B C} (h : A -> B -> C) (m : list bool)
    (a : list A) (b : list B) :
  mask_filter m (zip_with h a b) = zip_with h (mask_filter m a) (mask_filter m b).
Proof.
  revert a b; induction m as [|x m IH]; intros a b; simpl.
  - reflexivity.
  - destruct a as [|u a]; simpl; [reflexivity|].
    destruct b as [|v b]; simpl.
    + destruct x; simpl; [reflexivity|]. now destruct (mask_filter m a).
    + destruct x; simpl; now rewrite IH.
Qed.

Lemma mask_filter_repeat {A B} (x : A) (m : list bool) (l : list B) :
  mask_filter m (repeat x (length l)) = repeat x (length (mask_filter m l)).
Proof.
  revert l; induction m as [|b m IH]; intros [|a l]; simpl; try reflexivity.
  destruct b; simpl; now rewrite IH.
Qed.

(** *** Labels and columns *)

Lemma has_column_In (c : string) (f : DataFrame) :
  has_column c f = true <-> In c (names f).
Proof.
  unfold has_column. rewrite existsb_exists. split.
  - intros (x & Hx & E). apply String.eqb_eq in E. now subst.
  - intros H. exists c. split; [exact H | apply String.eqb_refl].
Qed.

Lemma find_columns_absent (c : string) (f : DataFrame) :
  has_column c f = false -> find_columns c f = [].
Proof.
  unfold has_column, find_columns, names. destruct f as [idx cols]; simpl.
  induction cols as [|[n s] cols IH]; simpl; [reflexivity|].
  intros H. apply orb_false_iff in H as [Hn Hc].
  rewrite Hn. now apply IH.
Qed.

Lemma find_columns_present (c : string) (f : DataFrame) :
  has_column c f = true -> find_columns c f <> [].
Proof.
  unfold has_column, find_columns, names. destruct f as [idx cols]; simpl.
  induction cols as [|[n s] cols IH]; simpl; [discriminate|].
  intros H. destruct (String.eqb c n); simpl; [discriminate|]. now apply IH.
Qed.

Lemma unique_find (c : string) (f : DataFrame) :
  unique_labels f = true -> has_column c f = true ->
  exists s, find_columns c f = [s].
Proof.
  intros U H. apply has_column_In in H.
  unfold unique_labels in U. rewrite forallb_forall in U.
  specialize (U c H). apply Nat.eqb_eq in U.
  destruct (find_columns c f) as [|s [|s' l]]; try discriminate. now exists s.
Qed.

Lemma getitem_Ok (c : string) (f : DataFrame) (s : Series) :
  getitem f c = Ok s <-> find_columns c f = [s].
Proof.
  unfold getitem. destruct (find_columns c f) as [|s0 [|s1 l]]; split;
    intros H; try discriminate; congruence.
Qed.

Lemma getitem_absent (c : string) (f : DataFrame) :
  has_column c f = false -> getitem f c = Err KeyError.
Proof. intros H. unfold getitem. now rewrite find_columns_absent. Qed.

Lemma getitem_present (c : string) (f : DataFrame) :
  unique_labels f = true -> has_column c f = true ->
  exists s, getitem f c = Ok s.
Proof.
  intros U H. destruct (unique_find c f U H) as [s Hs].
  exists s. now apply getitem_Ok.
Qed.

Lemma getitem_has_column (c : string) (f : DataFrame) (s : Series) :
  getitem f c = Ok s -> has_column c f = true.
Proof.
  intros H. apply getitem_Ok in H.
  destruct (has_column c f) eqn:E; [reflexivity|].
  rewrite (find_columns_absent c f E) in H. discriminate.
Qed.

(** A [KeyError] is what a label without a column gives, and nothing
    else gives it. *)
Lemma getitem_KeyError (c : string) (f : DataFrame) :
  getitem f c = Err KeyError <-> has_column c f = false.
Proof.
  split; [|apply getitem_absent].
  intros H. destruct (has_column c f) eqn:E; [|reflexivity].
  apply find_columns_present in E. unfold getitem in H.
  destruct (find_columns c f) as [|s0 [|s1 l]]; congruence.
Qed.

Lemma names_set_column (c : string) (s : Series) (f : DataFrame) :
  names (set_column c s f)
  = if has_column c f then names f else (names f ++ [c])%list.
Proof.
  unfold set_column, names; simpl. destruct (has_column c f).
  - rewrite map_map. apply map_ext. intros [n x]; simpl.
    now destruct (String.eqb c n).
  - now rewrite map_app.
Qed.

Lemma index_set_column (c : string) (s : Series) (f : DataFrame) :
  index (set_column c s f) = index f.
Proof. reflexivity. Qed.

Lemma find_columns_set_other (c c' : string) (s : Series) (f : DataFrame) :
  c <> c' -> find_columns c' (set_column c s f) = find_columns c' f.
Proof.
  intros N. unfold find_columns, set_column; simpl.
  assert (E : String.eqb c' c = false).
  { apply String.eqb_neq. congruence. }
  destruct (has_column c f).
  - destruct f as [idx cols]; simpl.
    induction cols as [|[n x] cols IH]; simpl; [reflexivity|].
    destruct (String.eqb c n) eqn:En; simpl.
    + apply String.eqb_eq in En. subst n. rewrite E. exact IH.
    + destruct (String.eqb c' n); simpl; now rewrite IH.
  - rewrite List.filter_app, List.map_app; simpl. rewrite E; simpl. apply app_nil_r.
Qed.

Lemma find_columns_set_same (c : string) (s : Series) (f : DataFrame) :
  find_columns c (set_column c s f)
  = if has_column c f then map (fun _ => s) (find_columns c f) else [s].
Proof.
  destruct (has_column c f) eqn:H.
  - unfold find_columns, set_column. rewrite H; simpl. clear H.
    destruct f as [idx cols]; simpl.
    induction cols as [|[n x] cols IH]; simpl; [reflexivity|].
    destruct (String.eqb c n) eqn:En; simpl; rewrite En; simpl; now rewrite IH.
  - unfold set_column, find_columns in *. simpl. rewrite H.
    rewrite List.filter_app, List.map_app; simpl. rewrite String.eqb_refl; simpl.
    change (map snd (List.filter (fun p => String.eqb c (fst p)) (columns f)))
      with (find_columns c f).
    now rewrite (find_columns_absent c f H).
Qed.

Lemma find_columns_set_length (c c' : string) (s : Series) (f : DataFrame) :
  has_column c f = true ->
  length (find_columns c' (set_column c s f)) = length (find_columns c' f).
Proof.
  intros H. destruct (String.eqb c c') eqn:E.
  - apply String.eqb_eq in E. subst c'.
    rewrite find_columns_set_same, H. apply length_map.
  - apply String.eqb_neq in E. now rewrite find_columns_set_other.
Qed.

Lemma unique_set_column (c : string) (s : Series) (f : DataFrame) :
  unique_labels f = true -> unique_labels (set_column c s f) = true.
Proof.
  intros U. unfold unique_labels. rewrite forallb_forall. intros n Hn.
  apply Nat.eqb_eq. rewrite names_set_column in Hn.
  unfold unique_labels in U. rewrite forallb_forall in U.
  destruct (has_column c f) eqn:H.
  - rewrite find_columns_set_length by exact H.
    apply Nat.eqb_eq. now apply U.
  - destruct (String.eqb c n) eqn:E.
    + apply String.eqb_eq in E. subst n.
      now rewrite find_columns_set_same, H.
    + apply String.eqb_neq in E.
      rewrite find_columns_set_other by exact E.
      apply in_app_or in Hn as [Hn|[Hn|[]]]; [|congruence].
      apply Nat.eqb_eq. now apply U.
Qed.

Lemma getitem_set_same (c : string) (s : Series) (f : DataFrame) :
  unique_labels f = true -> getitem (set_column c s f) c = Ok s.
Proof.
  intros U. apply getitem_Ok. rewrite find_columns_set_same.
  destruct (has_column c f) eqn:H; [|reflexivity].
  destruct (unique_find c f U H) as [x ->]. reflexivity.
Qed.

Lemma getitem_set_other (c c' : string) (s : Series) (f : DataFrame) :
  c <> c' -> getitem (set_column c s f) c' = getitem f c'.
Proof. intros N. unfold getitem. now rewrite find_columns_set_other. Qed.

Lemma has_column_set (c c' : string) (s : Series) (f : DataFrame) :
  has_column c' (set_column c s f) = has_column c' f || String.eqb c' c.
Proof.
  unfold has_column at 1. rewrite names_set_column.
  destruct (has_column c f) eqn:H.
  - fold (has_column c' f). destruct (String.eqb c' c) eqn:E.
    + apply String.eqb_eq in E. subst c'. now rewrite H.
    + now rewrite orb_false_r.
  - rewrite existsb_app; simpl. now rewrite orb_false_r.
Qed.

End PandasFacts.

(** ** The numeric coercion *)

Module CoerceFacts.
Import Text Num Conv Pandas Cleaning Spec.

Lemma str_accessor_texts (ts : list string) :
  str_accessor (SObject (map CStr ts)) = Ok (map CStr ts).
Proof. destruct ts; reflexivity. Qed.

Lemma str_map_texts (h : string -> string) (ts : list string) :
  str_map h (SObject (map CStr ts)) = Ok (SObject (map CStr (map h ts))).
Proof.
  unfold str_map. rewrite str_accessor_texts; simpl.
  now rewrite !map_map.
Qed.

(** The text that reaches the parser. *)
Lemma cleaned_texts (series : Series) (remove_currency : bool) :
  _to_numeric_clean series remove_currency
  = Ok (to_numeric (replace_sentinels
         (SObject (map CStr (map (clean_text remove_currency) (texts series)))))).
Proof.
  unfold _to_numeric_clean, astype_str, str_strip, str_replace_noise.
  rewrite str_map_texts; simpl.
  destruct remove_currency; simpl.
  - rewrite str_map_texts; simpl. now rewrite !map_map.
  - reflexivity.
Qed.

Lemma numbers_SFloat (l : list (option float)) : numbers (SFloat l) = l.
Proof.
  unfold numbers; simpl. rewrite map_map.
  rewrite <- (map_id l) at 2. apply map_ext. now intros [x|].
Qed.

Lemma numbers_SInt (l : list Z) : numbers (SInt l) = map (fun z => Some (of_Z z)) l.
Proof. unfold numbers; simpl. now rewrite map_map. Qed.

Lemma numbers_SUInt (l : list Z) : numbers (SUInt l) = map (fun z => Some (of_Z z)) l.
Proof. unfold numbers; simpl. now rewrite map_map. Qed.

Lemma numbers_integers (l : list cell) (zs : list Z) :
  mapM as_int (map numeric_cell l) = Some zs ->
  map (fun z => Some (of_Z z)) zs
  = map (fun c => option_map parsed_float (numeric_cell c)) l.
Proof.
  intros E. apply mapM_Some in E.
  revert zs E; induction l as [|c l IH]; intros zs E; simpl in *.
  - now inversion E.
  - inversion E as [|o z ps zs' Ho Hr]; subst; simpl.
    f_equal; [|now apply IH].
    destruct (numeric_cell c) as [[z'|x]|]; simpl in *; congruence.
Qed.

Lemma numbers_to_numeric (l : list cell) :
  numbers (to_numeric (SObject l))
  = map (fun c => option_map parsed_float (numeric_cell c)) l.
Proof.
  unfold to_numeric.
  destruct (mapM as_int (map numeric_cell l)) as [zs|] eqn:E.
  - destruct (forallb in_int64 zs);
      [rewrite numbers_SInt; now apply numbers_integers|].
    destruct (forallb in_uint64 zs);
      [rewrite numbers_SUInt; now apply numbers_integers|].
    rewrite numbers_SFloat. now rewrite map_map.
  - rewrite numbers_SFloat. now rewrite map_map.
Qed.

Lemma size_numbers (s : Series) : length (numbers s) = size s.
Proof.
  unfold numbers. rewrite length_map.
  destruct s; simpl; now rewrite ?length_map.
Qed.

Lemma size_texts (s : Series) : length (texts s) = size s.
Proof. destruct s; simpl; now rewrite length_map. Qed.

(** The column that [_to_numeric_clean] returns holds, row by row, the
    coercion of the text of the row. *)
Lemma to_numeric_clean_numbers (series : Series) (remove_currency : bool) :
  exists out,
    _to_numeric_clean series remove_currency = Ok out
    /\ numbers out = map (coerce_text remove_currency) (texts series).
Proof.
  eexists. split; [apply cleaned_texts|].
  unfold replace_sentinels. rewrite map_map, numbers_to_numeric, !map_map.
  apply map_ext. intros t. unfold coerce_text.
  now destruct (is_sentinel (clean_text remove_currency t)).
Qed.

(** An [int64] column that comes out of the coercion holds integers
    of that range. *)
Lemma to_numeric_clean_int64 (series : Series) (remove_currency : bool)
    (zs : list Z) :
  _to_numeric_clean series remove_currency = Ok (SInt zs) ->
  forallb in_int64 zs = true.
Proof.
  rewrite cleaned_texts. intros [= E]. unfold replace_sentinels, to_numeric in E.
  destruct (mapM _ _) as [zs'|]; [|discriminate].
  destruct (forallb in_int64 zs') eqn:R;
    [|destruct (forallb in_uint64 zs'); discriminate].
  now injection E as <-.
Qed.

(** A [uint64] column that comes out of the coercion holds integers of
    that range, and one that is beyond the range of [int64]. *)
Lemma to_numeric_clean_uint64 (series : Series) (remove_currency : bool)
    (zs : list Z) :
  _to_numeric_clean series remove_currency = Ok (SUInt zs) ->
  forallb in_uint64 zs = true /\ forallb in_int64 zs = false.
Proof.
  rewrite cleaned_texts. intros [= E]. unfold replace_sentinels, to_numeric in E.
  destruct (mapM _ _) as [zs'|]; [|discriminate].
  destruct (forallb in_int64 zs') eqn:R; [discriminate|].
  destruct (forallb in_uint64 zs') eqn:R'; [|discriminate].
  injection E as <-. now split.
Qed.

(** The column is numeric: [float64], [int64] or [uint64]. *)
Lemma to_numeric_clean_dtype (series out : Series) (remove_currency : bool) :
  _to_numeric_clean series remove_currency = Ok out -> is_object out = false.
Proof.
  rewrite cleaned_texts. intros [= <-]. unfold replace_sentinels, to_numeric.
  destruct (mapM _ _) as [zs|]; [|reflexivity].
  now destruct (forallb in_int64 zs), (forallb in_uint64 zs).
Qed.

Lemma to_numeric_clean_size (series out : Series) (remove_currency : bool) :
  _to_numeric_clean series remove_currency = Ok out -> size out = size series.
Proof.
  intros H. destruct (to_numeric_clean_numbers series remove_currency)
    as (o & Ho & Hn).
  rewrite H in Ho. injection Ho as <-.
  now rewrite <- size_numbers, Hn, length_map, size_texts.
Qed.

End CoerceFacts.

Module CoerceTheorems.
Import Text Num Conv Pandas Cleaning Spec CoerceFacts.

Lemma lookup_map {A B} (h : A -> B) (l : list A) (i : nat) :
  map h l !! i = option_map h (l !! i).
Proof.
  revert i; induction l as [|a l IH]; intros [|i]; simpl; auto.
Qed.

(** C4.  [_to_numeric_clean] returns for every column and either value
    of the flag: it never raises.  The column it returns is as long as
    the one it was given and holds, at each position, what the text at
    that position gives: no value when the text, trimmed and (with the
    flag) freed of all characters but digits, dots and minus signs, is
    one of the words [""], ["nan"], ["None"], ["N/A"], ["NA"] or does
    not parse, and the parsed number otherwise.  On the texts
    ["N/A"], [""], ["7.50"], ["abc"] with the flag set the result is
    missing, missing, 7.5, missing. *)
Theorem to_numeric_clean_total :
  (forall (series : Series) (remove_currency : bool),
      exists out,
        _to_numeric_clean series remove_currency = Ok out
        /\ size out = size series
        /\ forall (i : nat) (raw : string),
            texts series !! i = Some raw ->
            let t := clean_text remove_currency raw in
            (is_sentinel t = true \/ parse_number t = None ->
             numbers out !! i = Some None)
            /\ (forall p, is_sentinel t = false -> parse_number t = Some p ->
                numbers out !! i = Some (Some (parsed_float p))))
  /\ sentinels = [EmptyString; "nan"; "None"; "N/A"; "NA"]
  /\ _to_numeric_clean (SObject [CStr "N/A"; CStr EmptyString; CStr "7.50"; CStr "abc"]) true
     = Ok (SFloat [None; None; Some (Fin (Dec 75 (-1))); None]).
Proof.
  split; [|split; reflexivity].
  intros series remove_currency.
  destruct (to_numeric_clean_numbers series remove_currency) as (out & Hout & Hn).
  exists out. split; [exact Hout|]. split.
  - eapply to_numeric_clean_size, Hout.
  - intros i raw Hraw t. rewrite Hn, lookup_map, Hraw; simpl.
    unfold coerce_text. fold t. split.
    + intros [Hs|Hp]; [now rewrite Hs|].
      destruct (is_sentinel t); [reflexivity|]. now rewrite Hp.
    + intros p Hs Hp. now rewrite Hs, Hp.
Qed.

End CoerceTheorems.

(** ** Running a stage on the store *)

Module StoreFacts.
Import Pandas.

Lemma lookup_new (st : store) (f : DataFrame) :
  (st ++ [f])%list !! length st = Some f.
Proof. apply list_lookup_middle. reflexivity. Qed.

Lemma insert_new (st : store) (f g : DataFrame) :
  <[length st := g]> (st ++ [f])%list = (st ++ [g])%list.
Proof.
  rewrite <- (Nat.add_0_r (length st)) at 1. now rewrite insert_app_r.
Qed.

Lemma lookup_old (st : store) (f g : DataFrame) (l : loc) :
  st !! l = Some f -> (st ++ [g])%list !! l = Some f.
Proof. apply lookup_app_l_Some. Qed.

(** Statements run on an object the store holds. *)
Lemma on_run {A} (l : loc) (c : F A) (st : store) (f : DataFrame) :
  st !! l = Some f -> on l c st = (fst (c f), <[l := snd (c f)]> st).
Proof. intros H. unfold on. rewrite H. now destruct (c f). Qed.

End StoreFacts.

(** ** Column names and text columns *)

Module NormalizeFacts.
Import Text Num Conv Pandas Cleaning Spec PandasFacts CoerceFacts StoreFacts Parts.

Lemma str_strip_astype (s : Series) :
  str_strip (astype_str s) = Ok (SObject (map CStr (map strip (texts s)))).
Proof. apply str_map_texts. Qed.

Lemma strip_object_texts (s : Series) :
  is_object s = true ->
  SObject (map CStr (map strip (texts s))) = strip_object s.
Proof.
  destruct s as [l| | |]; try discriminate. intros _; simpl.
  now rewrite !map_map.
Qed.

Lemma strip_object_other (s : Series) :
  is_object s = false -> strip_object s = s.
Proof. now destruct s. Qed.

(** One turn of the loop on a label that names one column. *)
Lemma strip_column_run (col : string) (f : DataFrame) (s : Series) :
  getitem f col = Ok s ->
  strip_column col f
  = (Ok tt, if is_object s then set_column col (strip_object s) f else f).
Proof.
  intros H. unfold strip_column, bind, get_column, lift, setitem, ret.
  rewrite H. destruct (is_object s) eqn:E; [|reflexivity].
  rewrite H, str_strip_astype. now rewrite strip_object_texts.
Qed.

Lemma strip_column_err (col : string) (f : DataFrame) (e : exn) :
  getitem f col = Err e -> strip_column col f = (Err e, f).
Proof.
  intros H. unfold strip_column, bind, get_column. now rewrite H.
Qed.

Lemma find_single (c : string) (f : DataFrame) (s : Series) :
  find_columns c f = [s] ->
  forall p, In p (columns f) -> String.eqb c (fst p) = true -> snd p = s.
Proof.
  unfold find_columns. destruct f as [idx cols]; simpl.
  induction cols as [|[n x] cols IH]; simpl; [contradiction|].
  intros H p [<-|Hp] E; simpl in *.
  - rewrite E in H. simpl in H. congruence.
  - destruct (String.eqb c n); simpl in H.
    + injection H as -> H. apply map_eq_nil in H.
      assert (Hin : In p (List.filter (fun q => String.eqb c (fst q)) cols)).
      { apply filter_In. now split. }
      rewrite H in Hin. contradiction.
    + now apply IH.
Qed.

Lemma strip_column_frame (col : string) (f : DataFrame) (s : Series) :
  getitem f col = Ok s ->
  (if is_object s then set_column col (strip_object s) f else f)
  = strip_labelled col f.
Proof.
  intros H. pose proof (getitem_has_column _ _ _ H) as Hc.
  apply getitem_Ok in H. pose proof (find_single _ _ _ H) as Hs.
  unfold strip_labelled, set_column. rewrite Hc.
  destruct f as [idx cols]; simpl in *.
  destruct (is_object s) eqn:E.
  - f_equal. apply map_ext_in. intros p Hp.
    destruct (String.eqb col (fst p)) eqn:Ep; [|reflexivity].
    now rewrite (Hs p Hp Ep).
  - f_equal. rewrite <- (map_id cols) at 1. apply map_ext_in. intros p Hp.
    destruct (String.eqb col (fst p)) eqn:Ep; [|reflexivity].
    rewrite (Hs p Hp Ep), (strip_object_other s E), <- (Hs p Hp Ep).
    now destruct p.
Qed.

Lemma names_strip_labelled (col : string) (f : DataFrame) :
  names (strip_labelled col f) = names f.
Proof.
  unfold names, strip_labelled; simpl. rewrite map_map.
  apply map_ext. intros p. now destruct (String.eqb col (fst p)).
Qed.

Lemma strip_in_cons (c : string) (todo : list string) (f : DataFrame) :
  ~ In c todo ->
  strip_in todo (strip_labelled c f) = strip_in (c :: todo) f.
Proof.
  intros Hc. unfold strip_in, strip_labelled; simpl. f_equal.
  rewrite map_map. apply map_ext. intros [n x]; simpl.
  rewrite (String.eqb_sym n c).
  destruct (String.eqb c n) eqn:E; simpl; [|reflexivity].
  apply String.eqb_eq in E. subst n.
  destruct (existsb (String.eqb c) todo) eqn:X; [|reflexivity].
  exfalso. apply Hc. apply existsb_exists in X as (y & Hy & Ey).
  apply String.eqb_eq in Ey. now subst.
Qed.

Lemma unique_labels_forall (f : DataFrame) :
  unique_labels f = true
  <-> forall c, In c (names f) -> length (find_columns c f) = 1%nat.
Proof.
  unfold unique_labels. rewrite forallb_forall.
  split; intros H c Hc; [apply Nat.eqb_eq | apply Nat.eqb_eq]; now apply H.
Qed.

Lemma count_label (c : string) (f : DataFrame) :
  length (find_columns c f) = length (List.filter (String.eqb c) (names f)).
Proof.
  unfold find_columns, names. rewrite length_map.
  induction (columns f) as [|[n x] cols IH]; simpl; [reflexivity|].
  destruct (String.eqb c n); simpl; now rewrite IH.
Qed.

Lemma single_NoDup (l : list string) :
  (forall c, In c l -> length (List.filter (String.eqb c) l) = 1%nat) ->
  List.NoDup l.
Proof.
  induction l as [|a l IH]; intros H; constructor.
  - intros Ha. specialize (H a (or_introl eq_refl)). simpl in H.
    rewrite String.eqb_refl in H. simpl in H.
    assert (Hin : In a (List.filter (String.eqb a) l)).
    { apply filter_In. split; [exact Ha | apply String.eqb_refl]. }
    destruct (List.filter (String.eqb a) l); [contradiction | discriminate].
  - apply IH. intros c Hc. specialize (H c (or_intror Hc)). simpl in H.
    assert (Hin : In c (List.filter (String.eqb c) l)).
    { apply filter_In. split; [exact Hc | apply String.eqb_refl]. }
    destruct (String.eqb c a); simpl in H; [|exact H].
    destruct (List.filter (String.eqb c) l); [contradiction | discriminate].
Qed.

Lemma NoDup_single (l : list string) :
  List.NoDup l ->
  forall c, In c l -> length (List.filter (String.eqb c) l) = 1%nat.
Proof.
  induction 1 as [|a l Ha Hl IH]; intros c Hc; [contradiction|]. simpl.
  destruct (String.eqb c a) eqn:E.
  - apply String.eqb_eq in E. subst a. simpl. f_equal.
    destruct (List.filter (String.eqb c) l) as [|y r] eqn:Fl; [reflexivity|].
    exfalso. apply Ha.
    assert (Hy : In y (List.filter (String.eqb c) l)) by (rewrite Fl; now left).
    apply filter_In in Hy as [Hy Ey]. apply String.eqb_eq in Ey. now subst.
  - destruct Hc as [->|Hc]; [now rewrite String.eqb_refl in E | now apply IH].
Qed.

Lemma unique_labels_NoDup (f : DataFrame) :
  unique_labels f = true <-> List.NoDup (names f).
Proof.
  rewrite unique_labels_forall. split.
  - intros H. apply single_NoDup. intros c Hc.
    rewrite <- count_label. now apply H.
  - intros H c Hc. rewrite count_label. now apply NoDup_single.
Qed.

Lemma for_each_cons {A} (a : A) (l : list A) (body : A -> F unit) (f : DataFrame) :
  for_each (a :: l) body f
  = match body a f with
    | (Ok _, f') => for_each l body f'
    | (Err e, f') => (Err e, f')
    end.
Proof. reflexivity. Qed.

Lemma strip_in_nil (f : DataFrame) : strip_in [] f = f.
Proof.
  destruct f as [idx cols]. unfold strip_in; simpl. f_equal. apply map_id.
Qed.

(** The loop on a table whose labels are unique: it ends, and every
    column it was asked to visit is stripped. *)
Lemma strip_loop_run (todo : list string) :
  forall f : DataFrame,
    unique_labels f = true ->
    List.NoDup todo ->
    (forall c, In c todo -> In c (names f)) ->
    for_each todo strip_column f = (Ok tt, strip_in todo f).
Proof.
  induction todo as [|c todo IH]; intros f U N Hin.
  - now rewrite strip_in_nil.
  - rewrite for_each_cons.
    assert (Hc : has_column c f = true).
    { apply has_column_In, Hin. now left. }
    destruct (getitem_present c f U Hc) as [s Hs].
    rewrite (strip_column_run c f s Hs).
    assert (U' : unique_labels
                   (if is_object s then set_column c (strip_object s) f else f) = true).
    { destruct (is_object s); [now apply unique_set_column | exact U]. }
    rewrite (strip_column_frame c f s Hs) in *.
    inversion N as [|? ? Hn N']; subst.
    rewrite IH; [now rewrite strip_in_cons | exact U' | exact N' |].
    intros c' Hc'. rewrite names_strip_labelled. apply Hin. now right.
Qed.

(** When the loop ends without an exception, every label it visited
    names one column only. *)
Lemma strip_loop_ok (todo : list string) :
  forall f f' : DataFrame,
    for_each todo strip_column f = (Ok tt, f') ->
    forall c, In c todo -> length (find_columns c f) = 1%nat.
Proof.
  induction todo as [|a todo IH]; intros f f' H c Hc; [contradiction|].
  rewrite for_each_cons in H.
  destruct (getitem f a) as [s|e] eqn:Hs.
  - rewrite (strip_column_run a f s Hs) in H.
    pose proof (getitem_has_column _ _ _ Hs) as Ha.
    destruct Hc as [->|Hc].
    + apply getitem_Ok in Hs. now rewrite Hs.
    + specialize (IH _ _ H c Hc).
      destruct (is_object s); [|exact IH].
      now rewrite find_columns_set_length in IH.
  - rewrite (strip_column_err a f e Hs) in H. discriminate.
Qed.

Lemma names_rename (g : string -> string) (f : DataFrame) :
  names (rename g f) = map g (names f).
Proof. unfold names, rename; simpl. now rewrite !map_map. Qed.

Lemma strip_in_all (f : DataFrame) :
  strip_in (names f) f
  = Frame (index f) (map (fun p => (fst p, strip_object (snd p))) (columns f)).
Proof.
  unfold strip_in. f_equal. apply map_ext_in. intros p Hp.
  assert (E : existsb (String.eqb (fst p)) (names f) = true).
  { apply existsb_exists. exists (fst p). split; [|apply String.eqb_refl].
    unfold names. now apply in_map. }
  now rewrite E.
Qed.

Lemma strip_in_rename (f : DataFrame) :
  strip_in (names (rename canon f)) (rename canon f) = normalized f.
Proof.
  rewrite strip_in_all. unfold normalized, rename; simpl. now rewrite map_map.
Qed.

(** [clean_column_names] on the store: the caller's table stays as it
    is, and the loop runs on a new table. *)
Lemma clean_column_names_run (st : store) (df : loc) (f : DataFrame) :
  st !! df = Some f ->
  clean_column_names df st
  = (match fst (strip_text_columns (rename canon f)) with
     | Ok _ => Ok (length st)
     | Err e => Err e
     end,
     (st ++ [snd (strip_text_columns (rename canon f))])%list).
Proof.
  intros H. unfold clean_column_names, bindM, deref, alloc, retM.
  rewrite H. rewrite (on_run _ _ _ _ (lookup_new st _)), insert_new.
  now destruct (strip_text_columns (rename canon f)) as [[u|e] g].
Qed.

Lemma strip_text_columns_unfold (f : DataFrame) :
  strip_text_columns f = for_each (names f) strip_column f.
Proof. reflexivity. Qed.

(** The stage succeeds exactly when no two labels get the same
    canonical name, and then the new table is the normalized one. *)
Lemma clean_column_names_NoDup (st : store) (df : loc) (f : DataFrame) :
  st !! df = Some f ->
  List.NoDup (map canon (names f)) ->
  clean_column_names df st = (Ok (length st), (st ++ [normalized f])%list).
Proof.
  intros H N. rewrite (clean_column_names_run st df f H).
  rewrite strip_text_columns_unfold, strip_loop_run.
  - simpl. now rewrite strip_in_rename.
  - apply unique_labels_NoDup. now rewrite names_rename.
  - now rewrite names_rename.
  - auto.
Qed.

Lemma clean_column_names_Ok (st st' : store) (df l : loc) (f : DataFrame) :
  st !! df = Some f ->
  clean_column_names df st = (Ok l, st') ->
  List.NoDup (map canon (names f))
  /\ l = length st /\ st' = (st ++ [normalized f])%list.
Proof.
  intros H R. assert (N : List.NoDup (map canon (names f))).
  { rewrite (clean_column_names_run st df f H) in R.
    rewrite strip_text_columns_unfold in R.
    destruct (for_each (names (rename canon f)) strip_column (rename canon f))
      as [[[]|e] g] eqn:L; simpl in R; [|discriminate].
    rewrite <- names_rename. apply unique_labels_NoDup, unique_labels_forall.
    eapply strip_loop_ok, L. }
  split; [exact N|].
  rewrite (clean_column_names_NoDup st df f H N) in R. now inversion R.
Qed.

End NormalizeFacts.

Module NormalizeTheorems.
Import Text Num Conv Pandas Cleaning Spec Parts.
Import TextFacts CleaningText StoreFacts NormalizeFacts.

Lemma Forall2_map_r {A B} (R : A -> B -> Prop) (h : A -> B) (l : list A) :
  (forall a, R a (h a)) -> Forall2 R l (map h l).
Proof. intros H. induction l; simpl; constructor; auto. Qed.

(** C8.  Column names are canonical after one run of
    [clean_column_names]: when the stage returns a table, a second run
    on that table returns too, and the second table has the names of
    the first; on the names themselves, canonicalising twice is
    canonicalising once. *)
Theorem clean_column_names_idempotent
    (st st1 : store) (df l1 : loc) (f : DataFrame) :
  st !! df = Some f ->
  clean_column_names df st = (Ok l1, st1) ->
  exists f1 l2 st2 f2,
    st1 !! l1 = Some f1
    /\ names f1 = map canon (names f)
    /\ clean_column_names l1 st1 = (Ok l2, st2)
    /\ st2 !! l2 = Some f2
    /\ names f2 = names f1
    /\ map canon (map canon (names f)) = map canon (names f).
Proof.
  intros H R.
  destruct (clean_column_names_Ok _ _ _ _ _ H R) as (N & -> & ->).
  assert (I : map canon (map canon (names f)) = map canon (names f)).
  { rewrite map_map. apply map_ext. intros c. apply canon_idem. }
  assert (Hn : names (normalized f) = map canon (names f)).
  { unfold names, normalized; simpl. now rewrite !map_map. }
  pose proof (lookup_new st (normalized f)) as H1.
  assert (N1 : List.NoDup (map canon (names (normalized f)))).
  { now rewrite Hn, I. }
  exists (normalized f), (length (st ++ [normalized f])%list),
    ((st ++ [normalized f]) ++ [normalized (normalized f)])%list,
    (normalized (normalized f)).
  split; [exact H1|]. split; [exact Hn|].
  split; [now apply clean_column_names_NoDup|].
  split; [apply lookup_new|].
  split; [|exact I].
  assert (Hn2 : names (normalized (normalized f))
                = map canon (names (normalized f))).
  { unfold names, normalized; simpl. now rewrite !map_map. }
  now rewrite Hn2, Hn, I.
Qed.

Lemma append_cons (c : ascii) (a b : string) :
  String.append (String c a) b = String c (String.append a b).
Proof. reflexivity. Qed.

Lemma append_nil (b : string) : String.append EmptyString b = b.
Proof. reflexivity. Qed.

Lemma lstrip_split (s : string) :
  exists a,
    s = String.append a (lstrip s)
    /\ all_space a = true
    /\ no_lead (lstrip s) = true.
Proof.
  induction s as [|c t (a & E & A & L)]; simpl.
  - now exists EmptyString.
  - destruct (py_isspace c) eqn:Hc.
    + exists (String c a). rewrite append_cons, <- E. simpl. rewrite Hc, A.
      auto.
    + exists EmptyString. rewrite append_nil. simpl. rewrite Hc. auto.
Qed.

Lemma rstrip_split (s : string) :
  exists b,
    s = String.append (rstrip s) b
    /\ all_space b = true
    /\ no_trail (rstrip s) = true.
Proof.
  induction s as [|c t (b & E & B & T)]; simpl.
  - now exists EmptyString.
  - destruct (rstrip t) as [|d r] eqn:Er.
    + rewrite append_nil in E. subst t. destruct (py_isspace c) eqn:Hc.
      * exists (String c b). rewrite append_nil. simpl. rewrite Hc, B. auto.
      * exists b. rewrite append_cons, append_nil. simpl. rewrite Hc. auto.
    + exists b. rewrite append_cons, <- E. auto.
Qed.

Lemma rstrip_no_lead (s : string) :
  no_lead s = true -> no_lead (rstrip s) = true.
Proof.
  destruct s as [|c t]; simpl; [reflexivity|]. intros Hc.
  destruct (rstrip t); [|exact Hc].
  apply negb_true_iff in Hc. rewrite Hc. simpl. now rewrite Hc.
Qed.

(** [strip] takes the whitespace off the two ends of a text, and
    nothing else. *)
Lemma strip_trimmed (s : string) : trimmed s (strip s).
Proof.
  unfold trimmed, strip.
  destruct (lstrip_split s) as (a & Ea & A & L).
  destruct (rstrip_split (lstrip s)) as (b & Eb & B & T).
  exists a, b. split; [now rewrite <- Eb|].
  split; [exact A|]. split; [exact B|].
  split; [now apply rstrip_no_lead | exact T].
Qed.

(** C7.  When [clean_column_names] returns, the new table has the rows
    of the old one; each column of dtype [object] holds, cell by cell,
    the stripped text form of the old cell, text form first and
    stripping second, while a numeric column is as it was.  Stripping
    takes the whitespace off the two ends of the text and nothing else:
    the old text is the new one between two runs of whitespace, and the
    new one neither begins nor ends with whitespace.  The text form of
    a missing value is ["nan"], which stripping leaves alone. *)
Theorem clean_column_names_strips_text
    (st st' : store) (df l : loc) (f : DataFrame) :
  st !! df = Some f ->
  clean_column_names df st = (Ok l, st') ->
  exists g,
    st' !! l = Some g
    /\ index g = index f
    /\ Forall2 (fun p q =>
                  fst q = canon (fst p)
                  /\ (is_object (snd p) = true ->
                      snd q = SObject (map (fun c => CStr (strip (cell_text c)))
                                           (cells (snd p))))
                  /\ (is_object (snd p) = true ->
                      Forall2 (fun c c' =>
                                 exists u a b,
                                   c' = CStr u
                                   /\ cell_text c
                                      = String.append a (String.append u b)
                                   /\ all_space a = true
                                   /\ all_space b = true
                                   /\ no_lead u = true
                                   /\ no_trail u = true
                                   /\ (c = CMissing -> u = "nan"))
                              (cells (snd p)) (cells (snd q)))
                  /\ (is_object (snd p) = false -> snd q = snd p))
               (columns f) (columns g)
    /\ CStr (strip (cell_text CMissing)) = CStr "nan"
    /\ strip (String.append "  Pen" (String.append (String "009" " ") "x  "))
       = String.append "Pen" (String.append (String "009" " ") "x")
    /\ strip "   " = EmptyString.
Proof.
  intros H R.
  destruct (clean_column_names_Ok _ _ _ _ _ H R) as (N & -> & ->).
  exists (normalized f). split; [apply lookup_new|].
  split; [reflexivity|]. split; [|repeat split; reflexivity].
  unfold normalized; simpl. apply Forall2_map_r.
  intros [n s]; simpl. split; [reflexivity|].
  split; [|split]; intros E; destruct s as [cs| | |]; try discriminate;
    try reflexivity.
  simpl. apply Forall2_map_r. intros c.
  destruct (strip_trimmed (cell_text c)) as (a & b & Es & A & B & L & T).
  exists (strip (cell_text c)), a, b.
  split; [reflexivity|]. split; [exact Es|].
  split; [exact A|]. split; [exact B|]. split; [exact L|].
  split; [exact T|]. now intros ->.
Qed.

End NormalizeTheorems.

(** ** Selecting rows *)

Module SelectFacts.
Import Text Num Conv Pandas Cleaning Spec PandasFacts.

Lemma cells_series_filter (m : list bool) (s : Series) :
  cells (series_filter m s) = mask_filter m (cells s).
Proof. destruct s; simpl; now rewrite ?mask_filter_map. Qed.

Lemma names_select (m : list bool) (f : DataFrame) :
  names (select m f) = names f.
Proof. unfold names, select; simpl. now rewrite map_map. Qed.

Lemma has_column_select (c : string) (m : list bool) (f : DataFrame) :
  has_column c (select m f) = has_column c f.
Proof. unfold has_column. now rewrite names_select. Qed.

Lemma find_columns_select (c : string) (m : list bool) (f : DataFrame) :
  find_columns c (select m f) = map (series_filter m) (find_columns c f).
Proof.
  unfold find_columns, select; simpl.
  induction (columns f) as [|[n x] cols IH]; simpl; [reflexivity|].
  destruct (String.eqb c n); simpl; now rewrite IH.
Qed.

Lemma getitem_select (c : string) (m : list bool) (f : DataFrame) :
  getitem (select m f) c
  = match getitem f c with
    | Ok s => Ok (series_filter m s)
    | Err e => Err e
    end.
Proof.
  unfold getitem. rewrite find_columns_select.
  now destruct (find_columns c f) as [|s [|s' l]].
Qed.

Lemma forallb_pointwise {A} (g h : A -> bool) (l : list A) :
  (forall a, g a = h a) -> forallb g l = forallb h l.
Proof. intros E. induction l as [|a l IH]; simpl; [reflexivity | now rewrite E, IH]. Qed.

Lemma unique_select (m : list bool) (f : DataFrame) :
  unique_labels (select m f) = unique_labels f.
Proof.
  unfold unique_labels. rewrite names_select.
  apply forallb_pointwise. intros c.
  now rewrite find_columns_select, length_map.
Qed.

(** The rows of the selected table are the selected rows. *)
Lemma rows_select (m : list bool) (f : DataFrame) :
  rows (select m f) = mask_filter m (rows f).
Proof.
  unfold rows, nrows, select; simpl. rewrite map_map; simpl.
  induction (columns f) as [|[n x] cols IH]; simpl.
  - now rewrite mask_filter_repeat.
  - now rewrite IH, cells_series_filter, mask_filter_zip_with.
Qed.

Lemma rows_reset_index (f : DataFrame) : rows (reset_index f) = rows f.
Proof. unfold rows, reset_index, nrows; simpl. now rewrite length_seq. Qed.

Lemma series_filter_twice {B} (g : B -> bool) (m : list bool) (X : list B)
    (s : Series) :
  series_filter (map g (mask_filter m X)) (series_filter m s)
  = series_filter (zip_with andb m (map g X)) s.
Proof. destruct s; simpl; now rewrite mask_filter_twice. Qed.

(** Selecting twice is selecting once, with the second mask read on
    all rows. *)
Lemma select_twice {B} (g : B -> bool) (m : list bool) (X : list B)
    (f : DataFrame) :
  select (map g (mask_filter m X)) (select m f)
  = select (zip_with andb m (map g X)) f.
Proof.
  unfold select; simpl. rewrite mask_filter_twice. f_equal.
  rewrite map_map; simpl. apply map_ext. intros [n x]; simpl.
  now rewrite series_filter_twice.
Qed.

Lemma gt_zero_Ok (s : Series) (m : list bool) :
  gt_zero s = Ok m -> m = map positive (cells s).
Proof.
  unfold gt_zero. generalize (cells s) as l. clear s.
  intros l; revert m; induction l as [|c l IH]; intros m H; simpl in *.
  - now injection H as <-.
  - destruct c as [u|x|]; simpl in H; try discriminate;
      destruct (mapR _ l) as [r|e]; simpl in H; try discriminate;
      injection H as <-; now rewrite (IH r eq_refl).
Qed.

(** A column without text can be compared with zero. *)
Lemma gt_zero_numbers (s : Series) :
  existsb is_str (cells s) = false -> gt_zero s = Ok (map positive (cells s)).
Proof.
  unfold gt_zero. generalize (cells s) as l. clear s.
  induction l as [|c l IH]; intros H; simpl in *; [reflexivity|].
  apply orb_false_iff in H as [Hc Hl].
  rewrite (IH Hl). now destruct c.
Qed.

(** Text in a column that is compared with zero is a [TypeError]. *)
Lemma gt_zero_Err (s : Series) (e : exn) :
  gt_zero s = Err e -> e = TypeError.
Proof.
  unfold gt_zero. generalize (cells s) as l. clear s.
  induction l as [|c l IH]; intros H; simpl in *; [discriminate|].
  destruct c as [u|x|]; simpl in H; try congruence;
    destruct (mapR _ l) as [r|e']; simpl in H; try discriminate;
    injection H as <-; now apply IH.
Qed.

Lemma str_accessor_Err (s : Series) (e : exn) :
  str_accessor s = Err e -> e = AttributeError.
Proof.
  destruct s as [l| | |]; simpl; try congruence.
  destruct (existsb is_str l || forallb is_missing l); congruence.
Qed.

Lemma str_strip_cells (s t : Series) :
  str_strip s = Ok t ->
  cells t = map (fun c => match c with
                          | CStr u => CStr (strip u)
                          | _ => CMissing
                          end) (cells s).
Proof.
  unfold str_strip, str_map. destruct s as [l| | |]; simpl; try discriminate.
  destruct (existsb is_str l || forallb is_missing l); simpl; [|discriminate].
  now intros [= <-].
Qed.

Lemma str_strip_Err (s : Series) (e : exn) :
  str_strip s = Err e -> e = AttributeError.
Proof.
  unfold str_strip, str_map. destruct (str_accessor s) eqn:E; simpl.
  - discriminate.
  - intros [= <-]. now apply str_accessor_Err in E.
Qed.

(** The mask of the third filter is the test [named] on the product. *)
Lemma product_mask (a t : Series) :
  str_strip a = Ok t ->
  zip_with andb (map negb (isna a))
    (map (fun c => negb (match c with
                         | CStr u => String.eqb u EmptyString
                         | _ => false
                         end)) (cells t))
  = map named (cells a).
Proof.
  intros H. rewrite (str_strip_cells a t H). unfold isna.
  rewrite !map_map, zip_with_map_same. apply map_ext.
  now intros [u|x|].
Qed.

End SelectFacts.

(** ** The three filters as one *)

Module FilterFacts.
Import Text Num Conv Pandas Cleaning Spec PandasFacts SelectFacts Parts.

Lemma length_cells (s : Series) : length (cells s) = size s.
Proof. destruct s; simpl; now rewrite ?length_map. Qed.

Lemma find_columns_In (c : string) (f : DataFrame) (s : Series) :
  In s (find_columns c f) -> exists n, In (n, s) (columns f).
Proof.
  unfold find_columns. intros H. apply in_map_iff in H as ([n x] & <- & H).
  apply filter_In in H as [H _]. now exists n.
Qed.

(** In a well-formed table every column is as long as the index. *)
Lemma wf_size (c : string) (f : DataFrame) (s : Series) :
  wf f = true -> getitem f c = Ok s -> length (cells s) = nrows f.
Proof.
  intros W H. apply getitem_Ok in H.
  destruct (find_columns_In c f s) as [n Hn]; [rewrite H; now left|].
  unfold wf in W. apply andb_true_iff in W as [_ W].
  rewrite forallb_forall in W. specialize (W _ Hn). simpl in W.
  apply Nat.eqb_eq in W. now rewrite length_cells.
Qed.

Lemma wf_unique (f : DataFrame) : wf f = true -> unique_labels f = true.
Proof. unfold wf. intros W. now apply andb_true_iff in W as [U _]. Qed.

Lemma length_product_cells (f : DataFrame) :
  wf f = true -> length (product_cells f) = nrows f.
Proof.
  intros W. unfold product_cells, column_cells.
  destruct (getitem f "product") as [r|e] eqn:Hr.
  - rewrite length_map. now apply (wf_size "product").
  - apply repeat_length.
Qed.

Lemma zip3_proj {A B C} (P : list A) (Q : list B) (R : list C) :
  length P = length Q -> length Q = length R ->
  map fst (zip P (zip Q R)) = P
  /\ map (fun t => fst (snd t)) (zip P (zip Q R)) = Q
  /\ map (fun t => snd (snd t)) (zip P (zip Q R)) = R.
Proof.
  revert Q R; induction P as [|a P IH]; intros [|b Q] [|c R] H1 H2;
    simpl in *; try discriminate; auto.
  destruct (IH Q R) as (E1 & E2 & E3); [lia | lia |].
  now rewrite E1, E2, E3.
Qed.

Lemma present_positive (t : cell * (cell * option cell)) :
  test_present t && test_positive t = test_positive t.
Proof.
  destruct t as [[u|x|] [[v|y|] r]]; unfold test_present, test_positive;
    simpl; try reflexivity; now rewrite ?andb_false_r.
Qed.

Lemma valid_mask_rows (f : DataFrame) (p q : Series) :
  getitem f "price" = Ok p -> getitem f "quantity" = Ok q ->
  valid_mask f = map test_row (zip (cells p) (zip (cells q) (product_cells f))).
Proof. intros Hp Hq. unfold valid_mask, column_cells. now rewrite Hp, Hq. Qed.

Section ThreeFilters.
Variable f : DataFrame.
Variables p q : Series.
Hypothesis W : wf f = true.
Hypothesis Hp : getitem f "price" = Ok p.
Hypothesis Hq : getitem f "quantity" = Ok q.

Let T := zip (cells p) (zip (cells q) (product_cells f)).
Let m1 := zip_with andb (notna p) (notna q).

Lemma T_proj :
  map fst T = cells p
  /\ map (fun t => fst (snd t)) T = cells q
  /\ map (fun t => snd (snd t)) T = product_cells f.
Proof.
  apply zip3_proj.
  - now rewrite (wf_size _ _ _ W Hp), (wf_size _ _ _ W Hq).
  - now rewrite (wf_size _ _ _ W Hq), (length_product_cells f W).
Qed.

Lemma first_mask : m1 = map test_present T.
Proof.
  destruct T_proj as (E1 & E2 & _). unfold m1, notna.
  rewrite <- E1, <- E2, !map_map. apply zip_with_map_same.
Qed.

Lemma first_price : cells (series_filter m1 p) = map fst (mask_filter m1 T).
Proof.
  destruct T_proj as (E1 & _). now rewrite cells_series_filter, <- E1, mask_filter_map.
Qed.

Lemma first_quantity :
  cells (series_filter m1 q) = map (fun t => fst (snd t)) (mask_filter m1 T).
Proof.
  destruct T_proj as (_ & E2 & _).
  now rewrite cells_series_filter, <- E2, mask_filter_map.
Qed.

(** The first two filters. *)
Lemma second_select (mp mq : list bool) :
  gt_zero (series_filter m1 p) = Ok mp ->
  gt_zero (series_filter m1 q) = Ok mq ->
  zip_with andb mp mq = map test_positive (mask_filter m1 T)
  /\ select (zip_with andb mp mq) (select m1 f) = select (map test_positive T) f.
Proof.
  intros Gp Gq. apply gt_zero_Ok in Gp, Gq.
  rewrite first_price in Gp. rewrite first_quantity in Gq.
  assert (E : zip_with andb mp mq = map test_positive (mask_filter m1 T)).
  { subst mp mq. rewrite !map_map. apply zip_with_map_same. }
  split; [exact E|].
  rewrite E, select_twice, first_mask, zip_with_map_same.
  f_equal. apply map_ext. intros t. apply present_positive.
Qed.

Lemma second_mask_filter {A} (mp mq : list bool) (l : list A) :
  gt_zero (series_filter m1 p) = Ok mp ->
  gt_zero (series_filter m1 q) = Ok mq ->
  mask_filter (zip_with andb mp mq) (mask_filter m1 l)
  = mask_filter (map test_positive T) l.
Proof.
  intros Gp Gq. destruct (second_select mp mq Gp Gq) as [E _].
  rewrite E, mask_filter_twice, first_mask, zip_with_map_same.
  f_equal. apply map_ext. intros t. apply present_positive.
Qed.

End ThreeFilters.

Lemma product_present (f : DataFrame) (r : Series)
    (T : list (cell * (cell * option cell))) :
  getitem f "product" = Ok r ->
  map (fun t => snd (snd t)) T = product_cells f ->
  cells r = map product_of T
  /\ forall t, In t T -> snd (snd t) = Some (product_of t).
Proof.
  intros Hr E. unfold product_cells, column_cells in E. rewrite Hr in E.
  split.
  - assert (E' : map (fun o => match o with Some c => c | None => CMissing end)
                     (map (fun t => snd (snd t)) T)
                 = map (fun o : option cell =>
                          match o with Some c => c | None => CMissing end)
                       (map Some (cells r))) by now rewrite E.
    rewrite !map_map in E'. simpl in E'. rewrite map_id in E'.
    now rewrite <- E'.
  - intros t Ht. apply (in_map (fun t => snd (snd t))) in Ht.
    rewrite E in Ht. apply in_map_iff in Ht as (c & Hc & _).
    unfold product_of. now rewrite <- Hc.
Qed.

Lemma product_absent (f : DataFrame)
    (T : list (cell * (cell * option cell))) :
  has_column "product" f = false ->
  map (fun t => snd (snd t)) T = product_cells f ->
  forall t, In t T -> snd (snd t) = None.
Proof.
  intros Hc E t Ht. unfold product_cells, column_cells in E.
  rewrite (getitem_absent _ _ Hc) in E.
  apply (in_map (fun t => snd (snd t))) in Ht. rewrite E in Ht.
  now apply repeat_spec in Ht.
Qed.

(** [remove_invalid_rows] keeps the rows that [valid_mask] marks, and
    renumbers them. *)
Lemma valid_rows_select (f out : DataFrame) :
  wf f = true ->
  valid_rows f = Ok out ->
  out = reset_index (select (valid_mask f) f).
Proof.
  intros W H. unfold valid_rows in H.
  destruct (getitem f "price") as [p|] eqn:Hp; simpl in H; [|discriminate].
  destruct (getitem f "quantity") as [q|] eqn:Hq; simpl in H; [|discriminate].
  rewrite !getitem_select, Hp, Hq in H. simpl in H.
  destruct (gt_zero (series_filter _ p)) as [mp|] eqn:Gp; simpl in H; [|discriminate].
  destruct (gt_zero (series_filter _ q)) as [mq|] eqn:Gq; simpl in H; [|discriminate].
  destruct (second_select f p q W Hp Hq mp mq Gp Gq) as [_ S2].
  destruct (T_proj f p q W Hp Hq) as (_ & _ & E3).
  rewrite (valid_mask_rows f p q Hp Hq).
  set (T := zip (cells p) (zip (cells q) (product_cells f))) in *.
  rewrite S2 in H. rewrite has_column_select in H.
  destruct (has_column "product" f) eqn:Hc.
  - rewrite getitem_select in H.
    destruct (getitem f "product") as [r|] eqn:Hr; simpl in H; [|discriminate].
    destruct (str_strip (series_filter _ r)) as [t|] eqn:Ht; simpl in H;
      [|discriminate].
    rewrite (product_mask _ _ Ht), cells_series_filter in H.
    destruct (product_present f r T Hr E3) as [Er Hsome].
    rewrite Er, mask_filter_map, map_map in H.
    rewrite (select_twice (fun t => named (product_of t))) in H.
    rewrite zip_with_map_same in H.
    injection H as <-. do 2 f_equal.
    apply map_ext_in. intros t0 Ht0. unfold test_row, row_valid, test_positive.
    now rewrite (Hsome t0 Ht0).
  - simpl in H. injection H as <-. do 2 f_equal.
    apply map_ext_in. intros t0 Ht0. unfold test_row, row_valid, test_positive.
    rewrite (product_absent f T Hc E3 t0 Ht0). now rewrite andb_true_r.
Qed.

End FilterFacts.

Module FilterTheorems.
Import Text Num Conv Pandas Cleaning Spec Parts.
Import PandasFacts StoreFacts SelectFacts FilterFacts.

(** [remove_invalid_rows] on the store: the caller's table is read,
    and the result, when there is one, is a new object. *)
Lemma remove_invalid_rows_run (st : store) (df : loc) (f : DataFrame) :
  st !! df = Some f ->
  remove_invalid_rows df st
  = match valid_rows f with
    | Ok out => (Ok (length st), (st ++ [out])%list)
    | Err e => (Err e, st)
    end.
Proof.
  intros H. unfold remove_invalid_rows, bindM, deref, liftM, alloc.
  rewrite H. now destruct (valid_rows f).
Qed.

Lemma remove_invalid_rows_Ok (st st' : store) (df l : loc) (f : DataFrame) :
  st !! df = Some f -> wf f = true ->
  remove_invalid_rows df st = (Ok l, st') ->
  st' !! l = Some (reset_index (select (valid_mask f) f))
  /\ st' !! df = Some f.
Proof.
  intros H W R. rewrite (remove_invalid_rows_run st df f H) in R.
  destruct (valid_rows f) as [out|e] eqn:V; [|discriminate].
  injection R as <- <-. rewrite (valid_rows_select f out W V).
  split; [apply lookup_new | now apply lookup_old].
Qed.

Lemma mask_filter_self {A} (g : A -> bool) (l : list A) :
  Forall (fun a => g a = true) (mask_filter (map g l) l).
Proof.
  induction l as [|a l IH]; simpl; [constructor|].
  destruct (g a) eqn:E; [constructor|]; auto.
Qed.

Lemma Forall_map_iff {A B} (P : B -> Prop) (h : A -> B) (l : list A) :
  Forall P (map h l) <-> Forall (fun a => P (h a)) l.
Proof.
  induction l as [|a l IH]; simpl; split; intros H; try constructor;
    inversion H; subst; auto; now apply IH.
Qed.

Lemma getitem_reset_index (c : string) (f : DataFrame) :
  getitem (reset_index f) c = getitem f c.
Proof. reflexivity. Qed.

Lemma positive_number (c : cell) :
  positive c = true -> exists x, c = CNum x /\ gt0 x = true.
Proof. destruct c as [u|x|]; simpl; try discriminate. intros H. now exists x. Qed.

(** The cells of a column in the table that is returned. *)
Lemma kept_cells (c : string) (f : DataFrame) (s : Series) :
  getitem f c = Ok s ->
  column_cells c (reset_index (select (valid_mask f) f))
  = Some (mask_filter (valid_mask f) (cells s)).
Proof.
  intros H. unfold column_cells.
  now rewrite getitem_reset_index, getitem_select, H, cells_series_filter.
Qed.

(** C1.  In the table that [remove_invalid_rows] returns every price
    and every quantity is a number greater than zero; the table has at
    most as many rows as the one passed in; its rows are rows of that
    table in their order; and its index is 0, 1, 2, ... without a
    gap. *)
Theorem remove_invalid_rows_positive
    (st st' : store) (df l : loc) (f : DataFrame) :
  st !! df = Some f ->
  wf f = true ->
  remove_invalid_rows df st = (Ok l, st') ->
  exists out P Q,
    st' !! l = Some out
    /\ column_cells "price" out = Some P
    /\ Forall (fun c => exists x, c = CNum x /\ gt0 x = true) P
    /\ column_cells "quantity" out = Some Q
    /\ Forall (fun c => exists x, c = CNum x /\ gt0 x = true) Q
    /\ (nrows out <= nrows f)%nat
    /\ sublist (rows out) (rows f)
    /\ rows out = mask_filter (valid_mask f) (rows f)
    /\ index out = seq 0 (nrows out).
Proof.
  intros H W R.
  destruct (remove_invalid_rows_Ok _ _ _ _ _ H W R) as [Hout _].
  rewrite (remove_invalid_rows_run st df f H) in R.
  destruct (valid_rows f) as [o|e] eqn:V; [|discriminate]. clear R.
  unfold valid_rows in V.
  destruct (getitem f "price") as [p|] eqn:Hp; simpl in V; [|discriminate].
  destruct (getitem f "quantity") as [q|] eqn:Hq; simpl in V; [|discriminate].
  clear V.
  destruct (T_proj f p q W Hp Hq) as (E1 & E2 & _).
  pose proof (valid_mask_rows f p q Hp Hq) as EM.
  set (T := zip (cells p) (zip (cells q) (product_cells f))) in *.
  assert (K : Forall (fun t => test_row t = true) (mask_filter (valid_mask f) T)).
  { rewrite EM. apply mask_filter_self. }
  exists (reset_index (select (valid_mask f) f)),
    (mask_filter (valid_mask f) (cells p)),
    (mask_filter (valid_mask f) (cells q)).
  split; [exact Hout|].
  split; [now apply kept_cells|].
  split.
  { rewrite <- E1, mask_filter_map. apply Forall_map_iff.
    eapply Forall_impl; [exact K|]. intros t Ht. apply positive_number.
    unfold test_row, row_valid in Ht.
    now apply andb_true_iff in Ht as [Ht _]; apply andb_true_iff in Ht as [Ht _]. }
  split; [now apply kept_cells|].
  split.
  { rewrite <- E2, mask_filter_map. apply Forall_map_iff.
    eapply Forall_impl; [exact K|]. intros t Ht. apply positive_number.
    unfold test_row, row_valid in Ht.
    now apply andb_true_iff in Ht as [Ht _]; apply andb_true_iff in Ht as [_ Ht]. }
  split.
  { unfold nrows, reset_index; simpl. rewrite length_seq.
    apply mask_filter_length. }
  rewrite rows_reset_index, rows_select.
  split; [apply mask_filter_sublist|]. split; [reflexivity|].
  unfold nrows at 1, reset_index; simpl. now rewrite length_seq.
Qed.

Lemma named_spec (c : cell) :
  named c = true ->
  c <> CMissing /\ forall u, c = CStr u -> strip u <> EmptyString.
Proof.
  destruct c as [u|x|]; simpl; intros H; try discriminate.
  - split; [discriminate|]. intros u' [= <-] E. rewrite E in H. discriminate.
  - split; [discriminate|]. discriminate.
Qed.

Lemma mask_with_product {A B} (h : A -> B -> option cell -> bool)
    (P : list A) (Q : list B) (R : list cell) :
  map (fun t => h (fst t) (fst (snd t)) (snd (snd t))) (zip P (zip Q (map Some R)))
  = map (fun t => h (fst t) (fst (snd t)) (Some (snd (snd t)))) (zip P (zip Q R)).
Proof.
  revert Q R; induction P as [|a P IH]; intros [|b Q] [|c R]; simpl;
    try reflexivity. now rewrite IH.
Qed.

Lemma mask_without_product {A B} (h : A -> B -> option cell -> bool)
    (P : list A) (Q : list B) (n : nat) :
  (length Q <= n)%nat ->
  map (fun t => h (fst t) (fst (snd t)) (snd (snd t)))
      (zip P (zip Q (repeat None n)))
  = map (fun t => h (fst t) (snd t) None) (zip P Q).
Proof.
  revert Q n; induction P as [|a P IH]; intros [|b Q] [|n] L; simpl in *;
    try reflexivity; try lia.
  rewrite IH by lia. reflexivity.
Qed.

(** C6.  The rows of the table that [remove_invalid_rows] returns are
    the rows that [valid_mask] marks.  With a product column a row is
    marked when its price and its quantity are positive numbers and
    its product is present and, as text, not empty once trimmed, so
    that every product of the returned table is such; without a
    product column a row is marked when its price and its quantity are
    positive numbers, and the product plays no part.  An empty product
    fails the test. *)
Theorem remove_invalid_rows_product
    (st st' : store) (df l : loc) (f : DataFrame) :
  st !! df = Some f ->
  wf f = true ->
  remove_invalid_rows df st = (Ok l, st') ->
  exists out P Q,
    st' !! l = Some out
    /\ column_cells "price" f = Some P
    /\ column_cells "quantity" f = Some Q
    /\ rows out = mask_filter (valid_mask f) (rows f)
    /\ (has_column "product" f = true ->
        exists R R',
          column_cells "product" f = Some R
          /\ valid_mask f
             = map (fun t => positive (fst t) && positive (fst (snd t))
                             && named (snd (snd t)))
                   (zip P (zip Q R))
          /\ column_cells "product" out = Some R'
          /\ Forall (fun c => c <> CMissing
                              /\ forall u, c = CStr u -> strip u <> EmptyString) R')
    /\ (has_column "product" f = false ->
        valid_mask f
        = map (fun t => positive (fst t) && positive (snd t)) (zip P Q))
    /\ named (CStr EmptyString) = false.
Proof.
  intros H W R.
  destruct (remove_invalid_rows_Ok _ _ _ _ _ H W R) as [Hout _].
  rewrite (remove_invalid_rows_run st df f H) in R.
  destruct (valid_rows f) as [o|e] eqn:V; [|discriminate]. clear R.
  unfold valid_rows in V.
  destruct (getitem f "price") as [p|] eqn:Hp; simpl in V; [|discriminate].
  destruct (getitem f "quantity") as [q|] eqn:Hq; simpl in V; [|discriminate].
  clear V.
  destruct (T_proj f p q W Hp Hq) as (E1 & E2 & E3).
  pose proof (valid_mask_rows f p q Hp Hq) as EM.
  exists (reset_index (select (valid_mask f) f)), (cells p), (cells q).
  split; [exact Hout|].
  split; [unfold column_cells; now rewrite Hp|].
  split; [unfold column_cells; now rewrite Hq|].
  split; [now rewrite rows_reset_index, rows_select|].
  split; [|split; [|reflexivity]].
  - intros Hc.
    destruct (getitem_present "product" f (wf_unique f W) Hc) as [r Hr].
    exists (cells r), (mask_filter (valid_mask f) (cells r)).
    split; [unfold column_cells; now rewrite Hr|].
    assert (EP : product_cells f = map Some (cells r)).
    { unfold product_cells, column_cells. now rewrite Hr. }
    split.
    { rewrite EM. unfold test_row, row_valid. rewrite EP.
      apply (mask_with_product
               (fun a b o => positive a && positive b
                             && match o with Some c => named c | None => true end)). }
    split; [now apply kept_cells|].
    destruct (product_present f r _ Hr E3) as [Er Hsome].
    rewrite Er, mask_filter_map. apply Forall_map_iff.
    assert (K : Forall (fun t => test_row t = true -> named (product_of t) = true)
                  (zip (cells p) (zip (cells q) (product_cells f)))).
    { apply Forall_forall. intros t Ht Hv. unfold test_row, row_valid in Hv.
      apply list_elem_of_In in Ht. rewrite (Hsome t Ht) in Hv. now apply andb_true_iff in Hv as [_ Hv]. }
    apply (mask_filter_Forall _ (valid_mask f)) in K.
    assert (K' := mask_filter_self test_row
                    (zip (cells p) (zip (cells q) (product_cells f)))).
    rewrite <- EM in K'.
    eapply Forall_impl; [apply Forall_and; split; [exact K | exact K']|].
    intros t [K1 K2]. simpl in *. apply named_spec. now apply K1.
  - intros Hc. rewrite EM. unfold test_row, row_valid.
    unfold product_cells, column_cells. rewrite (getitem_absent _ _ Hc).
    rewrite (mask_without_product
               (fun a b o => positive a && positive b
                             && match o with Some c => named c | None => true end)).
    + apply map_ext. intros t. now rewrite andb_true_r.
    + now rewrite (wf_size _ _ _ W Hq).
Qed.

Lemma existsb_mask_filter {A} (g : A -> bool) (m : list bool) (l : list A) :
  existsb g l = false -> existsb g (mask_filter m l) = false.
Proof.
  revert l; induction m as [|b m IH]; intros [|a l] H; simpl in *;
    try reflexivity.
  apply orb_false_iff in H as [Ha Hl].
  destruct b; simpl; rewrite ?Ha; now apply IH.
Qed.

Lemma forallb_mask_filter {A} (g : A -> bool) (m : list bool) (l : list A) :
  forallb g l = true -> forallb g (mask_filter m l) = true.
Proof.
  revert l; induction m as [|b m IH]; intros [|a l] H; simpl in *;
    try reflexivity.
  apply andb_true_iff in H as [Ha Hl].
  destruct b; simpl; rewrite ?Ha; now apply IH.
Qed.

Lemma text_only_accessor (l : list cell) :
  forallb (fun c => is_str c || is_missing c) l = true ->
  existsb is_str l || forallb is_missing l = true.
Proof.
  induction l as [|c l IH]; simpl; [reflexivity|].
  intros H. apply andb_true_iff in H as [Hc Hl].
  destruct c as [u|x|]; simpl in *; try discriminate; auto.
Qed.

(** With text only in the product column, [.str.strip()] is there. *)
Lemma str_strip_text_only (m : list bool) (r : Series) :
  text_only r = true -> exists t, str_strip (series_filter m r) = Ok t.
Proof.
  destruct r as [l| | |]; simpl; try discriminate. intros H.
  unfold str_strip, str_map; simpl.
  rewrite (text_only_accessor _ (forallb_mask_filter _ m l H)); simpl. eauto.
Qed.

Lemma gt_zero_no_text (m : list bool) (s : Series) :
  no_text s = true -> exists r, gt_zero (series_filter m s) = Ok r.
Proof.
  unfold no_text. intros H. apply negb_true_iff in H.
  eexists. apply gt_zero_numbers.
  rewrite cells_series_filter. now apply existsb_mask_filter.
Qed.

(** Without one of the two columns the first filter raises. *)
Lemma valid_rows_KeyError (f : DataFrame) :
  wf f = true ->
  has_column "price" f && has_column "quantity" f = false ->
  valid_rows f = Err KeyError.
Proof.
  intros W Hc. unfold valid_rows.
  destruct (has_column "price" f) eqn:Hp; simpl in Hc.
  - destruct (getitem_present "price" f (wf_unique f W) Hp) as [p ->]. simpl.
    now rewrite (getitem_absent _ _ Hc).
  - now rewrite (getitem_absent _ _ Hp).
Qed.

(** With the two columns, what can go wrong is a comparison of text
    with a number, or [.str] on a column that is not text. *)
Lemma valid_rows_Err (f : DataFrame) (e : exn) :
  wf f = true ->
  has_column "price" f && has_column "quantity" f = true ->
  valid_rows f = Err e ->
  e = TypeError \/ e = AttributeError.
Proof.
  intros W Hc V. apply andb_true_iff in Hc as [Hp Hq].
  pose proof (wf_unique f W) as U.
  destruct (getitem_present "price" f U Hp) as [p Ep].
  destruct (getitem_present "quantity" f U Hq) as [q Eq].
  unfold valid_rows in V. rewrite Ep, Eq in V. simpl in V.
  rewrite !getitem_select, Ep, Eq in V. simpl in V.
  destruct (gt_zero (series_filter _ p)) as [mp|e1] eqn:Gp; simpl in V.
  2:{ injection V as <-. left. now apply gt_zero_Err in Gp. }
  destruct (gt_zero (series_filter _ q)) as [mq|e2] eqn:Gq; simpl in V.
  2:{ injection V as <-. left. now apply gt_zero_Err in Gq. }
  rewrite !has_column_select in V.
  destruct (has_column "product" f) eqn:Hr; simpl in V; [|discriminate].
  destruct (getitem_present "product" f U Hr) as [r Er].
  rewrite !getitem_select, Er in V. simpl in V.
  destruct (str_strip _) as [t|e3] eqn:St; simpl in V; [discriminate|].
  injection V as <-. right. now apply str_strip_Err in St.
Qed.

Lemma valid_rows_returns (f : DataFrame) (p q : Series) :
  wf f = true ->
  getitem f "price" = Ok p ->
  getitem f "quantity" = Ok q ->
  no_text p = true ->
  no_text q = true ->
  (forall r, getitem f "product" = Ok r -> text_only r = true) ->
  exists out, valid_rows f = Ok out.
Proof.
  intros W Ep Eq Np Nq Nr. pose proof (wf_unique f W) as U.
  unfold valid_rows. rewrite Ep, Eq. simpl.
  rewrite !getitem_select, Ep, Eq. simpl.
  destruct (gt_zero_no_text (zip_with andb (notna p) (notna q)) p Np) as [mp ->].
  destruct (gt_zero_no_text (zip_with andb (notna p) (notna q)) q Nq) as [mq ->].
  simpl. rewrite !has_column_select.
  destruct (has_column "product" f) eqn:Hr; simpl; [|eauto].
  destruct (getitem_present "product" f U Hr) as [r Er].
  rewrite !getitem_select, Er. simpl.
  destruct (str_strip_text_only (zip_with andb mp mq)
              (series_filter (zip_with andb (notna p) (notna q)) r)) as [t ->].
  - specialize (Nr r Er).
    destruct r as [l| | |]; simpl in *; try discriminate.
    now apply forallb_mask_filter.
  - simpl. eauto.
Qed.

(** C10, as the code has it.  [remove_invalid_rows] needs the columns
    [price] and [quantity]: on a table without one of them it raises
    [KeyError] and leaves the store alone.  On a table with both, no
    lookup fails; it returns a new table when the two columns hold no
    text and the product column, if there is one, holds text and
    missing values only. *)
Theorem remove_invalid_rows_needs_columns
    (st : store) (df : loc) (f : DataFrame) :
  st !! df = Some f ->
  wf f = true ->
  (has_column "price" f && has_column "quantity" f = false ->
   remove_invalid_rows df st = (Err KeyError, st))
  /\ (has_column "price" f && has_column "quantity" f = true ->
      exists p q,
        getitem f "price" = Ok p
        /\ getitem f "quantity" = Ok q
        /\ fst (remove_invalid_rows df st) <> Err KeyError
        /\ (no_text p = true ->
            no_text q = true ->
            (forall r, getitem f "product" = Ok r -> text_only r = true) ->
            exists out,
              remove_invalid_rows df st = (Ok (length st), (st ++ [out])%list))).
Proof.
  intros H W. rewrite (remove_invalid_rows_run st df f H). split.
  - intros Hc. now rewrite (valid_rows_KeyError f W Hc).
  - intros Hc. pose proof Hc as Hc'. apply andb_true_iff in Hc' as [Hp Hq].
    destruct (getitem_present "price" f (wf_unique f W) Hp) as [p Ep].
    destruct (getitem_present "quantity" f (wf_unique f W) Hq) as [q Eq].
    exists p, q. split; [exact Ep|]. split; [exact Eq|]. split.
    + destruct (valid_rows f) as [out|e] eqn:V; simpl; [discriminate|].
      destruct (valid_rows_Err f e W Hc V) as [-> | ->]; discriminate.
    + intros Np Nq Nr.
      destruct (valid_rows_returns f p q W Ep Eq Np Nq Nr) as [out ->].
      now exists out.
Qed.

End FilterTheorems.

(** ** Facts about numbers *)

Module NumFacts.
Import Num Spec Parts.

Lemma strip10_trunc (fuel : nat) :
  forall m e, 0 <= e -> dtrunc (strip10 fuel m e) = m * 10 ^ e.
Proof.
  induction fuel as [|k IH]; intros m e He; simpl.
  - unfold dtrunc; simpl. now destruct (Z.leb_spec 0 e); [|lia].
  - destruct (Z.eqb_spec (m mod 10) 0) as [E|E].
    + rewrite IH by lia. rewrite Z.pow_add_r by lia.
      rewrite (Z.div_mod m 10) at 2 by lia. rewrite E. ring.
    + unfold dtrunc; simpl. now destruct (Z.leb_spec 0 e); [|lia].
Qed.

Lemma dtrunc_dnorm (m e : Z) : 0 <= e -> dtrunc (dnorm m e) = m * 10 ^ e.
Proof.
  intros He. unfold dnorm. destruct (Z.eqb_spec m 0) as [->|N]; [reflexivity|].
  now apply strip10_trunc.
Qed.

Lemma dtrunc_dec_of_Z (z : Z) : dtrunc (dec_of_Z z) = z.
Proof. unfold dec_of_Z. rewrite dtrunc_dnorm by lia. simpl. lia. Qed.

(** A small integer comes back from its float. *)
Lemma ftrunc_of_Z (z : Z) : Z.abs z < 2 ^ 53 -> ftrunc (of_Z z) = Some z.
Proof.
  intros H. unfold of_Z. destruct (Z.ltb_spec (Z.abs z) (2 ^ 53)); [|lia].
  simpl. now rewrite dtrunc_dec_of_Z.
Qed.

Lemma dtrunc_opp (m e : Z) : dtrunc (Dec (- m) e) = - dtrunc (Dec m e).
Proof.
  unfold dtrunc; simpl. destruct (Z.leb_spec 0 e); [ring|].
  now rewrite Z.quot_opp_l by (apply Z.pow_nonzero; lia).
Qed.

(** The cast of a float to an integer drops the fraction. *)
Lemma dtrunc_spec (d : dec) : truncates (Fin d) (dtrunc d).
Proof.
  destruct d as [m e]. unfold truncates, dtrunc; simpl.
  destruct (Z.leb_spec 0 e) as [He|He]; [reflexivity|].
  set (P := 10 ^ (- e)).
  assert (HP : 0 < P) by (apply Z.pow_pos_nonneg; lia).
  assert (Ea : Z.abs (m ÷ P) = Z.abs m / P).
  { rewrite <- Z.quot_abs by lia. rewrite (Z.abs_eq P) by lia.
    apply Z.quot_div_nonneg; lia. }
  rewrite Ea. split.
  - split.
    + rewrite Z.mul_comm. apply Z.mul_div_le. exact HP.
    + rewrite Z.mul_comm. apply Z.mul_succ_div_gt. exact HP.
  - destruct (Z.le_ge_cases 0 m) as [Hm|Hm].
    + apply Z.mul_nonneg_nonneg; [apply Z.quot_pos; lia | exact Hm].
    + apply Z.mul_nonpos_nonpos; [|exact Hm].
      replace m with (- (- m)) by lia. rewrite Z.quot_opp_l by lia.
      pose proof (Z.quot_pos (- m) P). lia.
Qed.

Lemma cast_int64_range (t : Z) : - 2 ^ 63 <= cast_int64 t < 2 ^ 63.
Proof.
  unfold cast_int64, in_int64.
  destruct (Z.leb_spec (- 2 ^ 63) t), (Z.ltb_spec t (2 ^ 63)); simpl; lia.
Qed.

Lemma cast_int64_in (t : Z) : - 2 ^ 63 <= t < 2 ^ 63 -> cast_int64 t = t.
Proof.
  intros H. unfold cast_int64, in_int64.
  destruct (Z.leb_spec (- 2 ^ 63) t), (Z.ltb_spec t (2 ^ 63)); simpl; lia.
Qed.

Lemma cast_int64_out (t : Z) : 2 ^ 63 < Z.abs t -> cast_int64 t = - 2 ^ 63.
Proof.
  intros H. unfold cast_int64, in_int64.
  destruct (Z.leb_spec (- 2 ^ 63) t), (Z.ltb_spec t (2 ^ 63)); simpl; lia.
Qed.

Lemma in_int64_spec (z : Z) : in_int64 z = true <-> - 2 ^ 63 <= z < 2 ^ 63.
Proof.
  unfold in_int64. rewrite andb_true_iff, Z.leb_le, Z.ltb_lt. reflexivity.
Qed.

Lemma round_half_even_bounds (num den : Z) :
  num / den <= round_half_even num den <= num / den + 1.
Proof.
  unfold round_half_even. destruct (2 * (num mod den) ?= den); [|lia..].
  destruct (Z.even (num / den)); lia.
Qed.

Lemma scaled_nonneg (n d e : Z) : 0 <= e -> scaled n d e = (n, d * 2 ^ e).
Proof. intros H. unfold scaled. now destruct (Z.leb_spec 0 e); [|lia]. Qed.

Lemma bexp_large (n : Z) :
  2 ^ 53 <= n -> bexp n 1 = Z.log2 n - 52.
Proof.
  intros Hn. assert (Hp : 0 < n) by lia.
  destruct (Z.log2_spec n Hp) as [Lo Hi].
  assert (HL : 53 <= Z.log2 n) by (apply Z.log2_le_pow2; lia).
  set (L := Z.log2 n) in *.
  assert (E1 : 2 ^ L = 2 ^ 53 * 2 ^ (L - 53))
    by (rewrite <- Z.pow_add_r by lia; f_equal; lia).
  assert (P1 : 0 < 2 ^ (L - 53)) by (apply Z.pow_pos_nonneg; lia).
  unfold bexp. fold L. change (Z.log2 1) with 0.
  replace (L - 0 - 53) with (L - 53) by lia.
  rewrite scaled_nonneg by lia. rewrite Z.mul_1_l.
  assert (Q1 : 2 ^ 53 <= n / 2 ^ (L - 53)).
  { apply Z.div_le_lower_bound; [exact P1|]. rewrite Z.mul_comm. lia. }
  destruct (Z.leb_spec (2 ^ 53) (n / 2 ^ (L - 53))) as [_|]; lia.
Qed.

(** The float of an integer from [2 ^ 53] on, in the range of [int64],
    is an integer in that range too. *)
Lemma round_pos_large (n : Z) :
  2 ^ 53 <= n < 2 ^ 63 ->
  exists x, round_pos n 1 = Some x /\ 2 ^ 53 <= dtrunc x <= 2 ^ 63.
Proof.
  intros Hn. assert (Hp : 0 < n) by lia.
  destruct (Z.log2_spec n Hp) as [Lo Hi].
  assert (HL : 53 <= Z.log2 n < 63).
  { split; [apply Z.log2_le_pow2 | apply Z.log2_lt_pow2]; lia. }
  unfold round_pos. rewrite (bexp_large n) by lia.
  set (L := Z.log2 n) in *.
  assert (E2 : 2 ^ L = 2 ^ 52 * 2 ^ (L - 52))
    by (rewrite <- Z.pow_add_r by lia; f_equal; lia).
  assert (E3 : 2 ^ Z.succ L = 2 ^ 53 * 2 ^ (L - 52))
    by (rewrite <- Z.pow_add_r by lia; f_equal; lia).
  assert (P2 : 0 < 2 ^ (L - 52)) by (apply Z.pow_pos_nonneg; lia).
  rewrite scaled_nonneg by lia. rewrite Z.mul_1_l.
  pose proof (round_half_even_bounds n (2 ^ (L - 52))) as [B1 B2].
  set (m := round_half_even n (2 ^ (L - 52))) in *.
  assert (Q2 : 2 ^ 52 <= n / 2 ^ (L - 52)).
  { apply Z.div_le_lower_bound; [exact P2|]. rewrite Z.mul_comm. lia. }
  assert (Q3 : n / 2 ^ (L - 52) < 2 ^ 53).
  { apply Z.div_lt_upper_bound; [exact P2|]. rewrite Z.mul_comm. lia. }
  destruct (Z.ltb_spec 971 (L - 52)) as [|_]; [lia|].
  destruct (Z.eqb_spec (L - 52) 971) as [|_]; [lia|]. simpl orb.
  eexists. split; [reflexivity|].
  unfold dec_of_bin. destruct (Z.leb_spec 0 (L - 52)) as [_|]; [|lia].
  rewrite dtrunc_dnorm by lia. rewrite Z.pow_0_r, Z.mul_1_r.
  split; [|replace (2 ^ 63) with (2 ^ 53 * 2 ^ 10) by reflexivity].
  - transitivity (2 ^ 52 * 2 ^ (L - 52)); [lia|].
    apply Z.mul_le_mono_nonneg_r; lia.
  - transitivity (2 ^ 53 * 2 ^ (L - 52)).
    + apply Z.mul_le_mono_nonneg_r; lia.
    + apply Z.mul_le_mono_nonneg_l; [lia|].
      apply Z.pow_le_mono_r; lia.
Qed.

(** The float of an integer from [2 ^ 53] on is an integer, and at
    most twice as large. *)
Lemma round_pos_value (n : Z) (x : dec) :
  2 ^ 53 <= n -> round_pos n 1 = Some x -> 0 <= dtrunc x <= 2 * n.
Proof.
  intros Hn. assert (Hp : 0 < n) by lia.
  destruct (Z.log2_spec n Hp) as [Lo Hi].
  assert (HL : 53 <= Z.log2 n) by (apply Z.log2_le_pow2; lia).
  unfold round_pos. rewrite (bexp_large n Hn).
  set (L := Z.log2 n) in *.
  assert (P2 : 0 < 2 ^ (L - 52)) by (apply Z.pow_pos_nonneg; lia).
  assert (Q2 : 2 ^ (L - 52) <= n).
  { transitivity (2 ^ L); [apply Z.pow_le_mono_r; lia | lia]. }
  rewrite scaled_nonneg by lia. rewrite Z.mul_1_l.
  pose proof (round_half_even_bounds n (2 ^ (L - 52))) as [B1 B2].
  set (m := round_half_even n (2 ^ (L - 52))) in *.
  destruct (_ || _); [discriminate|]. intros [= <-].
  unfold dec_of_bin. destruct (Z.leb_spec 0 (L - 52)) as [_|]; [|lia].
  rewrite dtrunc_dnorm by lia. rewrite Z.pow_0_r, Z.mul_1_r.
  assert (Q0 : 0 <= n / 2 ^ (L - 52)) by (apply Z.div_pos; lia).
  assert (Q1 : 2 ^ (L - 52) * (n / 2 ^ (L - 52)) <= n)
    by (apply Z.mul_div_le; lia).
  split; [apply Z.mul_nonneg_nonneg; lia|].
  transitivity ((n / 2 ^ (L - 52) + 1) * 2 ^ (L - 52)).
  - apply Z.mul_le_mono_nonneg_r; lia.
  - rewrite Z.mul_add_distr_r. lia.
Qed.

(** The float of an integer below [2 ^ 1023] is finite. *)
Lemma round_pos_fin (n : Z) :
  2 ^ 53 <= n -> Z.log2 n <= 1022 -> exists x, round_pos n 1 = Some x.
Proof.
  intros Hn HB.
  assert (HL : 53 <= Z.log2 n) by (apply Z.log2_le_pow2; lia).
  unfold round_pos. rewrite (bexp_large n Hn).
  set (L := Z.log2 n) in *.
  rewrite scaled_nonneg by lia. rewrite Z.mul_1_l.
  destruct (Z.ltb_spec 971 (L - 52)) as [|_]; [lia|].
  destruct (Z.eqb_spec (L - 52) 971) as [|_]; [lia|]. simpl orb.
  eexists. reflexivity.
Qed.

Lemma log2_below (n k : Z) : 0 < n -> 0 < k -> n < 2 ^ k -> Z.log2 n <= k - 1.
Proof.
  intros Hn Hk B. apply Z.lt_succ_r. replace (Z.succ (k - 1)) with k by lia.
  apply Z.log2_lt_pow2; assumption.
Qed.

Lemma of_Z_fin (z : Z) : Z.abs z < 2 ^ 1023 -> exists d, of_Z z = Fin d.
Proof.
  intros B. unfold of_Z.
  destruct (Z.ltb_spec (Z.abs z) (2 ^ 53)) as [S|S]; [eauto|].
  unfold round64. destruct (Z.eqb_spec z 0) as [->|N]; [eauto|].
  destruct (Z.ltb_spec 0 z) as [P|P].
  - rewrite Z.abs_eq in B, S by lia.
    pose proof (log2_below z 1023 P eq_refl B) as HL. clear B.
    destruct (round_pos_fin z S) as (x & ->); [lia | eauto].
  - rewrite Z.abs_neq in B, S by lia.
    assert (Q : 0 < - z) by lia.
    pose proof (log2_below (- z) 1023 Q eq_refl B) as HL. clear B.
    destruct (round_pos_fin (- z) S) as (x & ->); [lia | eauto].
Qed.

Lemma pow2_le (a b : Z) : 0 <= a <= b -> 2 ^ a <= 2 ^ b.
Proof. intros H. apply Z.pow_le_mono_r; lia. Qed.

Lemma bexp_upper (n : Z) : bexp n 1 <= Z.max (Z.log2 n - 52) (-1074).
Proof.
  unfold bexp. change (Z.log2 1) with 0.
  destruct (scaled n 1 (Z.log2 n - 0 - 53)) as [num den].
  destruct (2 ^ 53 <=? num / den); lia.
Qed.

(** An integer below [2 ^ 1023] rounds to a finite float. *)
Lemma round64_fin (n : Z) : Z.abs n < 2 ^ 1023 -> exists d, round64 n 1 = Fin d.
Proof.
  assert (R : forall k, 0 < k -> k < 2 ^ 1023 -> exists x, round_pos k 1 = Some x).
  { intros k P B. pose proof (log2_below k 1023 P eq_refl B) as HL. clear B.
    unfold round_pos. pose proof (bexp_upper k) as U.
    set (e := bexp k 1) in *. destruct (scaled k 1 e) as [num den].
    destruct (Z.ltb_spec 971 e) as [|_]; [lia|].
    destruct (Z.eqb_spec e 971) as [|_]; [lia|]. simpl orb. eauto. }
  intros B. unfold round64. destruct (Z.eqb_spec n 0) as [->|N]; [eauto|].
  destruct (Z.ltb_spec 0 n) as [P|P].
  - rewrite Z.abs_eq in B by lia. destruct (R n P B) as (x & ->). eauto.
  - rewrite Z.abs_neq in B by lia.
    assert (Q : 0 < - n) by lia. destruct (R (- n) Q B) as (x & ->). eauto.
Qed.

Lemma in_uint64_spec (z : Z) : in_uint64 z = true <-> 0 <= z < 2 ^ 64.
Proof.
  unfold in_uint64. rewrite andb_true_iff, Z.leb_le, Z.ltb_lt. reflexivity.
Qed.

Lemma of_Z_uint64 (z : Z) : in_uint64 z = true -> exists d, of_Z z = Fin d.
Proof.
  intros H. apply in_uint64_spec in H. apply of_Z_fin.
  apply Z.lt_le_trans with (2 ^ 64); [lia|]. apply pow2_le. lia.
Qed.

Lemma wrap_int64_range (z : Z) : - 2 ^ 63 <= wrap_int64 z < 2 ^ 63.
Proof.
  unfold wrap_int64.
  pose proof (Z.mod_pos_bound (z + 2 ^ 63) (2 ^ 64) eq_refl). lia.
Qed.

Lemma wrap_int64_small (z : Z) : 0 <= z < 2 ^ 63 -> wrap_int64 z = z.
Proof.
  intros H. unfold wrap_int64. rewrite Z.mod_small; lia.
Qed.

Lemma wrap_int64_large (z : Z) :
  2 ^ 63 <= z < 2 ^ 64 -> wrap_int64 z = z - 2 ^ 64.
Proof.
  intros H. unfold wrap_int64.
  replace (z + 2 ^ 63) with (z - 2 ^ 63 + 1 * 2 ^ 64) by lia.
  rewrite Z.mod_add by lia. rewrite Z.mod_small; lia.
Qed.

(** The float of an [int64] is finite, and when the integer is not
    below [2 ^ 53], neither is the float. *)
Lemma of_Z_int64 (z : Z) :
  in_int64 z = true ->
  exists d,
    of_Z z = Fin d
    /\ (Z.abs z < 2 ^ 53 -> dtrunc d = z)
    /\ (2 ^ 53 <= Z.abs z -> 2 ^ 53 <= Z.abs (dtrunc d) <= 2 ^ 63).
Proof.
  unfold in_int64. intros H. apply andb_true_iff in H as [H1 H2].
  apply Z.leb_le in H1. apply Z.ltb_lt in H2. unfold of_Z.
  destruct (Z.ltb_spec (Z.abs z) (2 ^ 53)) as [S|S].
  - eexists. split; [reflexivity|]. split; [|lia].
    intros _. apply dtrunc_dec_of_Z.
  - unfold round64. destruct (Z.eqb_spec z 0) as [->|N]; [simpl in S; lia|].
    destruct (Z.ltb_spec 0 z) as [P|P].
    + destruct (round_pos_large z) as (x & -> & B); [lia|].
      exists x. split; [reflexivity|]. split; lia.
    + destruct (Z.eq_dec z (- 2 ^ 63)) as [->|Nm].
      * eexists. split; [vm_compute; reflexivity|]. split; [intros C; lia|].
        intros _. vm_compute. split; discriminate.
      * destruct (round_pos_large (- z)) as (x & -> & B); [lia|].
        eexists. split; [reflexivity|]. split; [lia|]. intros _.
        destruct x as [m e]. simpl mant. simpl expo. rewrite dtrunc_opp. lia.
Qed.












End NumFacts.

(** ** What the parser can return *)

Module ParseFacts.
Import Text Num Conv Pandas Cleaning Spec NumFacts Parts.

Lemma of_Z_range (z : Z) : - 2 ^ 63 <= z < 2 ^ 64 -> exists d, of_Z z = Fin d.
Proof.
  intros H. apply of_Z_fin.
  apply Z.lt_le_trans with (2 ^ 64); [lia|]. apply pow2_le. lia.
Qed.

Lemma xstrtod_fin (ip fp : list Z) (n : Z) (x : float) :
  xstrtod ip fp n = Some x -> is_fin x.
Proof.
  unfold xstrtod. cbv zeta.
  match goal with
  | |- match ?y with _ => _ end = _ -> _ => destruct y as [d| |]
  end; intros [= <-]. now exists d.
Qed.

Lemma fsigned_fin (neg : bool) (x : float) : is_fin x -> is_fin (fsigned neg x).
Proof. intros [d ->]. destruct neg; simpl; eexists; reflexivity. Qed.

Lemma literal_fin (neg : bool) (ip fp : list Z) (has_dot : bool) (s : string)
    (p : parsed) :
  literal neg ip fp has_dot s = Some p -> is_fin (parsed_float p).
Proof.
  unfold literal. destruct (xstrtod ip fp 0) as [x|] eqn:E; [|discriminate].
  apply xstrtod_fin in E.
  destruct has_dot; [intros [= <-]; now apply fsigned_fin|].
  destruct (has_nul s); [discriminate|].
  destruct (_ && _) eqn:R; intros [= <-]; [|now apply fsigned_fin].
  apply andb_true_iff in R as [R1 R2].
  apply Z.leb_le in R1. apply Z.ltb_lt in R2. simpl.
  apply of_Z_range. lia.
Qed.

(** The decimal grammar gives finite numbers only. *)
Lemma to_double_fin (s : string) (p : parsed) :
  to_double s = Some p -> is_fin (parsed_float p).
Proof.
  unfold to_double.
  repeat match goal with
         | |- context [match ?x with _ => _ end] =>
             lazymatch x with
             | literal _ _ _ _ _ => fail
             | option_map _ _ => fail
             | xstrtod _ _ _ => fail
             | _ => destruct x
             end
         end;
    intros E; try discriminate; try (eapply literal_fin, E);
    (destruct (xstrtod _ _ _) as [x|] eqn:X; [|discriminate];
     injection E as <-; simpl; eapply fsigned_fin, xstrtod_fin, X).
Qed.

Lemma numeric_not_nul (c : ascii) : numeric_char c = true -> Ascii.eqb c "000" = false.
Proof.
  destruct c as [[] [] [] [] [] [] [] []]; vm_compute; intros H;
    try discriminate; reflexivity.
Qed.

(** Text made of digits, dots and minus signs holds no NUL. *)
Lemma c_string_numeric (t : string) :
  all_numeric t = true -> c_string t = t /\ has_nul t = false.
Proof.
  induction t as [|c t IH]; simpl; [auto|]. intros H.
  apply andb_true_iff in H as [Hc Ht]. destruct (IH Ht) as [-> ->].
  now rewrite (numeric_not_nul c Hc).
Qed.

Lemma fl_int_bound (z : Z) : 0 <= z -> 0 <= fl_int z <= 2 * z.
Proof.
  intros Hz. unfold fl_int, of_Z.
  destruct (Z.ltb_spec (Z.abs z) (2 ^ 53)) as [S|S].
  - rewrite dtrunc_dec_of_Z. lia.
  - unfold round64. destruct (Z.eqb_spec z 0) as [->|N]; [simpl in S; lia|].
    destruct (Z.ltb_spec 0 z) as [P|P]; [|lia].
    destruct (round_pos z 1) as [x|] eqn:E; [|lia].
    apply (round_pos_value z x); [lia | exact E].
Qed.

(** The float that gathers the digits stays far below the largest
    float. *)
Lemma gather_bound (ds : list Z) :
  Forall (fun d => 0 <= d <= 9) ds ->
  forall a, 0 <= a ->
    0 <= fold_left (fun number d => fl_int (fl_int (number * 10) + d)) ds a
    /\ fold_left (fun number d => fl_int (fl_int (number * 10) + d)) ds a + 1
       <= (a + 1) * 40 ^ Z.of_nat (length ds).
Proof.
  induction 1 as [|d ds Hd _ IH]; intros a Ha.
  - simpl. lia.
  - cbn [fold_left].
    pose proof (fl_int_bound (a * 10)) as B1.
    pose proof (fl_int_bound (fl_int (a * 10) + d)) as B2.
    destruct (IH (fl_int (fl_int (a * 10) + d))) as [I1 I2]; [lia|].
    split; [exact I1|].
    etransitivity; [exact I2|].
    replace (Z.of_nat (length (d :: ds))) with (Z.succ (Z.of_nat (length ds)))
      by (simpl length; lia).
    rewrite Z.pow_succ_r by lia.
    assert (P : 0 <= 40 ^ Z.of_nat (length ds)) by (apply Z.pow_nonneg; lia).
    assert (Q : fl_int (fl_int (a * 10) + d) + 1 <= 40 * (a + 1)) by lia.
    replace ((a + 1) * (40 * 40 ^ Z.of_nat (length ds)))
      with (40 * (a + 1) * 40 ^ Z.of_nat (length ds)) by ring.
    apply Z.mul_le_mono_nonneg_r; assumption.
Qed.

(** The routine accepts an integer of up to 19 digits. *)
Lemma xstrtod_int (ip : list Z) :
  Forall (fun d => 0 <= d <= 9) ip ->
  (length ip <= 19)%nat ->
  exists x, xstrtod ip [] 0 = Some x.
Proof.
  intros D L. unfold xstrtod. cbv zeta.
  set (ui := take max_digits ip).
  assert (Lu : length ui = Nat.min max_digits (length ip))
    by (unfold ui; apply length_take).
  assert (Du : Forall (fun d => 0 <= d <= 9) ui) by (apply Forall_take; exact D).
  rewrite take_nil, app_nil_r. change (length (@nil Z)) with 0%nat.
  destruct (gather_bound ui Du 0 ltac:(lia)) as [G1 G2].
  fold (gather ui) in G1, G2. set (number := gather ui) in *.
  assert (G3 : number < 2 ^ 100).
  { assert (40 ^ Z.of_nat (length ui) <= 40 ^ 17)
      by (apply Z.pow_le_mono_r; unfold max_digits in Lu; lia).
    lia. }
  assert (F : forall k, 0 < k <= 100 -> exists d, of_Z (number * k) = Fin d).
  { intros k Hk. apply of_Z_fin. rewrite Z.abs_eq by nia.
    apply Z.lt_le_trans with (2 ^ 107); [|apply pow2_le; lia].
    replace (2 ^ 107) with (2 ^ 100 * 128) by reflexivity. nia. }
  assert (K : (length ip - length ui <= 2)%nat)
    by (unfold max_digits in Lu; lia).
  destruct (length ip - length ui)%nat as [|[|[|k]]]; [| | |lia].
  - change (wrap_int32 (Z.of_nat 0 - Z.of_nat 0 + 0)) with 0.
    change (308 <? 0) with false. change (0 <? 0) with false.
    change (0 <? -308) with false. cbv iota.
    change (pow10 (- 0)) with 1.
    destruct (round64_fin number) as (d & ->); [|eauto].
    rewrite Z.abs_eq by lia.
    apply Z.lt_le_trans with (2 ^ 100); [exact G3|]. apply pow2_le. lia.
  - change (wrap_int32 (Z.of_nat 1 - Z.of_nat 0 + 0)) with 1.
    change (308 <? 1) with false. change (0 <? 1) with true. cbv iota.
    change (pow10 1) with 10.
    destruct (F 10) as (d & ->); [lia | eauto].
  - change (wrap_int32 (Z.of_nat 2 - Z.of_nat 0 + 0)) with 2.
    change (308 <? 2) with false. change (0 <? 2) with true. cbv iota.
    change (pow10 2) with 100.
    destruct (F 100) as (d & ->); [lia | eauto].
Qed.

Lemma keep_numeric_all (s : string) : all_numeric (keep_numeric s) = true.
Proof.
  induction s as [|c t IH]; simpl; [reflexivity|].
  destruct (numeric_char c) eqn:E; simpl; [now rewrite E|exact IH].
Qed.

Lemma numeric_not_letter (c : ascii) :
  numeric_char c = true ->
  Ascii.eqb (lower_char c) "i" = false /\ Ascii.eqb (lower_char c) "+" = false.
Proof.
  destruct c as [[] [] [] [] [] [] [] []]; vm_compute; intros H;
    try discriminate; split; reflexivity.
Qed.

Lemma eqb_head (c c0 : ascii) (s w : string) :
  Ascii.eqb c c0 = false -> String.eqb (String c s) (String c0 w) = false.
Proof. intros H. simpl. now rewrite H. Qed.

(** Text made of digits, dots and minus signs is no word for an
    infinity. *)
Lemma inf_word_numeric (t : string) : all_numeric t = true -> inf_word t = None.
Proof.
  destruct t as [|c1 t1]; [reflexivity|]. simpl. intros H.
  apply andb_true_iff in H as [H1 Ht].
  destruct (numeric_not_letter c1 H1) as [Hi Hp].
  unfold inf_word. cbn [lower].
  rewrite (eqb_head _ "i" _ "nf" Hi), (eqb_head _ "+" _ "inf" Hp),
    (eqb_head _ "i" _ "nfinity" Hi), (eqb_head _ "+" _ "infinity" Hp).
  cbn [orb].
  assert (E : forall w, String.eqb (String (lower_char c1) (lower t1))
                                   (String "-" (String "i" w)) = false).
  { intros w. cbn [String.eqb]. destruct (Ascii.eqb (lower_char c1) "-"); [|reflexivity].
    destruct t1 as [|c2 t2]; [reflexivity|]. simpl in Ht.
    apply andb_true_iff in Ht as [H2 _].
    destruct (numeric_not_letter c2 H2) as [Hi2 _].
    cbn [lower String.eqb]. now rewrite Hi2. }
  now rewrite (E "nf"), (E "nfinity").
Qed.

(** A price that was coerced is missing or finite. *)
Lemma coerce_price_fin (raw : string) (x : float) :
  coerce_text true raw = Some x -> is_fin x.
Proof.
  unfold coerce_text, clean_text.
  set (t := keep_numeric (strip raw)).
  destruct (is_sentinel t); [discriminate|].
  unfold parse_number. destruct (to_double t) as [p|] eqn:E; simpl.
  - intros [= <-]. eapply to_double_fin, E.
  - unfold t.
    rewrite (proj1 (c_string_numeric _ (keep_numeric_all (strip raw)))).
    rewrite inf_word_numeric by apply keep_numeric_all. discriminate.
Qed.

End ParseFacts.

(** ** Filling the missing values *)

Module FillFacts.
Import Text Num Conv Pandas Cleaning Spec Parts.
Import PandasFacts StoreFacts CoerceFacts NumFacts ParseFacts.

Lemma fill_missing_blocks (f : DataFrame) :
  fill_missing f
  = (coerce_block "price" true ;;; coerce_block "quantity" false ;;; fill_rest) f.
Proof. reflexivity. Qed.

Lemma coerce_block_run (c : string) (b : bool) (f : DataFrame) :
  unique_labels f = true ->
  coerce_block c b f = (Ok tt, set_column c (coerce_column c b f) f).
Proof.
  intros U. unfold coerce_block, coerce_column, bind, in_columns, get_column,
    lift, setitem, setitem_scalar.
  destruct (has_column c f) eqn:Hc.
  - destruct (getitem_present c f U Hc) as [s ->].
    now destruct (to_numeric_clean_numbers s b) as (out & -> & _).
  - now rewrite (getitem_absent c f Hc).
Qed.

Lemma numbers_missing (n : nat) :
  numbers (SObject (repeat CMissing n)) = repeat None n.
Proof. unfold numbers; simpl. now rewrite map_repeat. Qed.

Lemma numbers_coerce_column (c : string) (b : bool) (f : DataFrame) :
  unique_labels f = true ->
  numbers (coerce_column c b f) = coerced c b f.
Proof.
  intros U. unfold coerce_column, coerced.
  destruct (getitem f c) as [s|e] eqn:E.
  - now destruct (to_numeric_clean_numbers s b) as (out & -> & ->).
  - apply numbers_missing.
Qed.

(** The column is numeric, or it is the column of missing values that
    was created. *)
Lemma coerce_column_shape (c : string) (b : bool) (f : DataFrame) :
  unique_labels f = true ->
  is_object (coerce_column c b f) = false
  \/ coerce_column c b f = SObject (repeat CMissing (nrows f)).
Proof.
  intros U. unfold coerce_column.
  destruct (getitem f c) as [s|e] eqn:E; [|now right].
  destruct (to_numeric_clean_numbers s b) as (out & Ho & _).
  rewrite Ho. left. eapply to_numeric_clean_dtype, Ho.
Qed.

Lemma coerce_column_int64 (c : string) (b : bool) (f : DataFrame) (zs : list Z) :
  coerce_column c b f = SInt zs -> forallb in_int64 zs = true.
Proof.
  unfold coerce_column.
  destruct (getitem f c) as [s|e] eqn:E; [|discriminate].
  destruct (to_numeric_clean_numbers s b) as (out & Ho & _).
  rewrite Ho. intros ->. eapply to_numeric_clean_int64, Ho.
Qed.

Lemma coerce_column_uint64 (c : string) (b : bool) (f : DataFrame) (zs : list Z) :
  coerce_column c b f = SUInt zs -> forallb in_uint64 zs = true.
Proof.
  unfold coerce_column.
  destruct (getitem f c) as [s|e] eqn:E; [|discriminate].
  destruct (to_numeric_clean_numbers s b) as (out & Ho & _).
  rewrite Ho. intros ->. eapply to_numeric_clean_uint64, Ho.
Qed.

Lemma numeric_no_text (s : Series) : is_object s = false -> no_text s = true.
Proof.
  unfold no_text. destruct s as [l|l|l|l]; simpl; try discriminate; intros _.
  - induction l as [|[x|] l IH]; simpl; auto.
  - induction l as [|z l IH]; simpl; auto.
  - induction l as [|z l IH]; simpl; auto.
Qed.

Lemma missing_no_text (n : nat) : no_text (SObject (repeat CMissing n)) = true.
Proof. unfold no_text; simpl. induction n; simpl; auto. Qed.

Lemma coerce_column_no_text (c : string) (b : bool) (f : DataFrame) :
  unique_labels f = true -> no_text (coerce_column c b f) = true.
Proof.
  intros U. destruct (coerce_column_shape c b f U) as [H| ->].
  - now apply numeric_no_text.
  - apply missing_no_text.
Qed.

Lemma coerce_column_set_other (c c' : string) (b : bool) (s : Series)
    (f : DataFrame) :
  c <> c' ->
  coerce_column c' b (set_column c s f) = coerce_column c' b f.
Proof.
  intros N. unfold coerce_column. now rewrite getitem_set_other.
Qed.

Lemma Series_median_no_text (s : Series) :
  no_text s = true -> Series_median s = Ok (median (present (numbers s))).
Proof.
  unfold no_text, Series_median. intros H. apply negb_true_iff in H.
  now rewrite H.
Qed.

(** The statements of [handle_missing_values] on a table with unique
    labels: the two coerced columns are assigned, then the quantity is
    filled and cast, which may raise, then the price is filled. *)
Lemma fill_missing_run (f : DataFrame) :
  unique_labels f = true ->
  let pc := coerce_column "price" true f in
  let qc := coerce_column "quantity" false f in
  let f2 := set_column "quantity" qc (set_column "price" pc f) in
  fill_missing f
  = match astype_int (fillna (of_Z 1) qc) with
    | Err e => (Err e, f2)
    | Ok q' =>
        (Ok tt,
         set_column "price"
           (if existsb id (notna pc)
            then fillna_float (median (present (numbers pc))) pc
            else fillna (Fin (Dec 0 0)) pc)
           (set_column "quantity" q' f2))
    end.
Proof.
  intros U pc qc f2.
  assert (U1 : unique_labels (set_column "price" pc f) = true)
    by now apply unique_set_column.
  assert (U2 : unique_labels f2 = true) by now apply unique_set_column.
  assert (Eq : coerce_column "quantity" false (set_column "price" pc f) = qc).
  { apply coerce_column_set_other. discriminate. }
  rewrite fill_missing_blocks. unfold bind at 1.
  rewrite (coerce_block_run "price" true f U). fold pc.
  unfold bind at 1. rewrite (coerce_block_run "quantity" false _ U1), Eq.
  fold f2. unfold fill_rest, bind, get_column, lift, setitem.
  assert (Eqq : getitem f2 "quantity" = Ok qc) by now apply getitem_set_same.
  rewrite Eqq.
  destruct (astype_int (fillna (of_Z 1) qc)) as [q'|e]; [|reflexivity].
  assert (Ep : getitem (set_column "quantity" q' f2) "price" = Ok pc).
  { unfold f2. rewrite !getitem_set_other by discriminate.
    now apply getitem_set_same. }
  rewrite Ep. destruct (existsb id (notna pc)); rewrite ?Ep; [|reflexivity].
  now rewrite (Series_median_no_text pc (coerce_column_no_text _ _ f U)).
Qed.

(** [handle_missing_values] on the store: the statements run on the
    caller's table, and the reference that comes back is the caller's
    own. *)
Lemma handle_missing_values_run (st : store) (df : loc) (f : DataFrame) :
  st !! df = Some f ->
  handle_missing_values df st
  = (match fst (fill_missing f) with
     | Ok _ => Ok df
     | Err e => Err e
     end,
     <[df := snd (fill_missing f)]> st).
Proof.
  intros H. unfold handle_missing_values, bindM, retM.
  rewrite (on_run df fill_missing st f H).
  now destruct (fill_missing f) as [[u|e] g].
Qed.

End FillFacts.

Module FillTheorems.
Import Text Num Conv Pandas Cleaning Spec Parts MoreParts.
Import PandasFacts StoreFacts CoerceFacts NumFacts ParseFacts FilterFacts FillFacts.

Lemma numbers_fillna (v : float) (s : Series) :
  no_text s = true ->
  numbers (fillna v s) = map (fun o => Some (default v o)) (numbers s).
Proof.
  unfold no_text, numbers. intros H. apply negb_true_iff in H.
  destruct s as [l|l|l|l]; simpl in *; rewrite !map_map.
  - induction l as [|c l IH]; simpl in *; [reflexivity|].
    apply orb_false_iff in H as [Hc Hl]. rewrite (IH Hl).
    now destruct c.
  - apply map_ext. now intros [x|].
  - reflexivity.
  - reflexivity.
Qed.

Lemma notna_present (s : Series) :
  no_text s = true ->
  (existsb id (notna s) = true -> present (numbers s) <> [])
  /\ (existsb id (notna s) = false -> present (numbers s) = []).
Proof.
  unfold no_text, notna, numbers, present. intros H. apply negb_true_iff in H.
  induction (cells s) as [|c l IH]; simpl in *.
  - split; [discriminate | reflexivity].
  - apply orb_false_iff in H as [Hc Hl]. destruct (IH Hl) as [I1 I2].
    destruct c as [u|x|]; simpl in *; try discriminate.
    + split; [discriminate | discriminate].
    + split; auto.
Qed.

Lemma fill_all_missing (v : float) (l : list (option float)) :
  present l = [] ->
  map (fun o => Some (default v o)) l = map (fun _ => Some v) l.
Proof.
  unfold present. induction l as [|[x|] l IH]; simpl; intros H;
    try discriminate; [reflexivity|]. now rewrite IH.
Qed.


Lemma lookup_updated (st : store) (df : loc) (f g : DataFrame) :
  st !! df = Some f -> <[df := g]> st !! df = Some g.
Proof. intros H. apply list_lookup_insert_eq. eapply lookup_lt_Some, H. Qed.



Lemma mapR_repeat_one (n : nat) :
  mapR int_of_cell (repeat (CNum (of_Z 1)) n) = Ok (repeat 1 n).
Proof. induction n as [|n IH]; simpl; [reflexivity | now rewrite IH]. Qed.

(** Filling with [1] and casting gives an integer column, with [1]
    where the value was missing. *)
Lemma astype_fill (qc q' : Series) (n : nat) :
  is_object qc = false \/ qc = SObject (repeat CMissing n) ->
  astype_int (fillna (of_Z 1) qc) = Ok q' ->
  exists zs,
    q' = SInt zs
    /\ Forall2 (fun o z => o = None -> z = 1) (numbers qc) zs.
Proof.
  intros [Hq | ->] A.
  - destruct qc as [l|l|l|l]; try discriminate; simpl in A.
    + destruct (mapM _ _) as [zs|] eqn:E; [|discriminate].
      injection A as <-. eexists. split; [reflexivity|].
      rewrite numbers_SFloat. apply mapM_Some in E.
      revert zs E. induction l as [|o l IH]; intros zs E; simpl in E;
        inversion E as [|? z ? zs' Hz Hr]; subst; simpl; constructor; auto.
      intros ->. vm_compute in Hz. now injection Hz as <-.
    + injection A as <-. exists l. split; [reflexivity|].
      rewrite numbers_SInt. induction l as [|z l IH]; simpl; constructor; auto.
      discriminate.
    + injection A as <-. eexists. split; [reflexivity|].
      rewrite numbers_SUInt. induction l as [|z l IH]; simpl; constructor; auto.
      discriminate.
  - simpl in A. rewrite map_repeat in A. simpl in A.
    rewrite mapR_repeat_one in A. simpl in A. injection A as <-.
    exists (repeat 1 n). split; [reflexivity|].
    rewrite numbers_missing. induction n; simpl; constructor; auto.
Qed.

Lemma quantity_for_float (x : float) (t : Z) :
  ftrunc x = Some t -> quantity_for (Some x) (cast_int64 t).
Proof.
  destruct x as [d| |]; try discriminate. intros [= <-].
  exists (dtrunc d). split; [apply dtrunc_spec|]. split.
  - apply cast_int64_in.
  - intros B. unfold cast_int64.
    destruct (in_int64 (dtrunc d)) eqn:R; [|reflexivity].
    now apply in_int64_spec in R.
Qed.

Lemma Forall_in_int64 (l : list Z) :
  forallb in_int64 l = true -> Forall (fun z => - 2 ^ 63 <= z < 2 ^ 63) l.
Proof.
  intros R. apply Forall_forall. intros z Hz. apply in_int64_spec.
  rewrite forallb_forall in R. apply R. now apply list_elem_of_In.
Qed.

Lemma in_int64_Forall (l : list Z) :
  Forall (fun z => - 2 ^ 63 <= z < 2 ^ 63) l -> forallb in_int64 l = true.
Proof.
  induction 1 as [|z l Hz _ IH]; simpl; [reflexivity|].
  rewrite IH, andb_true_r. now apply in_int64_spec.
Qed.

(** Filling with [1] and casting, value by value. *)
Lemma astype_fill_trunc (qc q' : Series) (n : nat) :
  is_object qc = false \/ qc = SObject (repeat CMissing n) ->
  (forall l, qc = SInt l -> forallb in_int64 l = true) ->
  (forall l, qc = SUInt l -> forallb in_uint64 l = true) ->
  astype_int (fillna (of_Z 1) qc) = Ok q' ->
  exists zs,
    q' = SInt zs
    /\ Forall (fun z => - 2 ^ 63 <= z < 2 ^ 63) zs
    /\ quantities qc zs.
Proof.
  intros [Hq | ->] R R' A.
  - destruct qc as [l|l|l|l]; try discriminate; simpl in A.
    + destruct (mapM _ _) as [zs|] eqn:E; [|discriminate].
      injection A as <-. eexists. split; [reflexivity|].
      split.
      { apply Forall_forall. intros z Hz. apply list_elem_of_In in Hz.
        apply in_map_iff in Hz as (t & <- & _). apply cast_int64_range. }
      apply mapM_Some in E. clear R R' Hq. simpl.
      revert zs E. induction l as [|o l IH]; intros zs E; simpl in E;
        inversion E as [|? z ? zs' Hz Hr]; subst; simpl; constructor; auto.
      destruct o as [x|]; [now apply quantity_for_float|].
      vm_compute in Hz. injection Hz as <-. reflexivity.
    + injection A as <-. exists l. split; [reflexivity|].
      split; [|reflexivity]. apply Forall_in_int64. now apply R.
    + injection A as <-. eexists. split; [reflexivity|].
      split.
      { apply Forall_forall. intros z Hz. apply list_elem_of_In in Hz.
        apply in_map_iff in Hz as (t & <- & _). apply wrap_int64_range. }
      specialize (R' l eq_refl). clear R Hq. simpl.
      induction l as [|v l IH]; simpl in *; constructor.
      * apply andb_true_iff in R' as [Rv _]. apply in_uint64_spec in Rv.
        split; intros B.
        -- apply wrap_int64_small. lia.
        -- apply wrap_int64_large. lia.
      * apply andb_true_iff in R' as [_ Rl]. now apply IH.
  - simpl in A. rewrite map_repeat in A. simpl in A.
    rewrite mapR_repeat_one in A. simpl in A. injection A as <-.
    exists (repeat 1 n). split; [reflexivity|]. clear.
    split; simpl; induction n; simpl; constructor; auto.
    vm_compute. split; [discriminate | reflexivity].
Qed.

Lemma infinite_spec (o : option float) :
  infinite o = false <-> o <> Some PInf /\ o <> Some NInf.
Proof.
  destruct o as [[d| |]|]; simpl; split; try congruence;
    try (intros [H1 H2]; congruence); intros _; split; congruence.
Qed.

Lemma infinite_of_Z (l : list Z) :
  Forall (fun z => is_fin (of_Z z)) l ->
  ~ Exists (fun o => infinite o = true) (map (fun z => Some (of_Z z)) l).
Proof.
  induction 1 as [|z l [d Ed] _ IH]; simpl; intros E; inversion E; subst.
  - rewrite Ed in *. discriminate.
  - now apply IH.
Qed.

Lemma is_fin_int64 (l : list Z) :
  forallb in_int64 l = true -> Forall (fun z => is_fin (of_Z z)) l.
Proof.
  intros R. apply Forall_forall. intros z Hz. apply list_elem_of_In in Hz.
  rewrite forallb_forall in R.
  destruct (of_Z_int64 z (R z Hz)) as (d & Ed & _). now exists d.
Qed.

Lemma is_fin_uint64 (l : list Z) :
  forallb in_uint64 l = true -> Forall (fun z => is_fin (of_Z z)) l.
Proof.
  intros R. apply Forall_forall. intros z Hz. apply list_elem_of_In in Hz.
  rewrite forallb_forall in R. exact (of_Z_uint64 z (R z Hz)).
Qed.

Lemma infinite_missing (n : nat) :
  ~ Exists (fun o : option float => infinite o = true) (repeat None n).
Proof.
  induction n as [|n IH]; simpl; intros E; inversion E; subst; auto.
  discriminate.
Qed.

(** A float column with an infinity is refused by the cast, also after
    its missing values were filled. *)
Lemma astype_fill_infinite (qc : Series) (n : nat) :
  is_object qc = false \/ qc = SObject (repeat CMissing n) ->
  (forall l, qc = SInt l -> forallb in_int64 l = true) ->
  (forall l, qc = SUInt l -> forallb in_uint64 l = true) ->
  Exists (fun o => infinite o = true) (numbers qc) ->
  astype_int (fillna (of_Z 1) qc) = Err ValueError.
Proof.
  intros [Hq | ->] R R' Ex.
  - destruct qc as [l|l|l|l]; try discriminate; simpl.
    + rewrite numbers_SFloat in Ex. clear Hq R R'.
      assert (E : mapM (fun o => o ≫= ftrunc)
                    (map (fun o => Some (default (of_Z 1) o)) l) = None).
      { induction Ex as [o l Ho | o l _ IH]; simpl.
        - destruct o as [[d| |]|]; try discriminate; reflexivity.
        - rewrite IH. now destruct (ftrunc (default (of_Z 1) o)). }
      now rewrite E.
    + rewrite numbers_SInt in Ex.
      now apply infinite_of_Z in Ex; [|apply is_fin_int64, R].
    + rewrite numbers_SUInt in Ex.
      now apply infinite_of_Z in Ex; [|apply is_fin_uint64, R'].
  - rewrite numbers_missing in Ex. now apply infinite_missing in Ex.
Qed.

Lemma Forall_not_infinite (l : list (option float)) :
  Forall (fun o => infinite o = false) l ->
  Forall (fun o => o <> Some PInf /\ o <> Some NInf) l.
Proof.
  intros H. eapply Forall_impl; [exact H|]. intros o. apply infinite_spec.
Qed.

Lemma astype_fill_finite (qc : Series) (n : nat) :
  is_object qc = false \/ qc = SObject (repeat CMissing n) ->
  Forall (fun o => o <> Some PInf /\ o <> Some NInf) (numbers qc) ->
  exists q', astype_int (fillna (of_Z 1) qc) = Ok q'.
Proof.
  intros [Hq | ->] Fi.
  - destruct qc as [l|l|l|l]; try discriminate; simpl; [|eauto..].
    rewrite numbers_SFloat in Fi. clear Hq.
    assert (E : exists zs, mapM (fun o => o ≫= ftrunc)
                             (map (fun o => Some (default (of_Z 1) o)) l) = Some zs).
    { induction l as [|o l IH]; simpl; [eauto|].
      inversion Fi as [|? ? [H1 H2] Fl]; subst.
      destruct (IH Fl) as [zs Hz]. rewrite Hz.
      destruct o as [[d| |]|]; simpl; try congruence; eauto. }
    destruct E as [zs ->]. eauto.
  - simpl. rewrite map_repeat. simpl. rewrite mapR_repeat_one. simpl. eauto.
Qed.






End FillTheorems.

(** ** The stages on the tables of the scenario *)

Module ScenarioTheorems.
Import Text Num Conv Pandas Cleaning Spec Scenario.

(** C5.  The whole sequence on the three sales of the scenario: the
    caller's table stays as it was, the table with canonical names is
    coerced and filled in place (the missing quantity becomes [1]), and
    the result is a third table with the rows of [Good] (price 10.0,
    quantity 2) and [NoQty] (price 12.0, quantity 1); the row of
    [BadPrice], whose price is -5.0, is gone. *)
Theorem pipeline_scenario :
  pipeline 0%nat [sales]
  = (Ok 2%nat,
     [sales;
      Frame [0; 1; 2]%nat
        [("product", SObject [CStr "Good"; CStr "BadPrice"; CStr "NoQty"]);
         ("price", SFloat [Some (of_Z 10); Some (of_Z (-5)); Some (of_Z 12)]);
         ("quantity", SInt [2; 1; 1])];
      Frame [0; 1]%nat
        [("product", SObject [CStr "Good"; CStr "NoQty"]);
         ("price", SFloat [Some (of_Z 10); Some (of_Z 12)]);
         ("quantity", SInt [2; 1])]])
  /\ texts (SFloat [Some (of_Z 10); Some (of_Z 12)]) = ["10.0"; "12.0"]
  /\ gt0 (of_Z (-5)) = false.
Proof. repeat split; vm_compute; reflexivity. Qed.

End ScenarioTheorems.

(** ** The theorems at work on the tables of the scenario *)

Module Instances.
Import Text Num Conv Pandas Cleaning Spec Parts MoreParts Scenario.
Import NormalizeTheorems FilterTheorems FillTheorems.

Lemma remove_invalid_rows_positive_witness :
  let st := [filled] in
  let df := 0%nat in
  let f := filled in
  let l := 1%nat in
  let st' := snd (remove_invalid_rows 0%nat [filled]) in
  (st !! df = Some f)
  /\ (wf f = true)
  /\ (remove_invalid_rows df st = (Ok l, st'))
  /\ (
  exists out P Q,
    st' !! l = Some out
    /\ column_cells "price" out = Some P
    /\ Forall (fun c => exists x, c = CNum x /\ gt0 x = true) P
    /\ column_cells "quantity" out = Some Q
    /\ Forall (fun c => exists x, c = CNum x /\ gt0 x = true) Q
    /\ (nrows out <= nrows f)%nat
    /\ sublist (rows out) (rows f)
    /\ rows out = mask_filter (valid_mask f) (rows f)
    /\ index out = seq 0 (nrows out)
  ).
Proof.
  cbv zeta. split; [reflexivity|]. split; [reflexivity|]. split; [reflexivity|].
  exact (remove_invalid_rows_positive [filled] (snd (remove_invalid_rows 0%nat [filled])) 0%nat 1%nat filled eq_refl eq_refl eq_refl).
Defined.

Lemma remove_invalid_rows_product_witness :
  let st := [filled] in
  let df := 0%nat in
  let f := filled in
  let l := 1%nat in
  let st' := snd (remove_invalid_rows 0%nat [filled]) in
  (st !! df = Some f)
  /\ (wf f = true)
  /\ (remove_invalid_rows df st = (Ok l, st'))
  /\ (
  exists out P Q,
    st' !! l = Some out
    /\ column_cells "price" f = Some P
    /\ column_cells "quantity" f = Some Q
    /\ rows out = mask_filter (valid_mask f) (rows f)
    /\ (has_column "product" f = true ->
        exists R R',
          column_cells "product" f = Some R
          /\ valid_mask f
             = map (fun t => positive (fst t) && positive (fst (snd t))
                             && named (snd (snd t)))
                   (zip P (zip Q R))
          /\ column_cells "product" out = Some R'
          /\ Forall (fun c => c <> CMissing
                              /\ forall u, c = CStr u -> strip u <> EmptyString) R')
    /\ (has_column "product" f = false ->
        valid_mask f
        = map (fun t => positive (fst t) && positive (snd t)) (zip P Q))
    /\ named (CStr EmptyString) = false
  ).
Proof.
  cbv zeta. split; [reflexivity|]. split; [reflexivity|]. split; [reflexivity|].
  exact (remove_invalid_rows_product [filled] (snd (remove_invalid_rows 0%nat [filled])) 0%nat 1%nat filled eq_refl eq_refl eq_refl).
Defined.

Lemma remove_invalid_rows_needs_columns_witness :
  let st := [filled] in
  let df := 0%nat in
  let f := filled in
  (st !! df = Some f)
  /\ (wf f = true)
  /\ (
  (has_column "price" f && has_column "quantity" f = false ->
   remove_invalid_rows df st = (Err KeyError, st))
  /\ (has_column "price" f && has_column "quantity" f = true ->
      exists p q,
        getitem f "price" = Ok p
        /\ getitem f "quantity" = Ok q
        /\ fst (remove_invalid_rows df st) <> Err KeyError
        /\ (no_text p = true ->
            no_text q = true ->
            (forall r, getitem f "product" = Ok r -> text_only r = true) ->
            exists out,
              remove_invalid_rows df st = (Ok (length st), (st ++ [out])%list)))
  ).
Proof.
  cbv zeta. split; [reflexivity|]. split; [reflexivity|].
  exact (remove_invalid_rows_needs_columns [filled] 0%nat filled eq_refl eq_refl).
Defined.




Lemma clean_column_names_strips_text_witness :
  let st := [sales] in
  let df := 0%nat in
  let f := sales in
  let l := 1%nat in
  let st' := snd (clean_column_names 0%nat [sales]) in
  (st !! df = Some f)
  /\ (clean_column_names df st = (Ok l, st'))
  /\ (
  exists g,
    st' !! l = Some g
    /\ index g = index f
    /\ Forall2 (fun p q =>
                  fst q = canon (fst p)
                  /\ (is_object (snd p) = true ->
                      snd q = SObject (map (fun c => CStr (strip (cell_text c)))
                                           (cells (snd p))))
                  /\ (is_object (snd p) = true ->
                      Forall2 (fun c c' =>
                                 exists u a b,
                                   c' = CStr u
                                   /\ cell_text c
                                      = String.append a (String.append u b)
                                   /\ all_space a = true
                                   /\ all_space b = true
                                   /\ no_lead u = true
                                   /\ no_trail u = true
                                   /\ (c = CMissing -> u = "nan"))
                              (cells (snd p)) (cells (snd q)))
                  /\ (is_object (snd p) = false -> snd q = snd p))
               (columns f) (columns g)
    /\ CStr (strip (cell_text CMissing)) = CStr "nan"
    /\ strip (String.append "  Pen" (String.append (String "009" " ") "x  "))
       = String.append "Pen" (String.append (String "009" " ") "x")
    /\ strip "   " = EmptyString
  ).
Proof.
  cbv zeta.
  split; [reflexivity|].
  split; [reflexivity|].
  exact (clean_column_names_strips_text [sales] (snd (clean_column_names 0%nat [sales])) 0%nat 1%nat sales eq_refl eq_refl).
Defined.

Lemma clean_column_names_idempotent_witness :
  let st := [sales] in
  let df := 0%nat in
  let f := sales in
  let l1 := 1%nat in
  let st1 := snd (clean_column_names 0%nat [sales]) in
  (st !! df = Some f)
  /\ (clean_column_names df st = (Ok l1, st1))
  /\ (
  exists f1 l2 st2 f2,
    st1 !! l1 = Some f1
    /\ names f1 = map canon (names f)
    /\ clean_column_names l1 st1 = (Ok l2, st2)
    /\ st2 !! l2 = Some f2
    /\ names f2 = names f1
    /\ map canon (map canon (names f)) = map canon (names f)
  ).
Proof.
  cbv zeta. split; [reflexivity|]. split; [reflexivity|].
  exact (clean_column_names_idempotent [sales] (snd (clean_column_names 0%nat [sales])) 0%nat 1%nat sales eq_refl eq_refl).
Defined.


(** Against C10 as it is worded: a table that has both columns, with
    a price that is still text, makes [remove_invalid_rows] raise a
    [TypeError]. *)
Lemma remove_invalid_rows_text_price :
  [raw_price] !! 0%nat = Some raw_price
  /\ wf raw_price = true
  /\ has_column "price" raw_price && has_column "quantity" raw_price = true
  /\ remove_invalid_rows 0%nat [raw_price] = (Err TypeError, [raw_price]).
Proof. repeat split. Qed.


End Instances.

(** ** More about text *)

Module TextMore.
Import Text TextFacts Cleaning CleaningText MoreParts Parts.

Lemma rstrip_idem (s : string) : rstrip (rstrip s) = rstrip s.
Proof.
  induction s as [|c t IH]; simpl; [reflexivity|].
  destruct (rstrip t) as [|d r] eqn:E.
  - destruct (py_isspace c) eqn:Hc; simpl; [reflexivity | now rewrite Hc].
  - simpl in *. now rewrite IH.
Qed.

Lemma lstrip_head (s : string) :
  lstrip s = EmptyString
  \/ exists c t, lstrip s = String c t /\ py_isspace c = false.
Proof.
  induction s as [|c t IH]; simpl; [now left|].
  destruct (py_isspace c) eqn:Hc; [exact IH|]. right. now exists c, t.
Qed.

Lemma rstrip_head (c : ascii) (t : string) :
  py_isspace c = false -> exists r, rstrip (String c t) = String c r.
Proof.
  intros Hc. simpl. destruct (rstrip t); [rewrite Hc|]; eauto.
Qed.

(** Stripping a stripped text changes nothing. *)
Lemma strip_idem (s : string) : strip (strip s) = strip s.
Proof.
  unfold strip. destruct (lstrip_head s) as [E | (c & t & E & Hc)]; rewrite E.
  - reflexivity.
  - destruct (rstrip_head c t Hc) as [r Er]. rewrite Er.
    simpl lstrip. rewrite Hc. rewrite <- Er. apply rstrip_idem.
Qed.

Lemma space_not_numeric (c : ascii) :
  py_isspace c = true -> numeric_char c = false.
Proof.
  destruct c as [[] [] [] [] [] [] [] []]; vm_compute; intros H;
    try discriminate; reflexivity.
Qed.

Lemma keep_numeric_lstrip (s : string) : keep_numeric (lstrip s) = keep_numeric s.
Proof.
  induction s as [|c t IH]; simpl; [reflexivity|].
  destruct (py_isspace c) eqn:Hc; [|reflexivity].
  now rewrite (space_not_numeric c Hc).
Qed.

Lemma keep_numeric_rstrip (s : string) : keep_numeric (rstrip s) = keep_numeric s.
Proof.
  induction s as [|c t IH]; simpl; [reflexivity|].
  destruct (rstrip t) as [|d r] eqn:E.
  - simpl in IH. destruct (py_isspace c) eqn:Hc; simpl.
    + now rewrite (space_not_numeric c Hc).
    + now rewrite <- IH.
  - change (keep_numeric (String c (String d r)))
      with (if numeric_char c then String c (keep_numeric (String d r))
            else keep_numeric (String d r)).
    now rewrite IH.
Qed.

(** Deleting the noise makes the trimming before it pointless. *)
Lemma keep_numeric_strip (s : string) : keep_numeric (strip s) = keep_numeric s.
Proof. unfold strip. now rewrite keep_numeric_rstrip, keep_numeric_lstrip. Qed.

Lemma lower_char_not_upper (c : ascii) : is_upper (lower_char c) = false.
Proof. destruct c as [[] [] [] [] [] [] [] []]; vm_compute; reflexivity. Qed.

Lemma underscore_not_upper : is_upper "_" = false.
Proof. reflexivity. Qed.

Lemma no_upper_lower (s : string) : no_upper (lower s) = true.
Proof.
  induction s as [|c t IH]; simpl; [reflexivity|].
  now rewrite lower_char_not_upper, IH.
Qed.

Lemma no_upper_sub_ws (b : bool) (s : string) :
  no_upper s = true -> no_upper (sub_ws_from b s) = true.
Proof.
  revert b; induction s as [|c t IH]; intros b H; simpl in *; [reflexivity|].
  apply andb_true_iff in H as [Hc Ht].
  destruct (py_isspace c); [destruct b|]; simpl; rewrite ?Hc; simpl; auto.
Qed.

Lemma canon_no_upper (c : string) : no_upper (canon c) = true.
Proof. apply no_upper_sub_ws, no_upper_lower. Qed.

End TextMore.

(** ** More about [clean_column_names] *)

Module NormalizeMore.
Import Text Num Conv Pandas Cleaning Spec Parts MoreParts.
Import TextFacts CleaningText TextMore PandasFacts StoreFacts NormalizeFacts FilterFacts.

Lemma getitem_Err_present (c : string) (f : DataFrame) (e : exn) :
  has_column c f = true -> getitem f c = Err e -> e = AttributeError.
Proof.
  intros Hc H. apply find_columns_present in Hc. unfold getitem in H.
  destruct (find_columns c f) as [|s [|s' l]]; congruence.
Qed.

Lemma names_strip_step (c : string) (s : Series) (f : DataFrame) :
  has_column c f = true ->
  names (if is_object s then set_column c (strip_object s) f else f) = names f.
Proof.
  intros Hc. destruct (is_object s); [|reflexivity].
  now rewrite names_set_column, Hc.
Qed.

(** The loop can only fail on a label that two columns carry. *)
Lemma strip_loop_err (todo : list string) :
  forall (f f' : DataFrame) (e : exn),
    (forall c, In c todo -> In c (names f)) ->
    for_each todo strip_column f = (Err e, f') ->
    e = AttributeError.
Proof.
  induction todo as [|a todo IH]; intros f f' e Hin H; [discriminate|].
  rewrite for_each_cons in H.
  assert (Ha : has_column a f = true) by (apply has_column_In, Hin; now left).
  destruct (getitem f a) as [s|e0] eqn:Hs.
  - rewrite (strip_column_run a f s Hs) in H.
    eapply IH; [|exact H]. intros c Hc.
    rewrite (names_strip_step a s f Ha). apply Hin. now right.
  - rewrite (strip_column_err a f e0 Hs) in H. injection H as <- <-.
    eapply getitem_Err_present; eassumption.
Qed.

Lemma size_strip_object (s : Series) : size (strip_object s) = size s.
Proof. destruct s; simpl; now rewrite ?length_map. Qed.

Lemma names_normalized (f : DataFrame) : names (normalized f) = map canon (names f).
Proof. unfold names, normalized; simpl. now rewrite !map_map. Qed.

(** The normalized table is well formed when the table is and the
    canonical names are distinct. *)
Lemma wf_normalized (f : DataFrame) :
  wf f = true -> List.NoDup (map canon (names f)) -> wf (normalized f) = true.
Proof.
  intros W N. unfold wf. apply andb_true_iff. split.
  - apply unique_labels_NoDup. now rewrite names_normalized.
  - unfold wf in W. apply andb_true_iff in W as [_ W].
    rewrite forallb_forall in W. apply forallb_forall.
    intros [n s] Hin. unfold normalized in Hin; simpl in Hin.
    apply in_map_iff in Hin as ([n0 s0] & [= <- <-] & Hin).
    specialize (W _ Hin). simpl in *. now rewrite size_strip_object.
Qed.

Lemma strip_text_columns_NoDup (f : DataFrame) :
  List.NoDup (map canon (names f)) ->
  strip_text_columns (rename canon f) = (Ok tt, normalized f).
Proof.
  intros N. rewrite strip_text_columns_unfold.
  rewrite strip_loop_run; [now rewrite strip_in_rename | | | auto].
  - apply unique_labels_NoDup. now rewrite names_rename.
  - now rewrite names_rename.
Qed.

(** Two labels with one canonical name stop the loop. *)
Lemma strip_text_columns_collision (f : DataFrame) :
  ~ List.NoDup (map canon (names f)) ->
  exists g, strip_text_columns (rename canon f) = (Err AttributeError, g).
Proof.
  intros N. rewrite strip_text_columns_unfold.
  destruct (for_each (names (rename canon f)) strip_column (rename canon f))
    as [[[]|e] g] eqn:L.
  - exfalso. apply N. rewrite <- names_rename.
    apply unique_labels_NoDup, unique_labels_forall.
    eapply strip_loop_ok, L.
  - exists g. f_equal. f_equal. eapply strip_loop_err; [|exact L]. auto.
Qed.

(** The columns of dtype [object] of the normalized table hold text
    only. *)
Lemma normalized_text (f : DataFrame) (c : string) (s : Series) :
  getitem (normalized f) c = Ok s -> is_object s = true -> text_only s = true.
Proof.
  intros Hs Ho. apply getitem_Ok in Hs.
  destruct (find_columns_In c (normalized f) s) as [n Hn]; [rewrite Hs; now left|].
  unfold normalized in Hn; simpl in Hn.
  apply in_map_iff in Hn as ([n0 s0] & [= _ <-] & _).
  destruct s0 as [l0|l0|l0|l0]; simpl in *; try discriminate.
  clear. induction l0; simpl; auto.
Qed.

Lemma normalized_all_object (f : DataFrame) (c : string) (s : Series) :
  all_object f = true -> getitem (normalized f) c = Ok s -> is_object s = true.
Proof.
  intros A Hs. apply getitem_Ok in Hs.
  destruct (find_columns_In c (normalized f) s) as [n Hn]; [rewrite Hs; now left|].
  unfold normalized in Hn; simpl in Hn.
  apply in_map_iff in Hn as ([n0 s0] & [= _ <-] & Hin).
  unfold all_object in A. rewrite forallb_forall in A. specialize (A _ Hin).
  simpl in A. now destruct s0.
Qed.

(** X1.  [clean_column_names] returns a new table exactly when no two
    labels have the same canonical name; when two labels collide it
    raises [AttributeError].  Either way the store only grows by one
    object: the caller's table and every other table stay as they
    were. *)
Theorem clean_column_names_outcome (st : store) (df : loc) (f : DataFrame) :
  st !! df = Some f ->
  (List.NoDup (map canon (names f)) ->
   clean_column_names df st = (Ok (length st), (st ++ [normalized f])%list))
  /\ (~ List.NoDup (map canon (names f)) ->
      exists g, clean_column_names df st = (Err AttributeError, (st ++ [g])%list))
  /\ (forall l f0, st !! l = Some f0 ->
      snd (clean_column_names df st) !! l = Some f0).
Proof.
  intros H. split; [now apply clean_column_names_NoDup|]. split.
  - intros N. rewrite (clean_column_names_run st df f H).
    destruct (strip_text_columns_collision f N) as [g ->]. now exists g.
  - intros l f0 Hl. rewrite (clean_column_names_run st df f H). simpl.
    now apply lookup_old.
Qed.

(** X2.  The table that [clean_column_names] returns has canonical
    labels: each is free of whitespace and of upper-case letters and is
    its own canonical form, and no label occurs twice.  A well-formed
    table gives a well-formed table. *)
Theorem clean_column_names_labels
    (st st' : store) (df l : loc) (f : DataFrame) :
  st !! df = Some f ->
  clean_column_names df st = (Ok l, st') ->
  exists g,
    st' !! l = Some g
    /\ Forall (fun n => no_space n = true /\ no_upper n = true /\ canon n = n)
              (names g)
    /\ List.NoDup (names g)
    /\ (wf f = true -> wf g = true).
Proof.
  intros H R.
  destruct (clean_column_names_Ok _ _ _ _ _ H R) as (N & -> & ->).
  exists (normalized f). split; [apply lookup_new|].
  rewrite names_normalized. split; [|split; [exact N|]].
  - apply Forall_forall. intros n Hn. apply list_elem_of_In in Hn.
    apply in_map_iff in Hn as (c & <- & _).
    split; [apply canon_no_space|]. split; [apply canon_no_upper | apply canon_idem].
  - intros W. now apply wf_normalized.
Qed.

(** X3.  In the table that [clean_column_names] returns every column
    of dtype [object] holds text in every cell, and the text is
    stripped: no cell of such a column is missing or a number any
    more. *)
Theorem clean_column_names_text_only
    (st st' : store) (df l : loc) (f : DataFrame) :
  st !! df = Some f ->
  clean_column_names df st = (Ok l, st') ->
  exists g,
    st' !! l = Some g
    /\ forall c s,
        getitem g c = Ok s ->
        is_object s = true ->
        text_only s = true
        /\ Forall (fun x => exists u, x = CStr u /\ strip u = u) (cells s).
Proof.
  intros H R.
  destruct (clean_column_names_Ok _ _ _ _ _ H R) as (N & -> & ->).
  exists (normalized f). split; [apply lookup_new|].
  intros c s Hs Ho. apply getitem_Ok in Hs.
  destruct (find_columns_In c (normalized f) s) as [n Hn]; [rewrite Hs; now left|].
  unfold normalized in Hn; simpl in Hn.
  apply in_map_iff in Hn as ([n0 s0] & [= _ <-] & _).
  destruct s0 as [l0|l0|l0|l0]; simpl in *; try discriminate. split.
  - clear. induction l0; simpl; auto.
  - apply Forall_forall. intros x Hx. apply list_elem_of_In in Hx.
    apply in_map_iff in Hx as (c0 & <- & _). eexists. split; [reflexivity|].
    apply strip_idem.
Qed.

End NormalizeMore.

(** ** More about the numeric coercion *)

Module CoerceMore.
Import Text Num Conv Pandas Cleaning Spec Parts MoreParts.
Import TextFacts TextMore PandasFacts CoerceFacts NumFacts ParseFacts.

Lemma clean_text_noise (t : string) : clean_text true t = keep_numeric t.
Proof. unfold clean_text. apply keep_numeric_strip. Qed.

Lemma fin_not_infinite (x : float) : is_fin x -> infinite (Some x) = false.
Proof. now intros [d ->]. Qed.

(** X4.  With [remove_currency] set, [_to_numeric_clean] reads no text
    as an infinity: the letters of the words for one are deleted with
    the rest of the noise, and digits that are too many for a float64
    are a parse error, so every value is missing or finite. *)
Theorem to_numeric_clean_currency_finite (series : Series) :
  exists out,
    _to_numeric_clean series true = Ok out
    /\ Forall (fun o => infinite o = false) (numbers out).
Proof.
  destruct (to_numeric_clean_numbers series true) as (out & Ho & Hn).
  exists out. split; [exact Ho|]. rewrite Hn.
  apply Forall_forall. intros o Ho'. apply list_elem_of_In in Ho'.
  apply in_map_iff in Ho' as (t & <- & _).
  destruct (coerce_text true t) as [x|] eqn:E; [|reflexivity].
  eapply fin_not_infinite, coerce_price_fin, E.
Qed.

(** X5.  With [remove_currency] set, only the digits, dots and minus
    signs of a text count: two columns whose texts agree on these give
    the same column, whatever else the texts hold and wherever. *)
Theorem to_numeric_clean_currency_noise (s1 s2 : Series) :
  map keep_numeric (texts s1) = map keep_numeric (texts s2) ->
  _to_numeric_clean s1 true = _to_numeric_clean s2 true.
Proof.
  intros E. rewrite !cleaned_texts.
  rewrite (map_ext (clean_text true) keep_numeric clean_text_noise (texts s1)).
  rewrite (map_ext (clean_text true) keep_numeric clean_text_noise (texts s2)).
  now rewrite E.
Qed.

(** *** Integers through their text *)

Lemma span_digits_uint (d : Decimal.uint) :
  span_digits (NilEmpty.string_of_uint d) = (uint_digits d, EmptyString).
Proof.
  induction d; simpl; [reflexivity| | | | | | | | | |];
    rewrite IHd; reflexivity.
Qed.

Lemma fold_digits_acc (l : Decimal.uint) :
  forall acc : BinNums.positive,
    fold_left (fun a d => 10 * a + d) (uint_digits l) (Zpos acc)
    = Zpos (Pos.of_uint_acc l acc).
Proof.
  induction l; intros acc; simpl; [reflexivity| | | | | | | | | |];
    rewrite <- IHl; f_equal; lia.
Qed.

Lemma digits_value_uint (d : Decimal.uint) :
  digits_value (uint_digits d) = Z.of_N (N.of_uint d).
Proof.
  unfold digits_value, N.of_uint.
  induction d; simpl; [reflexivity| | | | | | | | | |];
    try exact IHd; apply (fold_digits_acc d).
Qed.

Lemma uint_digits_nonempty (d : Decimal.uint) :
  d <> Decimal.Nil -> uint_digits d <> [].
Proof. destruct d; simpl; congruence. Qed.

Lemma string_of_uint_cases (d : Decimal.uint) :
  d = Decimal.Nil
  \/ (NilZero.string_of_uint d = NilEmpty.string_of_uint d /\ uint_digits d <> []).
Proof. destruct d; [now left | right; split; [reflexivity | discriminate] ..]. Qed.

Lemma uint_digits_range (d : Decimal.uint) :
  Forall (fun x => 0 <= x <= 9) (uint_digits d).
Proof. induction d; simpl; constructor; auto; lia. Qed.

Lemma fold_digits_lower (ds : list Z) :
  Forall (fun x => 0 <= x <= 9) ds ->
  forall acc, 0 <= acc ->
    acc * 10 ^ Z.of_nat (length ds) <= fold_left (fun a d => 10 * a + d) ds acc.
Proof.
  induction 1 as [|d ds Hd _ IH]; intros acc Ha; cbn [fold_left].
  - simpl. lia.
  - replace (Z.of_nat (length (d :: ds))) with (Z.succ (Z.of_nat (length ds)))
      by (simpl length; lia).
    rewrite Z.pow_succ_r by lia.
    assert (P : 0 <= 10 ^ Z.of_nat (length ds)) by (apply Z.pow_nonneg; lia).
    etransitivity; [|apply IH; lia].
    replace (acc * (10 * 10 ^ Z.of_nat (length ds)))
      with (10 * acc * 10 ^ Z.of_nat (length ds)) by ring.
    apply Z.mul_le_mono_nonneg_r; lia.
Qed.

(** A decimal number without a leading zero is at least the power of
    ten of its length. *)
Lemma lead_digits (u : Decimal.uint) :
  Decimal.nzhead u = u -> u <> Decimal.Nil ->
  10 ^ (Z.of_nat (length (uint_digits u)) - 1) <= digits_value (uint_digits u).
Proof.
  intros Hn Hu.
  assert (G : forall k v, 1 <= k <= 9 ->
              10 ^ (Z.of_nat (length (k :: uint_digits v)) - 1)
              <= digits_value (k :: uint_digits v)).
  { intros k v Hk. unfold digits_value. cbn [fold_left].
    replace (Z.of_nat (length (k :: uint_digits v)) - 1)
      with (Z.of_nat (length (uint_digits v))) by (simpl length; lia).
    etransitivity;
      [|apply (fold_digits_lower _ (uint_digits_range v)); lia].
    assert (P : 0 <= 10 ^ Z.of_nat (length (uint_digits v)))
      by (apply Z.pow_nonneg; lia).
    nia. }
  destruct u; try congruence; try (apply G; lia).
  exfalso. apply (DecimalFacts.nzhead_nonzero (Decimal.D0 u) u). exact Hn.
Qed.

Lemma to_uint_length (n : N) :
  (n < 10 ^ 19)%N -> (length (uint_digits (N.to_uint n)) <= 19)%nat.
Proof.
  intros B. set (u := N.to_uint n).
  assert (E : u = Decimal.unorm u).
  { unfold u. rewrite <- (DecimalN.Unsigned.of_to n) at 1.
    apply DecimalN.Unsigned.to_of. }
  assert (V : digits_value (uint_digits u) = Z.of_N n)
    by (unfold u; rewrite digits_value_uint; now rewrite DecimalN.Unsigned.of_to).
  assert (B' : Z.of_N n < 10 ^ 19)
    by (change (10 ^ 19) with (Z.of_N (10 ^ 19)); apply N2Z.inj_lt; exact B).
  clear B.
  assert (G : Decimal.nzhead u = u -> u <> Decimal.Nil ->
              (length (uint_digits u) <= 19)%nat).
  { intros Hu Nn. pose proof (lead_digits u Hu Nn) as Lb. rewrite V in Lb.
    assert (Lt : 10 ^ (Z.of_nat (length (uint_digits u)) - 1) < 10 ^ 19)
      by (eapply Z.le_lt_trans; [exact Lb | exact B']).
    clear Lb B' V. apply Z.pow_lt_mono_r_iff in Lt; lia. }
  unfold Decimal.unorm in E.
  destruct (Decimal.nzhead u) as [| | | | | | | | | |] eqn:Hz;
    [rewrite E; simpl; repeat constructor | ..];
    (apply G; [congruence | rewrite E; discriminate]).
Qed.

(** The digits of [str(z)] read back as the absolute value of [z]. *)
Lemma span_nat_digits (z : Z) :
  exists ds,
    ds <> []
    /\ span_digits (nat_digits z) = (ds, EmptyString)
    /\ digits_value ds = Z.abs z
    /\ Forall (fun x => 0 <= x <= 9) ds
    /\ (Z.abs z < 10 ^ 19 -> (length ds <= 19)%nat).
Proof.
  unfold nat_digits.
  pose proof (DecimalN.Unsigned.of_to (Z.to_N (Z.abs z))) as E.
  destruct (string_of_uint_cases (N.to_uint (Z.to_N (Z.abs z)))) as [H | [H N]].
  - rewrite H in *. exists [0]. split; [discriminate|]. split; [reflexivity|].
    split; [simpl in E; unfold digits_value; simpl; lia|].
    split; [repeat constructor; lia | simpl; lia].
  - rewrite H, span_digits_uint.
    exists (uint_digits (N.to_uint (Z.to_N (Z.abs z)))).
    split; [exact N|]. split; [reflexivity|].
    split; [rewrite digits_value_uint, E; lia|].
    split; [apply uint_digits_range|].
    intros B. apply to_uint_length.
    change (10 ^ 19)%N with (Z.to_N (10 ^ 19)). lia.
Qed.

Lemma span_digits_head (s r : string) (d : Z) (ds : list Z) :
  span_digits s = (d :: ds, r) ->
  exists c t, s = String c t /\ is_digit c = true.
Proof.
  destruct s as [|c t]; simpl; [discriminate|].
  destruct (is_digit c) eqn:E; [|discriminate]. intros _. now exists c, t.
Qed.

Lemma digit_head (c : ascii) (t : string) :
  is_digit c = true ->
  c_isspace c = false
  /\ read_sign (String c t) = (false, String c t)
  /\ numeric_char c = true
  /\ py_isspace c = false.
Proof.
  destruct c as [[] [] [] [] [] [] [] []]; vm_compute; intros H;
    try discriminate; repeat split.
Qed.

Lemma uint_text (d : Decimal.uint) :
  all_numeric (NilEmpty.string_of_uint d) = true
  /\ no_space (NilEmpty.string_of_uint d) = true.
Proof.
  induction d; simpl; [auto| | | | | | | | | |];
    destruct IHd as [-> ->]; split; reflexivity.
Qed.

Lemma nat_digits_text (z : Z) :
  all_numeric (nat_digits z) = true /\ no_space (nat_digits z) = true.
Proof.
  unfold nat_digits.
  destruct (string_of_uint_cases (N.to_uint (Z.to_N (Z.abs z)))) as [H | [H _]].
  - rewrite H. split; reflexivity.
  - rewrite H. apply uint_text.
Qed.

Lemma int_str_sign (z : Z) :
  int_str z = if z <? 0 then String "-" (nat_digits z) else nat_digits z.
Proof. reflexivity. Qed.

Lemma int_str_text (z : Z) :
  all_numeric (int_str z) = true /\ no_space (int_str z) = true.
Proof.
  rewrite int_str_sign. destruct (nat_digits_text z) as [A B].
  destruct (z <? 0); simpl; rewrite ?A, ?B; split; reflexivity.
Qed.

Lemma keep_numeric_all_numeric (s : string) :
  all_numeric s = true -> keep_numeric s = s.
Proof.
  induction s as [|c t IH]; simpl; [reflexivity|].
  intros H. apply andb_true_iff in H as [Hc Ht]. now rewrite Hc, IH.
Qed.

Lemma numeric_not_sentinel (c : ascii) (t : string) :
  numeric_char c = true -> is_sentinel (String c t) = false.
Proof.
  destruct c as [[] [] [] [] [] [] [] []]; vm_compute; intros H;
    try discriminate; reflexivity.
Qed.

Lemma int_str_head (z : Z) :
  exists c t, int_str z = String c t /\ numeric_char c = true.
Proof.
  rewrite int_str_sign. destruct (z <? 0).
  - now exists "-"%char, (nat_digits z).
  - destruct (span_nat_digits z) as (ds & N & Hs & _).
    destruct ds as [|d ds]; [congruence|].
    destruct (span_digits_head _ _ _ _ Hs) as (c & t & E & Hc).
    exists c, t. split; [exact E|]. now apply (digit_head c t).
Qed.

Lemma literal_int (z : Z) (ds : list Z) :
  in_int64 z = true ->
  digits_value ds = Z.abs z ->
  Forall (fun x => 0 <= x <= 9) ds ->
  (length ds <= 19)%nat ->
  literal (z <? 0) ds [] false (int_str z) = Some (PInt z).
Proof.
  intros R Hv D L. apply in_int64_spec in R. unfold literal.
  destruct (xstrtod_int ds D L) as (x & ->).
  rewrite (proj2 (c_string_numeric _ (proj1 (int_str_text z)))).
  rewrite Hv.
  replace (signed (z <? 0) (Z.abs z)) with z
    by (unfold signed; destruct (Z.ltb_spec z 0); lia).
  destruct (Z.leb_spec (- 2 ^ 63) z); [|lia].
  destruct (Z.ltb_spec z (2 ^ 64)); [reflexivity|lia].
Qed.

(** The text of an integer parses as that integer. *)
Lemma to_double_int_str (z : Z) :
  in_int64 z = true -> to_double (int_str z) = Some (PInt z).
Proof.
  intros R. destruct (span_nat_digits z) as (ds & N & Hs & Hv & D & L).
  assert (L' : (length ds <= 19)%nat).
  { apply L. apply in_int64_spec in R.
    apply Z.le_lt_trans with (2 ^ 63); [lia | reflexivity]. }
  pose proof (literal_int z ds R Hv D L') as Lit.
  destruct ds as [|d ds]; [congruence|].
  unfold to_double.
  rewrite (proj1 (c_string_numeric _ (proj1 (int_str_text z)))).
  rewrite int_str_sign in *. destruct (Z.ltb_spec z 0) as [Lz|Lz].
  - simpl skip_c_space. simpl read_sign.
    cbv beta iota zeta. rewrite Hs. cbv beta iota zeta.
    rewrite app_nil_r. cbv beta iota zeta. exact Lit.
  - destruct (span_digits_head _ _ _ _ Hs) as (c & t & E & Hc).
    destruct (digit_head c t Hc) as (H1 & H2 & _).
    rewrite E in *. simpl skip_c_space. rewrite H1, H2.
    cbv beta iota zeta. rewrite Hs. cbv beta iota zeta.
    rewrite app_nil_r. cbv beta iota zeta. exact Lit.
Qed.

Lemma coerce_int_str (b : bool) (z : Z) :
  in_int64 z = true ->
  clean_text b (int_str z) = int_str z
  /\ is_sentinel (int_str z) = false
  /\ parse_number (int_str z) = Some (PInt z).
Proof.
  intros R. destruct (int_str_text z) as [A B].
  destruct (int_str_head z) as (c & t & E & Hc).
  split; [|split].
  - unfold clean_text. rewrite (strip_no_space _ B).
    destruct b; [now apply keep_numeric_all_numeric | reflexivity].
  - rewrite E. now apply numeric_not_sentinel.
  - unfold parse_number. now rewrite to_double_int_str.
Qed.

(** Every [int64] is read back from its text, cleaned either way. *)
Lemma integers_read_back (b : bool) (zs : list Z) :
  forallb in_int64 zs = true ->
  mapM as_int
    (map (fun z => numeric_cell
            (if is_sentinel (clean_text b (int_str z))
             then CMissing
             else CStr (clean_text b (int_str z)))) zs)
  = Some zs.
Proof.
  induction zs as [|z zs IH]; simpl; [reflexivity|]. intros R.
  apply andb_true_iff in R as [Rz Rl].
  destruct (coerce_int_str b z Rz) as (-> & -> & H). simpl.
  rewrite H. simpl. now rewrite IH.
Qed.

Lemma to_numeric_clean_SInt (b : bool) (zs : list Z) :
  forallb in_int64 zs = true ->
  _to_numeric_clean (SInt zs) b = Ok (SInt zs).
Proof.
  intros R. rewrite cleaned_texts. f_equal. simpl texts.
  unfold replace_sentinels, to_numeric. rewrite !map_map.
  now rewrite integers_read_back, R.
Qed.

(** X6.  A column of dtype [int64], whose integers are in the range
    of [int64], goes through [_to_numeric_clean] and back unchanged,
    with either value of the flag: the text that [astype(str)] gives an
    integer reads as that integer. *)
Theorem to_numeric_clean_integers (zs : list Z) (remove_currency : bool) :
  Forall (fun z => - 2 ^ 63 <= z < 2 ^ 63) zs ->
  _to_numeric_clean (SInt zs) remove_currency = Ok (SInt zs).
Proof.
  intros R. rewrite cleaned_texts. f_equal. simpl texts.
  unfold replace_sentinels, to_numeric. rewrite !map_map.
  assert (Rb : forallb in_int64 zs = true).
  { apply forallb_forall. intros z Hz. apply in_int64_spec.
    rewrite Forall_forall in R. apply R. now apply list_elem_of_In. }
  now rewrite integers_read_back, Rb.
Qed.

End CoerceMore.

(** ** More about [remove_invalid_rows] *)

Module FilterMore.
Import Text Num Conv Pandas Cleaning Spec Parts MoreParts.
Import PandasFacts StoreFacts SelectFacts FilterFacts FilterTheorems.

Lemma length_mask_filter {A B} (m : list bool) (a : list A) (b : list B) :
  length a = length b -> length (mask_filter m a) = length (mask_filter m b).
Proof.
  revert a b; induction m as [|x m IH]; intros [|a0 a] [|b0 b] H; simpl in *;
    try reflexivity; try discriminate.
  injection H as H. destruct x; simpl; auto.
Qed.

Lemma size_series_filter (m : list bool) (s : Series) :
  size (series_filter m s) = length (mask_filter m (cells s)).
Proof. now rewrite <- length_cells, cells_series_filter. Qed.

Lemma dtype_series_filter (m : list bool) (s : Series) :
  dtype_of (series_filter m s) = dtype_of s.
Proof. now destruct s. Qed.

Lemma wf_sizes (f : DataFrame) (n : string) (s : Series) :
  wf f = true -> In (n, s) (columns f) -> size s = nrows f.
Proof.
  intros W Hin. unfold wf in W. apply andb_true_iff in W as [_ W].
  rewrite forallb_forall in W. specialize (W _ Hin). now apply Nat.eqb_eq in W.
Qed.

Lemma wf_intro (f : DataFrame) :
  unique_labels f = true ->
  (forall n s, In (n, s) (columns f) -> size s = nrows f) ->
  wf f = true.
Proof.
  intros U S. unfold wf. rewrite U. simpl. apply forallb_forall.
  intros [n s] Hin. apply Nat.eqb_eq. now apply (S n).
Qed.

(** A filter keeps a table well formed: every column loses the same
    rows as the index. *)
Lemma wf_select (m : list bool) (f : DataFrame) :
  wf f = true -> wf (select m f) = true.
Proof.
  intros W. apply wf_intro.
  - rewrite unique_select. now apply wf_unique.
  - intros n s Hin. unfold select in Hin; simpl in Hin.
    apply in_map_iff in Hin as ([n0 s0] & [= <- <-] & Hin).
    rewrite size_series_filter. unfold nrows; simpl.
    apply length_mask_filter. rewrite length_cells. now apply (wf_sizes f n0).
Qed.

Lemma nrows_reset_index (f : DataFrame) : nrows (reset_index f) = nrows f.
Proof. unfold nrows, reset_index; simpl. apply length_seq. Qed.

Lemma wf_reset_index (f : DataFrame) : wf f = true -> wf (reset_index f) = true.
Proof.
  intros W. apply wf_intro.
  - exact (wf_unique f W).
  - intros n s Hin. rewrite nrows_reset_index. now apply (wf_sizes f n).
Qed.

Lemma wf_kept (m : list bool) (f : DataFrame) :
  wf f = true -> wf (reset_index (select m f)) = true.
Proof. intros W. now apply wf_reset_index, wf_select. Qed.

Lemma getitem_kept (m : list bool) (c : string) (f : DataFrame) :
  getitem (reset_index (select m f)) c
  = match getitem f c with
    | Ok s => Ok (series_filter m s)
    | Err e => Err e
    end.
Proof. now rewrite getitem_reset_index, getitem_select. Qed.

(** X7.  [remove_invalid_rows] keeps the schema: the table it returns
    has the columns of the table passed in, under the same labels, in
    the same order and with the same dtypes; each column holds the cells
    of the rows that were kept; and the table is well formed. *)
Theorem remove_invalid_rows_schema
    (st st' : store) (df l : loc) (f : DataFrame) :
  st !! df = Some f ->
  wf f = true ->
  remove_invalid_rows df st = (Ok l, st') ->
  exists out,
    st' !! l = Some out
    /\ names out = names f
    /\ wf out = true
    /\ (forall c s,
          getitem f c = Ok s ->
          exists s',
            getitem out c = Ok s'
            /\ dtype_of s' = dtype_of s
            /\ cells s' = mask_filter (valid_mask f) (cells s))
    /\ (forall c e, getitem f c = Err e -> getitem out c = Err e).
Proof.
  intros H W R.
  destruct (remove_invalid_rows_Ok _ _ _ _ _ H W R) as [Hout _].
  exists (reset_index (select (valid_mask f) f)).
  split; [exact Hout|]. split; [apply names_select|].
  split; [now apply wf_kept|]. split.
  - intros c s Hs. exists (series_filter (valid_mask f) s).
    rewrite getitem_kept, Hs. split; [reflexivity|].
    split; [apply dtype_series_filter | apply cells_series_filter].
  - intros c e He. now rewrite getitem_kept, He.
Qed.

(** *** A second run *)

Lemma mask_filter_all {A} (m : list bool) (l : list A) :
  Forall (fun b => b = true) m -> (length l <= length m)%nat ->
  mask_filter m l = l.
Proof.
  revert l; induction m as [|b m IH]; intros [|a l] Fm L; simpl in *;
    try reflexivity; try lia.
  inversion Fm; subst. f_equal. apply IH; [assumption | lia].
Qed.

Lemma series_filter_all (m : list bool) (s : Series) :
  Forall (fun b => b = true) m -> (size s <= length m)%nat ->
  series_filter m s = s.
Proof.
  intros Fm L. destruct s; simpl in *; f_equal; now apply mask_filter_all.
Qed.

(** A mask that is true on every row selects the whole table. *)
Lemma select_all (m : list bool) (f : DataFrame) :
  wf f = true ->
  Forall (fun b => b = true) m -> (nrows f <= length m)%nat ->
  select m f = f.
Proof.
  intros W Fm L. unfold select. destruct f as [idx cols] eqn:Ef. simpl. f_equal.
  - now apply mask_filter_all.
  - rewrite <- (map_id cols) at 2. apply map_ext_in. intros [n s] Hin. simpl.
    f_equal. apply series_filter_all; [exact Fm|].
    rewrite (wf_sizes (Frame idx cols) n s W Hin). exact L.
Qed.

Lemma reset_index_twice (f : DataFrame) :
  reset_index (reset_index f) = reset_index f.
Proof. unfold reset_index at 1 3. now rewrite nrows_reset_index. Qed.

Lemma product_cells_kept (m : list bool) (f : DataFrame) :
  product_cells (reset_index (select m f)) = mask_filter m (product_cells f).
Proof.
  unfold product_cells, column_cells. rewrite getitem_kept.
  destruct (getitem f "product") as [r|e].
  - now rewrite cells_series_filter, mask_filter_map.
  - rewrite nrows_reset_index. unfold nrows; simpl.
    symmetry. apply mask_filter_repeat.
Qed.

Lemma zip_mask_filter {A B} (m : list bool) (a : list A) (b : list B) :
  zip (mask_filter m a) (mask_filter m b) = mask_filter m (zip a b).
Proof. symmetry. apply mask_filter_zip_with. Qed.

Lemma positive_no_text (l : list cell) :
  Forall (fun c => positive c = true) l -> existsb is_str l = false.
Proof.
  induction 1 as [|c l Hc _ IH]; simpl; [reflexivity|].
  destruct c; simpl in *; try discriminate; exact IH.
Qed.

Lemma Forall_true_map {A} (g : A -> bool) (l : list A) :
  Forall (fun a => g a = true) l -> Forall (fun b => b = true) (map g l).
Proof. induction 1; simpl; constructor; auto. Qed.

(** The prices and the quantities of the rows that pass are positive
    numbers. *)
Lemma kept_positive (f : DataFrame) (p q : Series) :
  wf f = true ->
  getitem f "price" = Ok p ->
  getitem f "quantity" = Ok q ->
  Forall (fun c => positive c = true) (mask_filter (valid_mask f) (cells p))
  /\ Forall (fun c => positive c = true) (mask_filter (valid_mask f) (cells q)).
Proof.
  intros W Ep Eq.
  destruct (T_proj f p q W Ep Eq) as (E1 & E2 & _).
  pose proof (valid_mask_rows f p q Ep Eq) as EM.
  set (T := zip (cells p) (zip (cells q) (product_cells f))) in *.
  assert (K : Forall (fun t => test_row t = true) (mask_filter (valid_mask f) T)).
  { rewrite EM. apply mask_filter_self. }
  split.
  - rewrite <- E1, mask_filter_map. apply Forall_map_iff.
    eapply Forall_impl; [exact K|]. intros t Ht.
    unfold test_row, row_valid in Ht.
    now apply andb_true_iff in Ht as [Ht _]; apply andb_true_iff in Ht as [Ht _].
  - rewrite <- E2, mask_filter_map. apply Forall_map_iff.
    eapply Forall_impl; [exact K|]. intros t Ht.
    unfold test_row, row_valid in Ht.
    now apply andb_true_iff in Ht as [Ht _]; apply andb_true_iff in Ht as [_ Ht].
Qed.

(** The table of the rows that pass, run through the filters again,
    comes back as it is. *)
Lemma valid_rows_kept (f : DataFrame) :
  wf f = true ->
  has_column "price" f && has_column "quantity" f = true ->
  (forall r, getitem f "product" = Ok r -> text_only r = true) ->
  valid_rows (reset_index (select (valid_mask f) f))
  = Ok (reset_index (select (valid_mask f) f)).
Proof.
  intros W Hc Nr. pose proof (wf_unique f W) as U.
  apply andb_true_iff in Hc as [Hp Hq].
  destruct (getitem_present "price" f U Hp) as [p Ep].
  destruct (getitem_present "quantity" f U Hq) as [q Eq].
  set (M := valid_mask f). set (out := reset_index (select M f)).
  assert (Wo : wf out = true) by now apply wf_kept.
  assert (Ep' : getitem out "price" = Ok (series_filter M p))
    by (unfold out; now rewrite getitem_kept, Ep).
  assert (Eq' : getitem out "quantity" = Ok (series_filter M q))
    by (unfold out; now rewrite getitem_kept, Eq).
  destruct (T_proj f p q W Ep Eq) as (E1 & E2 & _).
  pose proof (valid_mask_rows f p q Ep Eq) as EM. fold M in EM.
  pose proof (valid_mask_rows out _ _ Ep' Eq') as EM'.
  unfold out in EM' at 2. rewrite product_cells_kept in EM'. fold M in EM'.
  rewrite !cells_series_filter, !zip_mask_filter in EM'.
  set (T := zip (cells p) (zip (cells q) (product_cells f))) in *.
  assert (K : Forall (fun t => test_row t = true) (mask_filter M T)).
  { rewrite EM. apply mask_filter_self. }
  assert (Fm : Forall (fun b => b = true) (valid_mask out)).
  { rewrite EM'. now apply Forall_true_map. }
  assert (Lm : (nrows out <= length (valid_mask out))%nat).
  { rewrite EM', length_map. unfold out. rewrite nrows_reset_index.
    unfold nrows; simpl. apply Nat.eq_le_incl, length_mask_filter.
    transitivity (length (cells p)); [symmetry; exact (wf_size "price" f p W Ep)|].
    rewrite <- E1. apply length_map. }
  assert (Np : no_text (series_filter M p) = true).
  { unfold no_text. apply negb_true_iff, positive_no_text.
    rewrite cells_series_filter, <- E1, mask_filter_map. apply Forall_map_iff.
    eapply Forall_impl; [exact K|]. intros t Ht.
    unfold test_row, row_valid in Ht.
    now apply andb_true_iff in Ht as [Ht _]; apply andb_true_iff in Ht as [Ht _]. }
  assert (Nq : no_text (series_filter M q) = true).
  { unfold no_text. apply negb_true_iff, positive_no_text.
    rewrite cells_series_filter, <- E2, mask_filter_map. apply Forall_map_iff.
    eapply Forall_impl; [exact K|]. intros t Ht.
    unfold test_row, row_valid in Ht.
    now apply andb_true_iff in Ht as [Ht _]; apply andb_true_iff in Ht as [_ Ht]. }
  assert (Nr' : forall r, getitem out "product" = Ok r -> text_only r = true).
  { intros r' Hr'. unfold out in Hr'. rewrite getitem_kept in Hr'.
    destruct (getitem f "product") as [r|e] eqn:Er; [|discriminate].
    injection Hr' as <-. specialize (Nr r eq_refl).
    destruct r as [l| | |]; simpl in *; try discriminate.
    now apply forallb_mask_filter. }
  destruct (valid_rows_returns out _ _ Wo Ep' Eq' Np Nq Nr') as [out2 V].
  rewrite V. f_equal. rewrite (valid_rows_select out out2 Wo V).
  rewrite (select_all _ out Wo Fm Lm). unfold out. apply reset_index_twice.
Qed.

(** X8.  [remove_invalid_rows] is idempotent on tables whose product
    column, if there is one, holds text and missing values only: run on
    the table it returned, it returns a new table with the same index
    and the same columns.  (A product column that mixes text with
    numbers can lose its last text in the first run, and [.str] is then
    refused in the second.) *)
Theorem remove_invalid_rows_idempotent
    (st st' : store) (df l : loc) (f : DataFrame) :
  st !! df = Some f ->
  wf f = true ->
  (forall r, getitem f "product" = Ok r -> text_only r = true) ->
  remove_invalid_rows df st = (Ok l, st') ->
  exists out,
    st' !! l = Some out
    /\ remove_invalid_rows l st' = (Ok (length st'), (st' ++ [out])%list).
Proof.
  intros H W Nr R.
  destruct (remove_invalid_rows_Ok _ _ _ _ _ H W R) as [Hout _].
  exists (reset_index (select (valid_mask f) f)). split; [exact Hout|].
  rewrite (remove_invalid_rows_run st' l _ Hout).
  rewrite valid_rows_kept; [reflexivity | exact W | | exact Nr].
  destruct (has_column "price" f && has_column "quantity" f) eqn:Hc;
    [reflexivity|].
  rewrite (remove_invalid_rows_run st df f H) in R.
  now rewrite (valid_rows_KeyError f W Hc) in R.
Qed.

End FilterMore.

(** ** More about [handle_missing_values] *)

Module FillMore.
Import Text Num Conv Pandas Cleaning Spec Parts MoreParts.
Import PandasFacts CoerceFacts StoreFacts SelectFacts FilterFacts FilterTheorems.
Import NumFacts ParseFacts FillFacts FillTheorems.
Import NormalizeMore CoerceMore FilterMore.

Lemma nrows_set_column (c : string) (s : Series) (f : DataFrame) :
  nrows (set_column c s f) = nrows f.
Proof. reflexivity. Qed.

(** An assignment of a column as long as the index keeps the table
    well formed. *)
Lemma wf_set_column (c : string) (s : Series) (f : DataFrame) :
  wf f = true -> size s = nrows f -> wf (set_column c s f) = true.
Proof.
  intros W Hs. apply wf_intro.
  - apply unique_set_column. now apply wf_unique.
  - intros n s' Hin. rewrite nrows_set_column.
    unfold set_column in Hin; simpl in Hin.
    destruct (has_column c f).
    + apply in_map_iff in Hin as ([n0 s0] & E & Hin). simpl in E.
      destruct (String.eqb c n0); injection E as <- <-;
        [exact Hs | now apply (wf_sizes f n0)].
    + apply in_app_iff in Hin as [Hin | [[= <- <-] | []]];
        [now apply (wf_sizes f n) | exact Hs].
Qed.

Lemma size_coerce_column (c : string) (b : bool) (f : DataFrame) :
  wf f = true -> size (coerce_column c b f) = nrows f.
Proof.
  intros W. unfold coerce_column.
  destruct (getitem f c) as [s|e] eqn:Hs.
  - rewrite <- (wf_size c f s W Hs), length_cells.
    destruct (_to_numeric_clean s b) as [t|e] eqn:Ht; [|reflexivity].
    now apply to_numeric_clean_size in Ht.
  - simpl. apply repeat_length.
Qed.

Lemma size_fillna (v : float) (s : Series) : size (fillna v s) = size s.
Proof. destruct s; simpl; now rewrite ?length_map. Qed.

Lemma size_fill_price (pc : Series) : size (fill_price pc) = size pc.
Proof.
  unfold fill_price. destruct (existsb id (notna pc)); [|apply size_fillna].
  destruct (median _); [apply size_fillna | reflexivity].
Qed.

Lemma no_text_fillna (v : float) (s : Series) :
  no_text s = true -> no_text (fillna v s) = true.
Proof.
  destruct s as [l|l|l|l]; try (intros _; now apply numeric_no_text).
  unfold no_text; simpl. intros H. apply negb_true_iff in H.
  apply negb_true_iff. induction l as [|c l IH]; simpl in *; [reflexivity|].
  apply orb_false_iff in H as [Hc Hl]. rewrite (IH Hl).
  now destruct c.
Qed.

Lemma no_text_fill_price (pc : Series) :
  no_text pc = true -> no_text (fill_price pc) = true.
Proof.
  intros H. unfold fill_price.
  destruct (existsb id (notna pc)); [|now apply no_text_fillna].
  destruct (median _); [now apply no_text_fillna | exact H].
Qed.

Lemma size_cast (qc q' : Series) (n : nat) :
  is_object qc = false \/ qc = SObject (repeat CMissing n) ->
  astype_int (fillna (of_Z 1) qc) = Ok q' ->
  size q' = size qc /\ dtype_of q' = int64.
Proof.
  intros Sh A. destruct (astype_fill qc q' n Sh A) as (zs & -> & F2).
  split; [|reflexivity]. simpl. rewrite <- size_numbers.
  symmetry. eapply Forall2_length, F2.
Qed.

Lemma wf_coerced_table (f : DataFrame) : wf f = true -> wf (coerced_table f) = true.
Proof.
  intros W. unfold coerced_table.
  apply wf_set_column; [apply wf_set_column; [exact W|]|].
  - exact (size_coerce_column "price" true f W).
  - exact (size_coerce_column "quantity" false f W).
Qed.

Lemma wf_filled_table (q' : Series) (f : DataFrame) :
  wf f = true ->
  astype_int (fillna (of_Z 1) (coerce_column "quantity" false f)) = Ok q' ->
  wf (filled_table q' f) = true.
Proof.
  intros W A. pose proof (wf_unique f W) as U. unfold filled_table.
  apply wf_set_column; [apply wf_set_column; [now apply wf_coerced_table|]|].
  - destruct (size_cast _ _ (nrows f)
                (coerce_column_shape "quantity" false f U) A) as [-> _].
    exact (size_coerce_column "quantity" false f W).
  - rewrite size_fill_price. exact (size_coerce_column "price" true f W).
Qed.

Lemma names_coerced_table (f : DataFrame) :
  names (coerced_table f) = (names f ++ added_labels f)%list.
Proof.
  unfold coerced_table, added_labels.
  rewrite !names_set_column, !has_column_set.
  destruct (has_column "price" f), (has_column "quantity" f); simpl;
    rewrite ?app_nil_r, <- ?app_assoc; reflexivity.
Qed.

Lemma has_column_coerced_table (f : DataFrame) :
  has_column "price" (coerced_table f) = true
  /\ has_column "quantity" (coerced_table f) = true.
Proof.
  unfold coerced_table. rewrite !has_column_set. simpl.
  split; [now rewrite orb_true_r | apply orb_true_r].
Qed.

Lemma names_filled_table (q' : Series) (f : DataFrame) :
  names (filled_table q' f) = (names f ++ added_labels f)%list.
Proof.
  destruct (has_column_coerced_table f) as [Hp Hq]. unfold filled_table.
  rewrite names_set_column, has_column_set, Hp. simpl.
  rewrite names_set_column, Hq. apply names_coerced_table.
Qed.

Lemma getitem_coerced_table (f : DataFrame) :
  unique_labels f = true ->
  getitem (coerced_table f) "price" = Ok (coerce_column "price" true f)
  /\ getitem (coerced_table f) "quantity" = Ok (coerce_column "quantity" false f)
  /\ forall c, c <> "price" -> c <> "quantity" ->
      getitem (coerced_table f) c = getitem f c.
Proof.
  intros U. unfold coerced_table. split; [|split].
  - rewrite getitem_set_other by discriminate. now apply getitem_set_same.
  - apply getitem_set_same. now apply unique_set_column.
  - intros c H1 H2. now rewrite !getitem_set_other by congruence.
Qed.

Lemma getitem_filled_table (q' : Series) (f : DataFrame) :
  unique_labels f = true ->
  getitem (filled_table q' f) "price"
  = Ok (fill_price (coerce_column "price" true f))
  /\ getitem (filled_table q' f) "quantity" = Ok q'
  /\ forall c, c <> "price" -> c <> "quantity" ->
      getitem (filled_table q' f) c = getitem f c.
Proof.
  intros U. unfold filled_table.
  assert (Uc : unique_labels (coerced_table f) = true).
  { unfold coerced_table. now do 2 apply unique_set_column. }
  split; [|split].
  - apply getitem_set_same. now apply unique_set_column.
  - rewrite getitem_set_other by discriminate. now apply getitem_set_same.
  - intros c H1 H2. rewrite !getitem_set_other by congruence.
    now apply getitem_coerced_table.
Qed.

(** The outcome of the statements of [handle_missing_values], through
    the cast of the quantity. *)
Lemma fill_missing_cast (f : DataFrame) :
  unique_labels f = true ->
  fill_missing f
  = match astype_int (fillna (of_Z 1) (coerce_column "quantity" false f)) with
    | Ok q' => (Ok tt, filled_table q' f)
    | Err e => (Err e, coerced_table f)
    end.
Proof. intros U. now rewrite (fill_missing_run f U). Qed.

(** X9.  [handle_missing_values] keeps the labels of the table in
    their order and adds [price] and then [quantity] at the end, each
    when the table did not have it; the table stays well formed, so the
    new columns are as long as the others. *)
Theorem handle_missing_values_schema
    (st st' : store) (df l : loc) (f : DataFrame) :
  st !! df = Some f ->
  wf f = true ->
  handle_missing_values df st = (Ok l, st') ->
  exists g,
    st' !! l = Some g
    /\ names g
       = (names f
          ++ (if has_column "price" f then [] else ["price"])
          ++ (if has_column "quantity" f then [] else ["quantity"]))%list
    /\ nrows g = nrows f
    /\ wf g = true.
Proof.
  intros H W R. pose proof (wf_unique f W) as U.
  rewrite (handle_missing_values_run st df f H), (fill_missing_cast f U) in R.
  destruct (astype_int _) as [q'|e] eqn:A; simpl in R; [|discriminate].
  injection R as <- <-. exists (filled_table q' f).
  split; [eapply lookup_updated, H|].
  split; [apply names_filled_table|]. split; [reflexivity|].
  now apply wf_filled_table.
Qed.

(** *** When the cast of the quantity fails *)

(** X10.  [handle_missing_values] fails on one kind of table only: one
    where a quantity reads as an infinity.  The cast to integers then
    raises [ValueError], and the caller's table is left half done: it
    has the columns [price] and [quantity] with the coerced values, no
    missing value filled, and its other columns as they were.  On every
    other well-formed table the function returns the caller's
    reference. *)
Theorem handle_missing_values_outcome
    (st : store) (df : loc) (f : DataFrame) :
  st !! df = Some f ->
  wf f = true ->
  (Forall (fun o => infinite o = false) (coerced "quantity" false f) ->
   exists g, handle_missing_values df st = (Ok df, <[df := g]> st))
  /\ (Exists (fun o => infinite o = true) (coerced "quantity" false f) ->
      exists g p q,
        handle_missing_values df st = (Err ValueError, <[df := g]> st)
        /\ names g
           = (names f
              ++ (if has_column "price" f then [] else ["price"])
              ++ (if has_column "quantity" f then [] else ["quantity"]))%list
        /\ getitem g "price" = Ok p
        /\ numbers p = coerced "price" true f
        /\ getitem g "quantity" = Ok q
        /\ numbers q = coerced "quantity" false f
        /\ forall c, c <> "price" -> c <> "quantity" ->
            getitem g c = getitem f c).
Proof.
  intros H W. pose proof (wf_unique f W) as U.
  rewrite (handle_missing_values_run st df f H), (fill_missing_cast f U).
  rewrite <- (numbers_coerce_column "quantity" false f U).
  pose proof (coerce_column_shape "quantity" false f U) as Sh.
  split.
  - intros Fi. apply Forall_not_infinite in Fi.
    destruct (astype_fill_finite _ (nrows f) Sh Fi) as [q' ->].
    now exists (filled_table q' f).
  - intros Ex.
    rewrite (astype_fill_infinite _ (nrows f) Sh
               (coerce_column_int64 "quantity" false f)
               (coerce_column_uint64 "quantity" false f) Ex).
    destruct (getitem_coerced_table f U) as (Gp & Gq & Go).
    exists (coerced_table f), (coerce_column "price" true f),
      (coerce_column "quantity" false f).
    split; [reflexivity|]. split; [apply names_coerced_table|].
    split; [exact Gp|]. split; [now apply numbers_coerce_column|].
    split; [exact Gq|]. split; [reflexivity | exact Go].
Qed.

(** *** A table without a price that reads *)

Lemma mask_filter_none {A} (m : list bool) (l : list A) :
  Forall (fun b => b = false) m -> mask_filter m l = [].
Proof.
  intros Fm. revert l. induction Fm as [|b m -> _ IH]; intros [|a l];
    simpl; auto.
Qed.

Lemma test_row_no_price {A} (P : list cell) (X : list A)
    (h : cell * A -> bool) :
  (forall t, positive (fst t) = false -> h t = false) ->
  Forall (fun c => positive c = false) P ->
  Forall (fun b => b = false) (map h (zip P X)).
Proof.
  intros Hh Fp. revert X. induction Fp as [|c P Hc _ IH]; intros [|x X];
    simpl; constructor; auto.
Qed.

Lemma zero_cells (s : Series) (l : list (option float)) :
  numbers s = map (fun _ => Some (Fin (Dec 0 0))) l ->
  Forall (fun c => positive c = false) (cells s).
Proof.
  unfold numbers. generalize (cells s). intros cs. revert l.
  induction cs as [|c cs IH]; intros [|o l] E; simpl in E; try discriminate;
    constructor.
  - injection E as Ec _. destruct c as [u|x|]; try reflexivity.
    now injection Ec as ->.
  - injection E as _ E. now apply (IH l).
Qed.

(** The cells of the filled price when no price could be read. *)
Lemma fill_price_zero (f : DataFrame) :
  unique_labels f = true ->
  present (coerced "price" true f) = [] ->
  Forall (fun c => positive c = false)
         (cells (fill_price (coerce_column "price" true f))).
Proof.
  intros U Np.
  pose proof (numbers_coerce_column "price" true f U) as En.
  pose proof (coerce_column_no_text "price" true f U) as Nt.
  destruct (notna_present _ Nt) as [P1 _]. rewrite En in P1.
  unfold fill_price. destruct (existsb id (notna _)).
  - now specialize (P1 eq_refl).
  - eapply zero_cells. rewrite numbers_fillna, En by exact Nt.
    now apply fill_all_missing.
Qed.

(** The filters return on the table that [handle_missing_values]
    leaves, when the product column holds text and missing values
    only. *)
Lemma valid_rows_filled (q' : Series) (f : DataFrame) :
  wf f = true ->
  astype_int (fillna (of_Z 1) (coerce_column "quantity" false f)) = Ok q' ->
  (forall r, getitem f "product" = Ok r -> text_only r = true) ->
  exists out, valid_rows (filled_table q' f) = Ok out.
Proof.
  intros W A Nr. pose proof (wf_unique f W) as U.
  destruct (getitem_filled_table q' f U) as (Gp & Gq & Go).
  eapply valid_rows_returns; [now apply wf_filled_table | exact Gp | exact Gq | | |].
  - now apply no_text_fill_price, coerce_column_no_text.
  - apply numeric_no_text.
    destruct (astype_fill _ _ (nrows f)
                (coerce_column_shape "quantity" false f U) A) as (zs & -> & _).
    reflexivity.
  - intros r Hr. apply Nr. now rewrite <- Hr, Go by discriminate.
Qed.

(** X11.  When no price of the table can be read, or the table has no
    price column, [handle_missing_values] fills the price with zero and
    [remove_invalid_rows] then drops every row: the result has the
    columns and no row. *)
Theorem no_price_no_rows
    (st st1 : store) (df l1 : loc) (f : DataFrame) :
  st !! df = Some f ->
  wf f = true ->
  present (coerced "price" true f) = [] ->
  (forall r, getitem f "product" = Ok r -> text_only r = true) ->
  handle_missing_values df st = (Ok l1, st1) ->
  exists out,
    remove_invalid_rows l1 st1 = (Ok (length st1), (st1 ++ [out])%list)
    /\ nrows out = 0%nat
    /\ index out = []
    /\ rows out = []
    /\ names out
       = (names f
          ++ (if has_column "price" f then [] else ["price"])
          ++ (if has_column "quantity" f then [] else ["quantity"]))%list.
Proof.
  intros H W Np Nr R. pose proof (wf_unique f W) as U.
  rewrite (handle_missing_values_run st df f H), (fill_missing_cast f U) in R.
  destruct (astype_int _) as [q'|e] eqn:A; simpl in R; [|discriminate].
  injection R as <- <-. set (g := filled_table q' f).
  assert (Hg : <[df := g]> st !! df = Some g) by (eapply lookup_updated, H).
  assert (Wg : wf g = true) by now apply wf_filled_table.
  destruct (valid_rows_filled q' f W A Nr) as [out V]. fold g in V.
  rewrite (remove_invalid_rows_run _ df g Hg), V.
  rewrite (valid_rows_select g out Wg V).
  destruct (getitem_filled_table q' f U) as (Gp & Gq & _). fold g in Gp, Gq.
  assert (Fm : Forall (fun b => b = false) (valid_mask g)).
  { rewrite (valid_mask_rows g _ _ Gp Gq).
    apply test_row_no_price; [|now apply fill_price_zero].
    intros t Ht. unfold test_row, row_valid. now rewrite Ht. }
  eexists. split; [reflexivity|].
  assert (Ei : mask_filter (valid_mask g) (index g) = [])
    by now apply mask_filter_none.
  split; [|split; [|split]].
  - rewrite nrows_reset_index.
    change (length (mask_filter (valid_mask g) (index g)) = 0%nat).
    now rewrite Ei.
  - change (seq 0 (length (mask_filter (valid_mask g) (index g))) = []).
    now rewrite Ei.
  - rewrite rows_reset_index, rows_select. now apply mask_filter_none.
  - change (names (reset_index (select (valid_mask g) g))) with
      (names (select (valid_mask g) g)).
    rewrite names_select. apply names_filled_table.
Qed.

(** *** The filters after the filling *)

(** With numbers in the two columns, the filters can only fail on the
    product column. *)
Lemma valid_rows_numeric_Err (f : DataFrame) (p q : Series) (e : exn) :
  getitem f "price" = Ok p ->
  getitem f "quantity" = Ok q ->
  no_text p = true ->
  no_text q = true ->
  valid_rows f = Err e ->
  e = AttributeError /\ has_column "product" f = true.
Proof.
  intros Ep Eq Np Nq V. unfold valid_rows in V. rewrite Ep, Eq in V. simpl in V.
  rewrite !getitem_select, Ep, Eq in V. simpl in V.
  destruct (gt_zero_no_text (zip_with andb (notna p) (notna q)) p Np) as [mp Gp].
  destruct (gt_zero_no_text (zip_with andb (notna p) (notna q)) q Nq) as [mq Gq].
  rewrite Gp in V. simpl in V. rewrite Gq in V. simpl in V.
  rewrite !has_column_select in V.
  destruct (has_column "product" f) eqn:Hr; simpl in V; [|discriminate].
  split; [|reflexivity]. rewrite !getitem_select in V.
  destruct (getitem f "product") as [r|e0] eqn:Er; simpl in V.
  - destruct (str_strip _) as [t|e3] eqn:St; simpl in V; [discriminate|].
    injection V as <-. now apply str_strip_Err in St.
  - injection V as <-. eapply getitem_Err_present; eassumption.
Qed.

(** X12.  [handle_missing_values] prepares the table for
    [remove_invalid_rows]: after it the lookups of [price] and
    [quantity] and the comparisons with zero cannot fail, so neither
    [KeyError] nor [TypeError] is raised.  The filters return a new
    table when the product column, if there is one, holds text and
    missing values only; they can only fail, with [AttributeError], on
    a table that has a product column that holds something else. *)
Theorem remove_invalid_rows_after_fill
    (st st1 : store) (df l1 : loc) (f : DataFrame) :
  st !! df = Some f ->
  wf f = true ->
  handle_missing_values df st = (Ok l1, st1) ->
  ((forall r, getitem f "product" = Ok r -> text_only r = true) ->
   exists out,
     remove_invalid_rows l1 st1 = (Ok (length st1), (st1 ++ [out])%list))
  /\ (forall e,
        fst (remove_invalid_rows l1 st1) = Err e ->
        e = AttributeError
        /\ snd (remove_invalid_rows l1 st1) = st1
        /\ exists r, getitem f "product" = Ok r /\ text_only r = false).
Proof.
  intros H W R. pose proof (wf_unique f W) as U.
  rewrite (handle_missing_values_run st df f H), (fill_missing_cast f U) in R.
  destruct (astype_int _) as [q'|e0] eqn:A; simpl in R; [|discriminate].
  injection R as <- <-. set (g := filled_table q' f).
  assert (Hg : <[df := g]> st !! df = Some g) by (eapply lookup_updated, H).
  rewrite (remove_invalid_rows_run _ df g Hg).
  destruct (getitem_filled_table q' f U) as (Gp & Gq & Go). fold g in Gp, Gq, Go.
  split.
  - intros Nr. destruct (valid_rows_filled q' f W A Nr) as [out V].
    fold g in V. rewrite V. now exists out.
  - intros e He. destruct (valid_rows g) as [out|e1] eqn:V; simpl in He;
      [discriminate|]. injection He as ->.
    destruct (valid_rows_numeric_Err g _ _ e Gp Gq) as [-> Hc]; try exact V.
    { now apply no_text_fill_price, coerce_column_no_text. }
    { apply numeric_no_text.
      destruct (astype_fill _ _ (nrows f)
                  (coerce_column_shape "quantity" false f U) A) as (zs & -> & _).
      reflexivity. }
    split; [reflexivity|]. split; [reflexivity|].
    destruct (getitem f "product") as [r|e2] eqn:Er.
    + exists r. split; [reflexivity|].
      destruct (text_only r) eqn:Tr; [|reflexivity].
      destruct (valid_rows_filled q' f W A) as [out V'].
      { intros r' Hr'. congruence. }
      fold g in V'. congruence.
    + destruct (valid_rows_filled q' f W A) as [out V'].
      { intros r' Hr'. congruence. }
      fold g in V'. congruence.
Qed.

(** *** A second run *)

Lemma coerce_column_SInt (c : string) (b : bool) (zs : list Z) (f : DataFrame) :
  forallb in_int64 zs = true ->
  getitem f c = Ok (SInt zs) -> coerce_column c b f = SInt zs.
Proof.
  intros R H. unfold coerce_column. now rewrite H, to_numeric_clean_SInt.
Qed.



(** X13.  After [handle_missing_values] has returned, a second call on
    the same table returns as well, adds no column and leaves the
    quantity column as it is: the integers read back from their own
    text. *)
Theorem handle_missing_values_again
    (st st1 : store) (df l : loc) (f : DataFrame) :
  st !! df = Some f ->
  wf f = true ->
  handle_missing_values df st = (Ok l, st1) ->
  exists g g2 q,
    st1 !! l = Some g
    /\ handle_missing_values l st1 = (Ok l, <[l := g2]> st1)
    /\ getitem g "quantity" = Ok q
    /\ getitem g2 "quantity" = Ok q
    /\ dtype_of q = int64
    /\ names g2 = names g
    /\ index g2 = index g.
Proof.
  intros H W R. pose proof (wf_unique f W) as U.
  rewrite (handle_missing_values_run st df f H), (fill_missing_cast f U) in R.
  destruct (astype_int _) as [q'|e0] eqn:A; simpl in R; [|discriminate].
  injection R as <- <-. set (g := filled_table q' f).
  assert (Hg : <[df := g]> st !! df = Some g) by (eapply lookup_updated, H).
  assert (Wg : wf g = true) by now apply wf_filled_table.
  pose proof (wf_unique g Wg) as Ug.
  destruct (getitem_filled_table q' f U) as (_ & Gq & _). fold g in Gq.
  destruct (astype_fill_trunc _ _ (nrows f)
              (coerce_column_shape "quantity" false f U)
              (coerce_column_int64 "quantity" false f)
              (coerce_column_uint64 "quantity" false f) A)
    as (zs & -> & F2 & _).
  apply in_int64_Forall in F2.
  exists g, (filled_table (SInt zs) g), (SInt zs).
  split; [exact Hg|]. split.
  { rewrite (handle_missing_values_run _ df g Hg), (fill_missing_cast g Ug).
    now rewrite (coerce_column_SInt "quantity" false zs g F2 Gq). }
  split; [exact Gq|].
  split; [now apply getitem_filled_table|].
  split; [reflexivity|]. split; [|reflexivity].
  rewrite names_filled_table. unfold added_labels.
  rewrite (getitem_has_column "quantity" g _ Gq).
  destruct (getitem_filled_table (SInt zs) f U) as (Gp & _). fold g in Gp.
  rewrite (getitem_has_column "price" g _ Gp). simpl. apply app_nil_r.
Qed.

End FillMore.

(** ** The stages in sequence *)

Module PipelineMore.
Import Text Num Conv Pandas Cleaning Spec Parts MoreParts.
Import PandasFacts CoerceFacts StoreFacts NormalizeFacts SelectFacts.
Import FilterFacts FilterTheorems NumFacts ParseFacts FillFacts FillTheorems.
Import TextMore NormalizeMore FilterMore FillMore Tests.

(** The three calls of the script on the store: the table that
    [clean_column_names] makes is the one that [handle_missing_values]
    fills in place, and [remove_invalid_rows] adds one more. *)
Lemma pipeline_run (st : store) (df : loc) (f : DataFrame) :
  st !! df = Some f ->
  pipeline df st
  = match strip_text_columns (rename canon f) with
    | (Err e, g1) => (Err e, (st ++ [g1])%list)
    | (Ok _, g1) =>
        match fill_missing g1 with
        | (Err e, g2) => (Err e, (st ++ [g2])%list)
        | (Ok _, g2) =>
            match valid_rows g2 with
            | Err e => (Err e, (st ++ [g2])%list)
            | Ok out => (Ok (S (length st)), (st ++ [g2; out])%list)
            end
        end
    end.
Proof.
  intros H. unfold pipeline, bindM. rewrite (clean_column_names_run st df f H).
  destruct (strip_text_columns (rename canon f)) as [[u|e] g1]; simpl;
    [|reflexivity].
  rewrite (handle_missing_values_run _ (length st) g1 (lookup_new st g1)).
  rewrite insert_new.
  destruct (fill_missing g1) as [[u2|e] g2]; simpl; [|reflexivity].
  rewrite (remove_invalid_rows_run _ (length st) g2 (lookup_new st g2)).
  destruct (valid_rows g2) as [out|e]; [|reflexivity].
  rewrite length_app, <- app_assoc. simpl. now rewrite Nat.add_1_r.
Qed.

Lemma pipeline_frame (st : store) (df : loc) (f : DataFrame) :
  st !! df = Some f ->
  forall l f0, st !! l = Some f0 -> snd (pipeline df st) !! l = Some f0.
Proof.
  intros H l f0 Hl. rewrite (pipeline_run st df f H).
  destruct (strip_text_columns _) as [[u|e] g1]; simpl;
    [|now apply lookup_app_l_Some].
  destruct (fill_missing g1) as [[u2|e] g2]; simpl;
    [|now apply lookup_app_l_Some].
  destruct (valid_rows g2); simpl; now apply lookup_app_l_Some.
Qed.

(** X14.  On a well-formed table as [load_data] gives it, with every
    column of dtype [object], the three stages in sequence fail in two
    cases only: two labels with one canonical name ([AttributeError]),
    and a quantity that reads as an infinity ([ValueError]).  In every
    other case they return the third object of two new ones: the
    normalized table, which was filled in place, and the table of its
    valid rows.  Whatever happens, the tables that the store held before
    the call, the loaded one among them, are left as they were. *)
Theorem pipeline_outcome (st : store) (df : loc) (f : DataFrame) :
  st !! df = Some f ->
  wf f = true ->
  all_object f = true ->
  (~ List.NoDup (map canon (names f)) ->
   fst (pipeline df st) = Err AttributeError)
  /\ (List.NoDup (map canon (names f)) ->
      Exists (fun o => infinite o = true)
             (coerced "quantity" false (normalized f)) ->
      fst (pipeline df st) = Err ValueError)
  /\ (List.NoDup (map canon (names f)) ->
      Forall (fun o => infinite o = false)
             (coerced "quantity" false (normalized f)) ->
      exists g out,
        pipeline df st = (Ok (S (length st)), (st ++ [g; out])%list)
        /\ valid_rows g = Ok out
        /\ index g = index f
        /\ names g
           = (map canon (names f)
              ++ (if has_column "price" (normalized f) then [] else ["price"])
              ++ (if has_column "quantity" (normalized f) then []
                  else ["quantity"]))%list)
  /\ (forall l f0, st !! l = Some f0 ->
      snd (pipeline df st) !! l = Some f0).
Proof.
  intros H W A. split; [|split; [|split]].
  - intros N. rewrite (pipeline_run st df f H).
    now destruct (strip_text_columns_collision f N) as [g ->].
  - intros N Ex. rewrite (pipeline_run st df f H).
    rewrite (strip_text_columns_NoDup f N).
    pose proof (wf_unique _ (wf_normalized f W N)) as U.
    rewrite (fill_missing_cast _ U).
    rewrite <- (numbers_coerce_column "quantity" false _ U) in Ex.
    now rewrite (astype_fill_infinite _ (nrows (normalized f))
                   (coerce_column_shape "quantity" false _ U)
                   (coerce_column_int64 "quantity" false _)
                   (coerce_column_uint64 "quantity" false _) Ex).
  - intros N Fi. rewrite (pipeline_run st df f H).
    rewrite (strip_text_columns_NoDup f N).
    pose proof (wf_normalized f W N) as Wn.
    pose proof (wf_unique _ Wn) as U.
    rewrite (fill_missing_cast _ U).
    rewrite <- (numbers_coerce_column "quantity" false _ U) in Fi.
    apply Forall_not_infinite in Fi.
    destruct (astype_fill_finite _ (nrows (normalized f))
                (coerce_column_shape "quantity" false _ U) Fi) as [q' Hq].
    rewrite Hq.
    destruct (valid_rows_filled q' (normalized f) Wn Hq) as [out V].
    { intros r Hr. apply (normalized_text f "product" r Hr).
      now apply (normalized_all_object f "product"). }
    rewrite V. exists (filled_table q' (normalized f)), out.
    split; [reflexivity|]. split; [exact V|]. split; [reflexivity|].
    rewrite names_filled_table. now rewrite names_normalized.
  - exact (pipeline_frame st df f H).
Qed.

Lemma all_positive_kept (c : string) (m : list bool) (f : DataFrame) (s : Series) :
  getitem f c = Ok s ->
  Forall (fun x => positive x = true) (mask_filter m (cells s)) ->
  all_positive c (reset_index (select m f)) = Ok true.
Proof.
  intros Hs K. unfold all_positive. rewrite getitem_kept, Hs. simpl.
  rewrite gt_zero_numbers
    by (rewrite cells_series_filter; now apply positive_no_text).
  simpl. f_equal. rewrite cells_series_filter. apply forallb_forall.
  intros b Hb. apply in_map_iff in Hb as (x & <- & Hx).
  rewrite Forall_forall in K. apply K. now apply list_elem_of_In.
Qed.

(** X15.  Whenever the three stages in sequence return, the table they
    return passes the checks of the first test of the test suite, for
    any table and not only for the one of the test:
    [(df["price"] > 0).all()] and [(df["quantity"] > 0).all()] are
    defined and true.  The table has the canonical labels of the loaded
    one, then [price] and [quantity] where they were missing; its
    quantity has dtype [int64]; its index counts from zero; and it is
    well formed. *)
Theorem pipeline_result (st st' : store) (df l : loc) (f : DataFrame) :
  st !! df = Some f ->
  wf f = true ->
  pipeline df st = (Ok l, st') ->
  exists out q,
    st' !! l = Some out
    /\ all_positive "price" out = Ok true
    /\ all_positive "quantity" out = Ok true
    /\ getitem out "quantity" = Ok q
    /\ dtype_of q = int64
    /\ names out
       = (map canon (names f)
          ++ (if has_column "price" (normalized f) then [] else ["price"])
          ++ (if has_column "quantity" (normalized f) then []
              else ["quantity"]))%list
    /\ index out = seq 0 (nrows out)
    /\ wf out = true.
Proof.
  intros H W R. rewrite (pipeline_run st df f H) in R.
  destruct (strip_text_columns (rename canon f)) as [[u|e] g1] eqn:S1;
    [|discriminate].
  assert (N : List.NoDup (map canon (names f))).
  { rewrite <- names_rename. apply unique_labels_NoDup, unique_labels_forall.
    rewrite strip_text_columns_unfold in S1. destruct u.
    eapply strip_loop_ok, S1. }
  rewrite (strip_text_columns_NoDup f N) in S1.
  assert (Eg : g1 = normalized f) by congruence. subst g1. clear S1.
  pose proof (wf_normalized f W N) as Wn. pose proof (wf_unique _ Wn) as U.
  rewrite (fill_missing_cast _ U) in R.
  destruct (astype_int _) as [q'|e] eqn:A; [|discriminate].
  destruct (valid_rows _) as [out|e] eqn:V; [|discriminate].
  injection R as <- <-.
  set (g := filled_table q' (normalized f)) in *.
  assert (Wg : wf g = true) by now apply wf_filled_table.
  destruct (getitem_filled_table q' (normalized f) U) as (Gp & Gq & _).
  fold g in Gp, Gq.
  rewrite (valid_rows_select g out Wg V).
  destruct (kept_positive g _ _ Wg Gp Gq) as [Kp Kq].
  set (M := valid_mask g) in *.
  exists (reset_index (select M g)), (series_filter M q').
  split.
  { change (st ++ [g; reset_index (select M g)])%list
      with (st ++ [g] ++ [reset_index (select M g)])%list.
    rewrite app_assoc.
    replace (S (length st)) with (length (st ++ [g])%list)
      by (rewrite length_app; simpl; lia).
    apply lookup_new. }
  split; [now apply (all_positive_kept "price" M g _ Gp)|].
  split; [now apply (all_positive_kept "quantity" M g _ Gq)|].
  split; [now rewrite getitem_kept, Gq|].
  split.
  { rewrite dtype_series_filter.
    now destruct (size_cast _ _ (nrows (normalized f))
                    (coerce_column_shape "quantity" false _ U) A). }
  split.
  { change (names (reset_index (select M g))) with (names (select M g)).
    rewrite names_select. unfold g. rewrite names_filled_table.
    now rewrite names_normalized. }
  split; [|now apply wf_kept].
  now rewrite nrows_reset_index.
Qed.

(** *** The product filter after the normalization *)

Lemma getitem_In (c : string) (s : Series) (f : DataFrame) :
  unique_labels f = true -> In (c, s) (columns f) -> getitem f c = Ok s.
Proof.
  intros U Hin.
  assert (Hc : has_column c f = true).
  { apply has_column_In. unfold names. apply in_map_iff. now exists (c, s). }
  destruct (getitem_present c f U Hc) as [s' Hs]. rewrite Hs. f_equal.
  apply getitem_Ok in Hs. symmetry.
  apply (find_single c f s' Hs (c, s) Hin). apply String.eqb_refl.
Qed.

Lemma zip_map_third {A B C D} (k : C -> D) (P : list A) (Q : list B)
    (R : list C) :
  zip P (zip Q (map k R))
  = map (fun t => (fst t, (fst (snd t), k (snd (snd t))))) (zip P (zip Q R)).
Proof.
  revert Q R; induction P as [|p P IH]; intros [|q Q] [|r R]; simpl;
    try reflexivity.
  f_equal. apply IH.
Qed.

(** X16.  In the three stages in sequence the product filter tests the
    text form of the loaded product: a row of the filled table is kept
    when its price and its quantity are positive and the text form of
    its loaded product is not blank.  A product that is missing in the
    loaded table has the text form ["nan"] once [clean_column_names]
    has run, so the row is not dropped for it: within the sequence the
    test [~df["product"].isna()] never fails. *)
Theorem pipeline_missing_product
    (st st' : store) (df l : loc) (f : DataFrame)
    (n0 : string) (l0 : list cell) :
  st !! df = Some f ->
  wf f = true ->
  pipeline df st = (Ok l, st') ->
  In (n0, SObject l0) (columns f) ->
  canon n0 = "product" ->
  exists g out P Q,
    st' !! length st = Some g
    /\ st' !! l = Some out
    /\ column_cells "price" g = Some P
    /\ column_cells "quantity" g = Some Q
    /\ column_cells "product" g
       = Some (map (fun c => CStr (strip (cell_text c))) l0)
    /\ rows out
       = mask_filter
           (map (fun t => positive (fst t) && positive (fst (snd t))
                          && negb (String.eqb (strip (cell_text (snd (snd t))))
                                              EmptyString))
                (zip P (zip Q l0)))
           (rows g)
    /\ strip (cell_text CMissing) = "nan"
    /\ Forall (fun c => is_missing c = false)
              (map (fun c => CStr (strip (cell_text c))) l0).
Proof.
  intros H W R Hin Hn. rewrite (pipeline_run st df f H) in R.
  destruct (strip_text_columns (rename canon f)) as [[u|e] g1] eqn:S1;
    [|discriminate].
  assert (N : List.NoDup (map canon (names f))).
  { rewrite <- names_rename. apply unique_labels_NoDup, unique_labels_forall.
    rewrite strip_text_columns_unfold in S1. destruct u.
    eapply strip_loop_ok, S1. }
  rewrite (strip_text_columns_NoDup f N) in S1.
  assert (Eg : g1 = normalized f) by congruence. subst g1. clear S1.
  pose proof (wf_normalized f W N) as Wn. pose proof (wf_unique _ Wn) as U.
  rewrite (fill_missing_cast _ U) in R.
  destruct (astype_int _) as [q'|e] eqn:A; [|discriminate].
  destruct (valid_rows _) as [out|e] eqn:V; [|discriminate].
  injection R as <- <-.
  set (g := filled_table q' (normalized f)) in *.
  assert (Wg : wf g = true) by now apply wf_filled_table.
  destruct (getitem_filled_table q' (normalized f) U) as (Gp & Gq & Go).
  fold g in Gp, Gq, Go.
  set (k := fun c => CStr (strip (cell_text c))).
  assert (Gr : getitem g "product" = Ok (SObject (map k l0))).
  { rewrite Go by discriminate. apply getitem_In; [exact U|].
    unfold normalized; simpl. apply in_map_iff.
    exists (n0, SObject l0). split; [|exact Hin]. simpl. now rewrite Hn. }
  rewrite (valid_rows_select g out Wg V).
  exists g, (reset_index (select (valid_mask g) g)),
    (cells (fill_price (coerce_column "price" true (normalized f)))),
    (cells q').
  split.
  { change (st ++ [g; reset_index (select (valid_mask g) g)])%list
      with (st ++ [g] ++ [reset_index (select (valid_mask g) g)])%list.
    rewrite app_assoc. apply lookup_app_l_Some, lookup_new. }
  split.
  { change (st ++ [g; reset_index (select (valid_mask g) g)])%list
      with (st ++ [g] ++ [reset_index (select (valid_mask g) g)])%list.
    rewrite app_assoc.
    replace (S (length st)) with (length (st ++ [g])%list)
      by (rewrite length_app; simpl; lia).
    apply lookup_new. }
  split; [unfold column_cells; now rewrite Gp|].
  split; [unfold column_cells; now rewrite Gq|].
  split; [unfold column_cells; now rewrite Gr|].
  split; [|split; [reflexivity|]].
  - rewrite rows_reset_index, rows_select. f_equal.
    unfold valid_mask, product_cells, column_cells. rewrite Gp, Gq, Gr.
    simpl cells. rewrite (mask_with_product row_valid).
    rewrite zip_map_third, map_map. apply map_ext. intros t. simpl.
    unfold row_valid, named, k. now rewrite strip_idem.
  - apply Forall_map_iff. clear. induction l0; constructor; auto.
Qed.

(** The row without a product is kept, under the product ["nan"];
    the row with a blank product is dropped. *)
Example missing_product_ex :
  option_map (column_cells "product")
    (snd (pipeline 0%nat [MoreScenario.unnamed]) !! 1%nat)
  = Some (Some [CStr "nan"; CStr EmptyString; CStr "Pen"])
  /\ option_map (column_cells "product")
       (snd (pipeline 0%nat [MoreScenario.unnamed]) !! 2%nat)
     = Some (Some [CStr "nan"; CStr "Pen"]).
Proof. split; vm_compute; reflexivity. Qed.

(** The two tests of the suite pass. *)
Example test_negative_values_removed_and_missing_filled_passes :
  fst (test_negative_values_removed_and_missing_filled []) = Ok true.
Proof. reflexivity. Qed.

Example test_missing_quantity_defaults_to_one_passes :
  fst (test_missing_quantity_defaults_to_one []) = Ok true.
Proof. reflexivity. Qed.

End PipelineMore.

(** ** The further properties at work *)

Module MoreInstances.
Import Text Num Conv Pandas Cleaning Spec Parts MoreParts Tests Scenario.
Import MoreScenario.
Import NormalizeMore CoerceMore FilterMore FillMore PipelineMore.

Lemma clean_column_names_outcome_witness :
  let st := [sales] in
  let df := 0%nat in
  let f := sales in
  (st !! df = Some f)
  /\ (
  (List.NoDup (map canon (names f)) ->
   clean_column_names df st = (Ok (length st), (st ++ [normalized f])%list))
  /\ (~ List.NoDup (map canon (names f)) ->
      exists g, clean_column_names df st = (Err AttributeError, (st ++ [g])%list))
  /\ (forall l f0, st !! l = Some f0 ->
      snd (clean_column_names df st) !! l = Some f0)
  ).
Proof.
  cbv zeta.
  split; [reflexivity|].
  exact (clean_column_names_outcome [sales] 0%nat sales eq_refl).
Defined.

Lemma clean_column_names_labels_witness :
  let st := [sales] in
  let df := 0%nat in
  let f := sales in
  let l := 1%nat in
  let st' := snd (clean_column_names 0%nat [sales]) in
  (st !! df = Some f)
  /\ (clean_column_names df st = (Ok l, st'))
  /\ (
  exists g,
    st' !! l = Some g
    /\ Forall (fun n => no_space n = true /\ no_upper n = true /\ canon n = n)
              (names g)
    /\ List.NoDup (names g)
    /\ (wf f = true -> wf g = true)
  ).
Proof.
  cbv zeta.
  split; [reflexivity|].
  split; [reflexivity|].
  exact (clean_column_names_labels [sales] (snd (clean_column_names 0%nat [sales])) 0%nat 1%nat sales eq_refl eq_refl).
Defined.

Lemma clean_column_names_text_only_witness :
  let st := [sales] in
  let df := 0%nat in
  let f := sales in
  let l := 1%nat in
  let st' := snd (clean_column_names 0%nat [sales]) in
  (st !! df = Some f)
  /\ (clean_column_names df st = (Ok l, st'))
  /\ (
  exists g,
    st' !! l = Some g
    /\ forall c s,
        getitem g c = Ok s ->
        is_object s = true ->
        text_only s = true
        /\ Forall (fun x => exists u, x = CStr u /\ strip u = u) (cells s)
  ).
Proof.
  cbv zeta.
  split; [reflexivity|].
  split; [reflexivity|].
  exact (clean_column_names_text_only [sales] (snd (clean_column_names 0%nat [sales])) 0%nat 1%nat sales eq_refl eq_refl).
Defined.

Lemma to_numeric_clean_currency_noise_witness :
  let s1 := SObject [CStr "$1,200.50"; CMissing] in
  let s2 := SObject [CStr " 1200.50 USD"; CStr "n/a"] in
  (map keep_numeric (texts s1) = map keep_numeric (texts s2))
  /\ (
  _to_numeric_clean s1 true = _to_numeric_clean s2 true
  ).
Proof.
  cbv zeta.
  split; [reflexivity|].
  exact (to_numeric_clean_currency_noise (SObject [CStr "$1,200.50"; CMissing]) (SObject [CStr " 1200.50 USD"; CStr "n/a"]) eq_refl).
Defined.

Lemma to_numeric_clean_integers_witness :
  let zs := [0; 12; -7; 9223372036854775807; - 9223372036854775808] in
  (Forall (fun z => - 2 ^ 63 <= z < 2 ^ 63) zs)
  /\ (
  _to_numeric_clean (SInt zs) false = Ok (SInt zs)
  ).
Proof.
  cbv zeta.
  assert (Hyp : Forall (fun z => - 2 ^ 63 <= z < 2 ^ 63)
                  [0; 12; -7; 9223372036854775807; - 9223372036854775808])
    by (repeat constructor; lia).
  split; [exact Hyp|].
  exact (to_numeric_clean_integers
           [0; 12; -7; 9223372036854775807; - 9223372036854775808] false Hyp).
Defined.

Lemma remove_invalid_rows_schema_witness :
  let st := [filled] in
  let df := 0%nat in
  let f := filled in
  let l := 1%nat in
  let st' := snd (remove_invalid_rows 0%nat [filled]) in
  (st !! df = Some f)
  /\ (wf f = true)
  /\ (remove_invalid_rows df st = (Ok l, st'))
  /\ (
  exists out,
    st' !! l = Some out
    /\ names out = names f
    /\ wf out = true
    /\ (forall c s,
          getitem f c = Ok s ->
          exists s',
            getitem out c = Ok s'
            /\ dtype_of s' = dtype_of s
            /\ cells s' = mask_filter (valid_mask f) (cells s))
    /\ (forall c e, getitem f c = Err e -> getitem out c = Err e)
  ).
Proof.
  cbv zeta.
  split; [reflexivity|].
  split; [reflexivity|].
  split; [reflexivity|].
  exact (remove_invalid_rows_schema [filled] (snd (remove_invalid_rows 0%nat [filled])) 0%nat 1%nat filled eq_refl eq_refl eq_refl).
Defined.

Lemma remove_invalid_rows_idempotent_witness :
  let st := [filled] in
  let df := 0%nat in
  let f := filled in
  let l := 1%nat in
  let st' := snd (remove_invalid_rows 0%nat [filled]) in
  (st !! df = Some f)
  /\ (wf f = true)
  /\ ((forall r, getitem f "product" = Ok r -> text_only r = true))
  /\ (remove_invalid_rows df st = (Ok l, st'))
  /\ (
  exists out,
    st' !! l = Some out
    /\ remove_invalid_rows l st' = (Ok (length st'), (st' ++ [out])%list)
  ).
Proof.
  cbv zeta.
  split; [reflexivity|].
  split; [reflexivity|].
  assert (Hyp2 : (forall r, getitem (filled) "product" = Ok r -> text_only r = true)).
  { intros r Hr. vm_compute in Hr.
    first [discriminate | injection Hr as <-; reflexivity]. }
  split; [exact Hyp2|].
  split; [reflexivity|].
  exact (remove_invalid_rows_idempotent [filled] (snd (remove_invalid_rows 0%nat [filled])) 0%nat 1%nat filled eq_refl eq_refl Hyp2 eq_refl).
Defined.

Lemma handle_missing_values_schema_witness :
  let st := [unpriced] in
  let df := 0%nat in
  let f := unpriced in
  let l := 0%nat in
  let st' := snd (handle_missing_values 0%nat [unpriced]) in
  (st !! df = Some f)
  /\ (wf f = true)
  /\ (handle_missing_values df st = (Ok l, st'))
  /\ (
  exists g,
    st' !! l = Some g
    /\ names g
       = (names f
          ++ (if has_column "price" f then [] else ["price"])
          ++ (if has_column "quantity" f then [] else ["quantity"]))%list
    /\ nrows g = nrows f
    /\ wf g = true
  ).
Proof.
  cbv zeta.
  split; [reflexivity|].
  split; [reflexivity|].
  split; [reflexivity|].
  exact (handle_missing_values_schema [unpriced] (snd (handle_missing_values 0%nat [unpriced])) 0%nat 0%nat unpriced eq_refl eq_refl eq_refl).
Defined.

Lemma handle_missing_values_outcome_witness :
  let st := [gaps] in
  let df := 0%nat in
  let f := gaps in
  (st !! df = Some f)
  /\ (wf f = true)
  /\ (
  (Forall (fun o => infinite o = false) (coerced "quantity" false f) ->
   exists g, handle_missing_values df st = (Ok df, <[df := g]> st))
  /\ (Exists (fun o => infinite o = true) (coerced "quantity" false f) ->
      exists g p q,
        handle_missing_values df st = (Err ValueError, <[df := g]> st)
        /\ names g
           = (names f
              ++ (if has_column "price" f then [] else ["price"])
              ++ (if has_column "quantity" f then [] else ["quantity"]))%list
        /\ getitem g "price" = Ok p
        /\ numbers p = coerced "price" true f
        /\ getitem g "quantity" = Ok q
        /\ numbers q = coerced "quantity" false f
        /\ forall c, c <> "price" -> c <> "quantity" ->
            getitem g c = getitem f c)
  ).
Proof.
  cbv zeta.
  split; [reflexivity|].
  split; [reflexivity|].
  exact (handle_missing_values_outcome [gaps] 0%nat gaps eq_refl eq_refl).
Defined.

Lemma no_price_no_rows_witness :
  let st := [unpriced] in
  let df := 0%nat in
  let f := unpriced in
  let l1 := 0%nat in
  let st1 := snd (handle_missing_values 0%nat [unpriced]) in
  (st !! df = Some f)
  /\ (wf f = true)
  /\ (present (coerced "price" true f) = [])
  /\ ((forall r, getitem f "product" = Ok r -> text_only r = true))
  /\ (handle_missing_values df st = (Ok l1, st1))
  /\ (
  exists out,
    remove_invalid_rows l1 st1 = (Ok (length st1), (st1 ++ [out])%list)
    /\ nrows out = 0%nat
    /\ index out = []
    /\ rows out = []
    /\ names out
       = (names f
          ++ (if has_column "price" f then [] else ["price"])
          ++ (if has_column "quantity" f then [] else ["quantity"]))%list
  ).
Proof.
  cbv zeta.
  split; [reflexivity|].
  split; [reflexivity|].
  split; [reflexivity|].
  assert (Hyp3 : (forall r, getitem (unpriced) "product" = Ok r -> text_only r = true)).
  { intros r Hr. vm_compute in Hr.
    first [discriminate | injection Hr as <-; reflexivity]. }
  split; [exact Hyp3|].
  split; [reflexivity|].
  exact (no_price_no_rows [unpriced] (snd (handle_missing_values 0%nat [unpriced])) 0%nat 0%nat unpriced eq_refl eq_refl eq_refl Hyp3 eq_refl).
Defined.

Lemma remove_invalid_rows_after_fill_witness :
  let st := [gaps] in
  let df := 0%nat in
  let f := gaps in
  let l1 := 0%nat in
  let st1 := snd (handle_missing_values 0%nat [gaps]) in
  (st !! df = Some f)
  /\ (wf f = true)
  /\ (handle_missing_values df st = (Ok l1, st1))
  /\ (
  ((forall r, getitem f "product" = Ok r -> text_only r = true) ->
   exists out,
     remove_invalid_rows l1 st1 = (Ok (length st1), (st1 ++ [out])%list))
  /\ (forall e,
        fst (remove_invalid_rows l1 st1) = Err e ->
        e = AttributeError
        /\ snd (remove_invalid_rows l1 st1) = st1
        /\ exists r, getitem f "product" = Ok r /\ text_only r = false)
  ).
Proof.
  cbv zeta.
  split; [reflexivity|].
  split; [reflexivity|].
  split; [reflexivity|].
  exact (remove_invalid_rows_after_fill [gaps] (snd (handle_missing_values 0%nat [gaps])) 0%nat 0%nat gaps eq_refl eq_refl eq_refl).
Defined.

Lemma handle_missing_values_again_witness :
  let st := [gaps] in
  let df := 0%nat in
  let f := gaps in
  let l := 0%nat in
  let st1 := snd (handle_missing_values 0%nat [gaps]) in
  (st !! df = Some f)
  /\ (wf f = true)
  /\ (handle_missing_values df st = (Ok l, st1))
  /\ (
  exists g g2 q,
    st1 !! l = Some g
    /\ handle_missing_values l st1 = (Ok l, <[l := g2]> st1)
    /\ getitem g "quantity" = Ok q
    /\ getitem g2 "quantity" = Ok q
    /\ dtype_of q = int64
    /\ names g2 = names g
    /\ index g2 = index g
  ).
Proof.
  cbv zeta.
  split; [reflexivity|].
  split; [reflexivity|].
  split; [reflexivity|].
  exact (handle_missing_values_again [gaps] (snd (handle_missing_values 0%nat [gaps])) 0%nat 0%nat gaps eq_refl eq_refl eq_refl).
Defined.

Lemma pipeline_outcome_witness :
  let st := [sales] in
  let df := 0%nat in
  let f := sales in
  (st !! df = Some f)
  /\ (wf f = true)
  /\ (all_object f = true)
  /\ (
  (~ List.NoDup (map canon (names f)) ->
   fst (pipeline df st) = Err AttributeError)
  /\ (List.NoDup (map canon (names f)) ->
      Exists (fun o => infinite o = true)
             (coerced "quantity" false (normalized f)) ->
      fst (pipeline df st) = Err ValueError)
  /\ (List.NoDup (map canon (names f)) ->
      Forall (fun o => infinite o = false)
             (coerced "quantity" false (normalized f)) ->
      exists g out,
        pipeline df st = (Ok (S (length st)), (st ++ [g; out])%list)
        /\ valid_rows g = Ok out
        /\ index g = index f
        /\ names g
           = (map canon (names f)
              ++ (if has_column "price" (normalized f) then [] else ["price"])
              ++ (if has_column "quantity" (normalized f) then []
                  else ["quantity"]))%list)
  /\ (forall l f0, st !! l = Some f0 ->
      snd (pipeline df st) !! l = Some f0)
  ).
Proof.
  cbv zeta.
  split; [reflexivity|].
  split; [reflexivity|].
  split; [reflexivity|].
  exact (pipeline_outcome [sales] 0%nat sales eq_refl eq_refl eq_refl).
Defined.

Lemma pipeline_result_witness :
  let st := [sales] in
  let df := 0%nat in
  let f := sales in
  let l := 2%nat in
  let st' := snd (pipeline 0%nat [sales]) in
  (st !! df = Some f)
  /\ (wf f = true)
  /\ (pipeline df st = (Ok l, st'))
  /\ (
  exists out q,
    st' !! l = Some out
    /\ all_positive "price" out = Ok true
    /\ all_positive "quantity" out = Ok true
    /\ getitem out "quantity" = Ok q
    /\ dtype_of q = int64
    /\ names out
       = (map canon (names f)
          ++ (if has_column "price" (normalized f) then [] else ["price"])
          ++ (if has_column "quantity" (normalized f) then []
              else ["quantity"]))%list
    /\ index out = seq 0 (nrows out)
    /\ wf out = true
  ).
Proof.
  cbv zeta.
  split; [reflexivity|].
  split; [reflexivity|].
  split; [reflexivity|].
  exact (pipeline_result [sales] (snd (pipeline 0%nat [sales])) 0%nat 2%nat sales eq_refl eq_refl eq_refl).
Defined.

Lemma pipeline_missing_product_witness :
  let st := [unnamed] in
  let df := 0%nat in
  let f := unnamed in
  let l := 2%nat in
  let st' := snd (pipeline 0%nat [unnamed]) in
  let n0 := "Product" in
  let l0 := [CMissing; CStr "  "; CStr "Pen"] in
  (st !! df = Some f)
  /\ (wf f = true)
  /\ (pipeline df st = (Ok l, st'))
  /\ (In (n0, SObject l0) (columns f))
  /\ (canon n0 = "product")
  /\ (
  exists g out P Q,
    st' !! length st = Some g
    /\ st' !! l = Some out
    /\ column_cells "price" g = Some P
    /\ column_cells "quantity" g = Some Q
    /\ column_cells "product" g
       = Some (map (fun c => CStr (strip (cell_text c))) l0)
    /\ rows out
       = mask_filter
           (map (fun t => positive (fst t) && positive (fst (snd t))
                          && negb (String.eqb (strip (cell_text (snd (snd t))))
                                              EmptyString))
                (zip P (zip Q l0)))
           (rows g)
    /\ strip (cell_text CMissing) = "nan"
    /\ Forall (fun c => is_missing c = false)
              (map (fun c => CStr (strip (cell_text c))) l0)
  ).
Proof.
  cbv zeta.
  split; [reflexivity|].
  split; [reflexivity|].
  split; [reflexivity|].
  split; [left; reflexivity|].
  split; [reflexivity|].
  exact (pipeline_missing_product [unnamed] (snd (pipeline 0%nat [unnamed])) 0%nat 2%nat unnamed "Product" [CMissing; CStr "  "; CStr "Pen"] eq_refl eq_refl eq_refl (or_introl eq_refl) eq_refl).
Defined.

End MoreInstances.
